(** * Crypto_watch_mac: position settlement, sizing, persistence and backoff

    A shallow embedding of the settlement/sizing core of
    [crypto_watch_mac_popup.py], followed by the properties established
    about it.

    Modelling conventions.
    - Python floats are modelled as exact rationals ([Q]); [Decimal] values
      are rationals as well.  Equality of computed amounts is therefore
      stated with [==] ([Qeq]) where arithmetic is involved and with [=]
      where a value is merely copied.
    - Module-level dictionaries and sets are [gmap]/[gset]; the objects they
      hold are immutable records that are written back on update.
    - Everything read from the outside world during a call (clock, exchange
      answers, file-system success) is an explicit argument of the call.
    - Console output and the runtime log are not part of the state. *)

From Stdlib Require Import QArith Qround Qminmax Qabs Lqa ZArith Lia.
From Stdlib Require Import String Ascii DecimalString.
From stdpp Require Import base option list gmap strings.

Local Open Scope Q_scope.

(** ** Python-level helpers *)

(** Exceptions that the modelled functions can let escape. *)
Inductive exn :=
| KeyError
| ZeroDivisionError
| DecimalDivisionByZero.

Inductive outcome (A : Type) :=
| Returned (a : A)
| Raised (e : exn).
Arguments Returned {A} a.
Arguments Raised {A} e.

Definition obind {A B} (m : outcome A) (k : A -> outcome B) : outcome B :=
  match m with
  | Returned a => k a
  | Raised e => Raised e
  end.

Notation "x <~ m ;; k" := (obind m (fun x => k))
  (at level 100, m at next level, right associativity).

(** [a / b] on floats: raises on a zero divisor. *)
Definition py_div (a b : Q) : outcome Q :=
  if Qeq_bool b 0 then Raised ZeroDivisionError else Returned (a / b).

(** [x or 0.0] followed by [float(...)], for an argument that may be [None]. *)
Definition float_or0 (x : option Q) : Q :=
  match x with
  | Some q => q
  | None => 0
  end.

(** Truthiness of an optional float: [None] and [0.0] are falsy. *)
Definition truthy (x : option Q) : bool :=
  match x with
  | Some q => negb (Qeq_bool q 0)
  | None => false
  end.

Definition Qlt_bool (a b : Q) : bool := negb (Qle_bool b a).

(** [str.upper()] on ASCII text. *)
Definition upper_ascii (c : ascii) : ascii :=
  let n := nat_of_ascii c in
  if ((97 <=? n)%nat && (n <=? 122)%nat)%bool then ascii_of_nat (n - 32) else c.

Fixpoint upper (s : string) : string :=
  match s with
  | EmptyString => EmptyString
  | String c r => String (upper_ascii c) (upper r)
  end.

(** [str(n)] for an integer. *)
Definition str_int (z : Z) : string := NilZero.string_of_int (Z.to_int z).

Fixpoint frac_digits (fuel : nat) (num den : Z) : string :=
  match fuel with
  | O => EmptyString
  | S k =>
      let d := ((num * 10) / den)%Z in
      let r := ((num * 10) mod den)%Z in
      String (ascii_of_nat (48 + Z.to_nat d))
             (if (r =? 0)%Z then EmptyString else frac_digits k r den)
  end.

(** [str(x)] for a float: the decimal expansion with at least one and at most
    17 fractional digits.  This agrees with Python on the short decimals that
    prices and quantities are. *)
Definition str_float (q : Q) : string :=
  let n := Qnum q in
  let d := Zpos (Qden q) in
  let a := Z.abs n in
  ((if (n <? 0)%Z then "-" else "") ++ str_int (a / d) ++ "."
     ++ frac_digits 17 (a mod d) d)%string.

(** Rounding toward zero ([ROUND_DOWN]) of a rational to an integer. *)
Definition round_down (x : Q) : Z := Z.quot (Qnum x) (Zpos (Qden x)).

(** Round half to even, the rule behind [round(x, n)]. *)
Definition round_half_even (x : Q) : Z :=
  let f := Qfloor x in
  match Qcompare (x - inject_Z f) (1 # 2) with
  | Lt => f
  | Gt => (f + 1)%Z
  | Eq => if Z.even f then f else (f + 1)%Z
  end.

Definition py_round (x : Q) (n : nat) : Q :=
  inject_Z (round_half_even (x * inject_Z (10 ^ Z.of_nat n)))
  / inject_Z (10 ^ Z.of_nat n).

(** ** Quantity and price alignment *)

(** [_floor_to_step]: [(v / s).quantize(Decimal('1'), ROUND_DOWN) * s]. *)
Definition _floor_to_step (value step : Q) : outcome Q :=
  if Qeq_bool step 0 then Raised DecimalDivisionByZero
  else Returned (inject_Z (round_down (value / step)) * step).

(** ** Configuration constants *)

Inductive sizing_mode := ALLOC | RISK.

Record Config := {
  POSITION_SIZING : sizing_mode;
  ALLOC_PCT : Q;
  RISK_PER_TRADE_PCT : Q;
  LEVERAGE : Q;
  TAKER_FEE_PCT : Q;
  AI_ENABLE : bool;
  AI_MIN_SEEN_FOR_ACTION : Z;
  LOG_TRADES_ON : bool;
  LOSS_STREAK_LIMIT : Z;
  LOSS_SUSPEND_SECONDS : Q;
  AUTOSAVE_SEC : Q;
  POS_SYNC_SECONDS : Q;
  INTERVAL : string;
  live_credentials : bool   (* [not TESTNET and API_KEY and API_SECRET] *)
}.

(** The values the source file ships with. *)
Definition default_config : Config := {|
  POSITION_SIZING := RISK;
  ALLOC_PCT := 15;
  RISK_PER_TRADE_PCT := 2;
  LEVERAGE := 10;
  TAKER_FEE_PCT := 0.04;
  AI_ENABLE := false;
  AI_MIN_SEEN_FOR_ACTION := 80;
  LOG_TRADES_ON := true;
  LOSS_STREAK_LIMIT := 3;
  LOSS_SUSPEND_SECONDS := 14400;
  AUTOSAVE_SEC := 15;
  POS_SYNC_SECONDS := 5;
  INTERVAL := "1m";
  live_credentials := true
|}.

(** ** Data model *)

Inductive Side := LONG | SHORT.

Definition Feat := list Q.

(** A position dictionary.  Keys that a dictionary may lack are options. *)
Record Position := {
  side : Side;
  qty : Q;
  entry : Q;
  sl : option Q;
  tp : option Q;
  trail : option Q;
  ml_feat : option Feat;
  opened_ts : option Z;
  risk_R : option Q;
  pos_uid : option string
}.

(** A row of [Account.trades]. *)
Record Trade := {
  t_ts : string;
  t_symbol : string;
  t_side : Side;
  t_entry : Q;
  t_exit : Q;
  t_qty : Q;
  t_pnl_cash : Q;
  t_net_pct : Q;
  t_fee_usdt : Q;
  t_risk_R : Q;
  t_pos_uid : string;
  t_reason : string
}.

Record Account := {
  name : string;
  balance : Q;
  daily_start_equity : option Q;
  daily_pnl : Q;
  total_pnl : Q;
  trades : list Trade;
  _available : option Q
}.

(** [Account.__init__]. *)
Definition new_account (nm : string) : Account := {|
  name := nm;
  balance := 10000;
  daily_start_equity := None;
  daily_pnl := 0;
  total_pnl := 0;
  trades := [];
  _available := None
|}.

(** The part of [SymbolState] that settlement and persistence touch.
    [features_now] stands for what [_features_from_state(st)] returns at the
    moment of the call ([None] when indicators are insufficient or fail). *)
Record SymbolState := {
  symbol : string;
  last_price : option Q;
  position_live : option Position;
  position_sim : option Position;
  features_now : option Feat
}.

Definition new_symbol_state (sym : string) : SymbolState := {|
  symbol := sym;
  last_price := None;
  position_live := None;
  position_sim := None;
  features_now := None
|}.

(** ** Sizing engine *)

(** The account lookups of [compute_qty] are passed in: [acc_balance] is
    [get_account(which).balance] and [live_available] is
    [ACCOUNT_LIVE._available]. *)
Definition avail_margin_of (which : string) (live_available : option Q)
    (acc_balance : Q) : Q :=
  match bool_decide (upper which = "LIVE"), live_available with
  | true, Some a => a
  | _, _ => acc_balance
  end.

Definition max_notional_by_margin_of (cfg : Config) (avail_margin : Q) : Q :=
  Qmax 0 avail_margin * Qmax (LEVERAGE cfg) 0 * 0.95.

Definition risk_cap_of (acc_balance risk_pct : Q) : Q :=
  acc_balance * Qmax risk_pct 0 / 100.

Definition compute_qty_on (cfg : Config) (entry0 sl0 : option Q)
    (which : string) (live_available : option Q) (acc_balance : Q)
    (risk_pct_override : option Q) : outcome Q :=
  let entry := float_or0 entry0 in
  let sl := float_or0 sl0 in
  if Qle_bool entry 0 then Returned 0
  else
    let avail_margin := avail_margin_of which live_available acc_balance in
    let max_notional_by_margin := max_notional_by_margin_of cfg avail_margin in
    match POSITION_SIZING cfg with
    | ALLOC =>
        let alloc_margin := acc_balance * Qmax (ALLOC_PCT cfg) 0 / 100 in
        let target_notional := alloc_margin * Qmax (LEVERAGE cfg) 0 in
        let notional := Qmin target_notional max_notional_by_margin in
        q <~ py_div notional entry ;;
        Returned (Qmax q 0)
    | RISK =>
        let dist := Qabs (entry - sl) in
        if Qle_bool dist 0 then Returned 0
        else
          let risk_pct :=
            match risk_pct_override with
            | None => RISK_PER_TRADE_PCT cfg
            | Some r => r
            end in
          let risk_cap := risk_cap_of acc_balance risk_pct in
          notional_risk <~ py_div (risk_cap * entry) dist ;;
          let notional := Qmin notional_risk max_notional_by_margin in
          q <~ py_div notional entry ;;
          Returned (Qmax q 0)
    end.

(** ** Online admission model *)

(** [OnlineLogit].  The weight vector is a function of the initial weights
    and of the sequence of [partial_fit] calls; the model keeps that sequence
    instead of evaluating the sigmoid. *)
Record OnlineLogit := {
  fits : list (Feat * Z * Q);
  n_seen : Z
}.

Definition partial_fit (x : Feat) (y : Z) (sample_weight : Q)
    (m : OnlineLogit) : OnlineLogit :=
  {| fits := fits m ++ [(x, y, sample_weight)]; n_seen := (n_seen m + 1)%Z |}.

Record MLManager := {
  threshold : Q;
  model : OnlineLogit;
  recent : list (Q * Z);
  open_feats : gmap (string * string) Feat;
  open_probs : gmap (string * string) Q;
  pos_seen : Z;
  neg_seen : Z;
  train_sources : gset string;
  train_after_seen : Z
}.

(** [deque(maxlen=200).append]. *)
Definition deque_append {A} (maxlen : nat) (l : list A) (x : A) : list A :=
  let l' := l ++ [x] in drop (length l' - maxlen) l'.

(** The panel aliases: POS1 is LIVE, POS2 is SIM. *)
Definition normalize_source (which : string) : string :=
  let W := upper which in
  if bool_decide (W = "POS1") then "LIVE"
  else if bool_decide (W = "POS2") then "SIM"
  else W.

Definition _ok (ml : MLManager) (which : string) : bool :=
  bool_decide (normalize_source which ∈ train_sources ml).

Definition record_open (which sym : string) (x : option Feat) (p : option Q)
    (ml : MLManager) : MLManager :=
  let Wn := normalize_source which in
  let S := upper sym in
  if negb (_ok ml Wn) then ml
  else
    let key := (Wn, S) in
    {| threshold := threshold ml;
       model := model ml;
       recent := recent ml;
       open_feats :=
         match x with
         | Some f => <[key := f]> (open_feats ml)
         | None => open_feats ml
         end;
       open_probs :=
         match p with
         | Some v => <[key := v]> (open_probs ml)
         | None => open_probs ml
         end;
       pos_seen := pos_seen ml;
       neg_seen := neg_seen ml;
       train_sources := train_sources ml;
       train_after_seen := train_after_seen ml |}.

(** The R-like quantity of [record_close]. *)
Definition r_like_of (pnl_cash : Q) (ret_pct_on_notional : option Q) : Q :=
  match ret_pct_on_notional with
  | Some move_pct => move_pct / 0.0012
  | None => if Qlt_bool 0 pnl_cash then 1 else -1
  end.

(** The training label of [record_close]: 1 is positive, 0 negative. *)
Definition label_of (pnl_cash : Q) (ret_pct_on_notional : option Q) : Z :=
  let r_like := r_like_of pnl_cash ret_pct_on_notional in
  if Qle_bool 1 r_like then 1%Z
  else if Qle_bool r_like (-1) then 0%Z
  else if Qlt_bool 0 pnl_cash then 1%Z else 0%Z.

(** Class-imbalance weight used for the gradient steps. *)
Definition sample_weight_of (y : Z) (pos neg : Z) : Q :=
  let total := Z.max 1 (pos + neg) in
  let pos_ratio := inject_Z pos / inject_Z total in
  let neg_ratio := inject_Z neg / inject_Z total in
  let w0 := 1 in
  let w1 :=
    if ((y =? 1)%Z && Qlt_bool pos_ratio 0.35)%bool
    then Qmin 3 (0.35 / Qmax 0.000001 pos_ratio) else w0 in
  let w2 :=
    if ((y =? 0)%Z && Qlt_bool neg_ratio 0.35)%bool
    then Qmin 3 (0.35 / Qmax 0.000001 neg_ratio) else w1 in
  if (y =? 1)%Z then w2 * 2 else w2.

Definition record_close (cfg : Config) (which sym : string) (pnl_cash : Q)
    (ret_pct_on_notional : option Q) (ml : MLManager) : MLManager :=
  let Wn := normalize_source which in
  let S := upper sym in
  if negb (_ok ml Wn) then ml
  else
    let key := (Wn, S) in
    let x := open_feats ml !! key in
    let p := open_probs ml !! key in
    let feats' := delete key (open_feats ml) in
    let probs' := delete key (open_probs ml) in
    match x with
    | None =>
        {| threshold := threshold ml;
           model := model ml;
           recent :=
             deque_append 200 (recent ml)
               (0.5, if Qlt_bool 0 pnl_cash then 1%Z else 0%Z);
           open_feats := feats';
           open_probs := probs';
           pos_seen := pos_seen ml;
           neg_seen := neg_seen ml;
           train_sources := train_sources ml;
           train_after_seen := train_after_seen ml |}
    | Some x =>
        let y := label_of pnl_cash ret_pct_on_notional in
        let pos' := if (y =? 1)%Z then (pos_seen ml + 1)%Z else pos_seen ml in
        let neg' := if (y =? 1)%Z then neg_seen ml else (neg_seen ml + 1)%Z in
        let can_train :=
          (AI_ENABLE cfg && (train_after_seen ml <=? pos' + neg')%Z)%bool in
        let recent' :=
          match p with
          | Some pv => deque_append 200 (recent ml) (pv, y)
          | None => recent ml
          end in
        let w := sample_weight_of y pos' neg' in
        let model' :=
          if can_train
          then partial_fit x y w (partial_fit x y w (partial_fit x y w (model ml)))
          else model ml in
        {| threshold := threshold ml;
           model := model';
           recent := recent';
           open_feats := feats';
           open_probs := probs';
           pos_seen := pos';
           neg_seen := neg';
           train_sources := train_sources ml;
           train_after_seen := train_after_seen ml |}
    end.

(** [MLManager.__init__] with the module-level arguments. *)
Definition new_ml : MLManager := {|
  threshold := 0.55;
  model := {| fits := []; n_seen := 0 |};
  recent := [];
  open_feats := ∅;
  open_probs := ∅;
  pos_seen := 0;
  neg_seen := 0;
  train_sources := {["LIVE"]};
  train_after_seen := 80
|}.

(** ** Probability-scaled risk ([place_order_one], the block that turns the
    model probability into a per-trade risk percentage) *)

Definition use_ai_decision (cfg : Config) (ml : MLManager) : bool :=
  (AI_ENABLE cfg && (30 <=? n_seen (model ml))%Z
   && (AI_MIN_SEEN_FOR_ACTION cfg <=? pos_seen ml + neg_seen ml)%Z)%bool.

Inductive risk_decision :=
| FilteredByP
| PerTradeRisk (r : Q).

Definition gain_of (ml_p th : Q) : Q := (ml_p - th) / Qmax 0.000000001 (1 - th).

Definition per_trade_risk_of (cfg : Config) (ml : MLManager)
    (ml_p0 : option Q) : risk_decision :=
  let use_ai := use_ai_decision cfg ml in
  let ml_p := if use_ai then ml_p0 else None in
  match ml_p with
  | Some p =>
      let th := threshold ml in
      if Qle_bool p th then FilteredByP
      else
        PerTradeRisk
          (RISK_PER_TRADE_PCT cfg * (1 + Qmin 1 (1.5 * gain_of p th)))
  | None => PerTradeRisk (RISK_PER_TRADE_PCT cfg)
  end.

(** The scaling as the specification words it: proportional to the excess of
    the probability over the threshold, capped at 2.5 times the base. *)
Definition spec_scaled_risk (base ml_p th : Q) : Q :=
  base * Qmin 2.5 (1 + 1.5 * gain_of ml_p th).

(** ** Persisted simulated-account snapshot *)

Record AccountSnap := {
  snap_balance : Q;
  snap_daily_start_equity : Q;
  snap_daily_pnl : Q;
  snap_total_pnl : Q
}.

Record PosSnap := {
  snap_side : Side;
  snap_qty : Q;
  snap_entry : Q;
  snap_sl : option Q;
  snap_tp : option Q
}.

(** The JSON document written by [persist_sim_state].  Serialising and
    parsing it back is taken to be the identity on these values. *)
Record Snapshot := {
  snap_ver : Z;
  snap_ts : Z;
  snap_account : AccountSnap;
  snap_trades : list Trade;
  snap_positions : gmap string PosSnap;
  snap_interval : string
}.

(** ** Engine state *)

Record State := {
  ACCOUNT_LIVE : Account;
  ACCOUNT_SIM : Account;
  SYMAP : gmap string SymbolState;
  _TRAINED_POS_UIDS : gset string;
  _LAST_CLOSE_TS : gmap (string * string) Z;
  OPEN_INFLIGHT : gset string;
  ML : MLManager;
  _loss_streak_by_sym : gmap string Z;
  _suspend_until_ts_by_sym : gmap string Q;
  trades_csv : list (string * Trade);
  sim_state_file : option Snapshot;
  _last_state_save : Q;
  _SIM_STATE_DONE : bool
}.

Definition with_ACCOUNT_LIVE (a : Account) (s : State) : State :=
  {| ACCOUNT_LIVE := a; ACCOUNT_SIM := ACCOUNT_SIM s; SYMAP := SYMAP s;
     _TRAINED_POS_UIDS := _TRAINED_POS_UIDS s;
     _LAST_CLOSE_TS := _LAST_CLOSE_TS s; OPEN_INFLIGHT := OPEN_INFLIGHT s;
     ML := ML s; _loss_streak_by_sym := _loss_streak_by_sym s;
     _suspend_until_ts_by_sym := _suspend_until_ts_by_sym s;
     trades_csv := trades_csv s; sim_state_file := sim_state_file s;
     _last_state_save := _last_state_save s;
     _SIM_STATE_DONE := _SIM_STATE_DONE s |}.

Definition with_ACCOUNT_SIM (a : Account) (s : State) : State :=
  {| ACCOUNT_LIVE := ACCOUNT_LIVE s; ACCOUNT_SIM := a; SYMAP := SYMAP s;
     _TRAINED_POS_UIDS := _TRAINED_POS_UIDS s;
     _LAST_CLOSE_TS := _LAST_CLOSE_TS s; OPEN_INFLIGHT := OPEN_INFLIGHT s;
     ML := ML s; _loss_streak_by_sym := _loss_streak_by_sym s;
     _suspend_until_ts_by_sym := _suspend_until_ts_by_sym s;
     trades_csv := trades_csv s; sim_state_file := sim_state_file s;
     _last_state_save := _last_state_save s;
     _SIM_STATE_DONE := _SIM_STATE_DONE s |}.

Definition with_SYMAP (m : gmap string SymbolState) (s : State) : State :=
  {| ACCOUNT_LIVE := ACCOUNT_LIVE s; ACCOUNT_SIM := ACCOUNT_SIM s; SYMAP := m;
     _TRAINED_POS_UIDS := _TRAINED_POS_UIDS s;
     _LAST_CLOSE_TS := _LAST_CLOSE_TS s; OPEN_INFLIGHT := OPEN_INFLIGHT s;
     ML := ML s; _loss_streak_by_sym := _loss_streak_by_sym s;
     _suspend_until_ts_by_sym := _suspend_until_ts_by_sym s;
     trades_csv := trades_csv s; sim_state_file := sim_state_file s;
     _last_state_save := _last_state_save s;
     _SIM_STATE_DONE := _SIM_STATE_DONE s |}.

Definition with_TRAINED (u : gset string) (s : State) : State :=
  {| ACCOUNT_LIVE := ACCOUNT_LIVE s; ACCOUNT_SIM := ACCOUNT_SIM s;
     SYMAP := SYMAP s; _TRAINED_POS_UIDS := u;
     _LAST_CLOSE_TS := _LAST_CLOSE_TS s; OPEN_INFLIGHT := OPEN_INFLIGHT s;
     ML := ML s; _loss_streak_by_sym := _loss_streak_by_sym s;
     _suspend_until_ts_by_sym := _suspend_until_ts_by_sym s;
     trades_csv := trades_csv s; sim_state_file := sim_state_file s;
     _last_state_save := _last_state_save s;
     _SIM_STATE_DONE := _SIM_STATE_DONE s |}.

Definition with_LAST_CLOSE_TS (m : gmap (string * string) Z) (s : State)
    : State :=
  {| ACCOUNT_LIVE := ACCOUNT_LIVE s; ACCOUNT_SIM := ACCOUNT_SIM s;
     SYMAP := SYMAP s; _TRAINED_POS_UIDS := _TRAINED_POS_UIDS s;
     _LAST_CLOSE_TS := m; OPEN_INFLIGHT := OPEN_INFLIGHT s;
     ML := ML s; _loss_streak_by_sym := _loss_streak_by_sym s;
     _suspend_until_ts_by_sym := _suspend_until_ts_by_sym s;
     trades_csv := trades_csv s; sim_state_file := sim_state_file s;
     _last_state_save := _last_state_save s;
     _SIM_STATE_DONE := _SIM_STATE_DONE s |}.

Definition with_OPEN_INFLIGHT (g : gset string) (s : State) : State :=
  {| ACCOUNT_LIVE := ACCOUNT_LIVE s; ACCOUNT_SIM := ACCOUNT_SIM s;
     SYMAP := SYMAP s; _TRAINED_POS_UIDS := _TRAINED_POS_UIDS s;
     _LAST_CLOSE_TS := _LAST_CLOSE_TS s; OPEN_INFLIGHT := g;
     ML := ML s; _loss_streak_by_sym := _loss_streak_by_sym s;
     _suspend_until_ts_by_sym := _suspend_until_ts_by_sym s;
     trades_csv := trades_csv s; sim_state_file := sim_state_file s;
     _last_state_save := _last_state_save s;
     _SIM_STATE_DONE := _SIM_STATE_DONE s |}.

Definition with_ML (ml : MLManager) (s : State) : State :=
  {| ACCOUNT_LIVE := ACCOUNT_LIVE s; ACCOUNT_SIM := ACCOUNT_SIM s;
     SYMAP := SYMAP s; _TRAINED_POS_UIDS := _TRAINED_POS_UIDS s;
     _LAST_CLOSE_TS := _LAST_CLOSE_TS s; OPEN_INFLIGHT := OPEN_INFLIGHT s;
     ML := ml; _loss_streak_by_sym := _loss_streak_by_sym s;
     _suspend_until_ts_by_sym := _suspend_until_ts_by_sym s;
     trades_csv := trades_csv s; sim_state_file := sim_state_file s;
     _last_state_save := _last_state_save s;
     _SIM_STATE_DONE := _SIM_STATE_DONE s |}.

Definition with_loss_tables (streak : gmap string Z) (susp : gmap string Q)
    (s : State) : State :=
  {| ACCOUNT_LIVE := ACCOUNT_LIVE s; ACCOUNT_SIM := ACCOUNT_SIM s;
     SYMAP := SYMAP s; _TRAINED_POS_UIDS := _TRAINED_POS_UIDS s;
     _LAST_CLOSE_TS := _LAST_CLOSE_TS s; OPEN_INFLIGHT := OPEN_INFLIGHT s;
     ML := ML s; _loss_streak_by_sym := streak;
     _suspend_until_ts_by_sym := susp;
     trades_csv := trades_csv s; sim_state_file := sim_state_file s;
     _last_state_save := _last_state_save s;
     _SIM_STATE_DONE := _SIM_STATE_DONE s |}.

Definition with_trades_csv (rows : list (string * Trade)) (s : State) : State :=
  {| ACCOUNT_LIVE := ACCOUNT_LIVE s; ACCOUNT_SIM := ACCOUNT_SIM s;
     SYMAP := SYMAP s; _TRAINED_POS_UIDS := _TRAINED_POS_UIDS s;
     _LAST_CLOSE_TS := _LAST_CLOSE_TS s; OPEN_INFLIGHT := OPEN_INFLIGHT s;
     ML := ML s; _loss_streak_by_sym := _loss_streak_by_sym s;
     _suspend_until_ts_by_sym := _suspend_until_ts_by_sym s;
     trades_csv := rows; sim_state_file := sim_state_file s;
     _last_state_save := _last_state_save s;
     _SIM_STATE_DONE := _SIM_STATE_DONE s |}.

Definition with_sim_file (f : option Snapshot) (saved : Q) (s : State) : State :=
  {| ACCOUNT_LIVE := ACCOUNT_LIVE s; ACCOUNT_SIM := ACCOUNT_SIM s;
     SYMAP := SYMAP s; _TRAINED_POS_UIDS := _TRAINED_POS_UIDS s;
     _LAST_CLOSE_TS := _LAST_CLOSE_TS s; OPEN_INFLIGHT := OPEN_INFLIGHT s;
     ML := ML s; _loss_streak_by_sym := _loss_streak_by_sym s;
     _suspend_until_ts_by_sym := _suspend_until_ts_by_sym s;
     trades_csv := trades_csv s; sim_state_file := f;
     _last_state_save := saved;
     _SIM_STATE_DONE := _SIM_STATE_DONE s |}.

Definition with_SIM_STATE_DONE (b : bool) (s : State) : State :=
  {| ACCOUNT_LIVE := ACCOUNT_LIVE s; ACCOUNT_SIM := ACCOUNT_SIM s;
     SYMAP := SYMAP s; _TRAINED_POS_UIDS := _TRAINED_POS_UIDS s;
     _LAST_CLOSE_TS := _LAST_CLOSE_TS s; OPEN_INFLIGHT := OPEN_INFLIGHT s;
     ML := ML s; _loss_streak_by_sym := _loss_streak_by_sym s;
     _suspend_until_ts_by_sym := _suspend_until_ts_by_sym s;
     trades_csv := trades_csv s; sim_state_file := sim_state_file s;
     _last_state_save := _last_state_save s;
     _SIM_STATE_DONE := b |}.

(** State at process start: module-level initialisers, the symbol pool
    [syms], and whatever snapshot file is on disk. *)
Definition boot_state (syms : list string) (file : option Snapshot) : State := {|
  ACCOUNT_LIVE := new_account "LIVE";
  ACCOUNT_SIM := new_account "SIM";
  SYMAP := list_to_map ((fun s => (s, new_symbol_state s)) <$> syms);
  _TRAINED_POS_UIDS := ∅;
  _LAST_CLOSE_TS := ∅;
  OPEN_INFLIGHT := ∅;
  ML := new_ml;
  _loss_streak_by_sym := ∅;
  _suspend_until_ts_by_sym := ∅;
  trades_csv := [];
  sim_state_file := file;
  _last_state_save := 0;
  _SIM_STATE_DONE := false
|}.

Definition is_live (which : string) : bool := bool_decide (upper which = "LIVE").
Definition is_sim (which : string) : bool := bool_decide (upper which = "SIM").

Definition get_account (which : string) (s : State) : Account :=
  if is_live which then ACCOUNT_LIVE s else ACCOUNT_SIM s.

Definition set_account (which : string) (a : Account) (s : State) : State :=
  if is_live which then with_ACCOUNT_LIVE a s else with_ACCOUNT_SIM a s.

Definition _get_pos (st : SymbolState) (which : string) : option Position :=
  if is_live which then position_live st else position_sim st.

Definition _set_pos (st : SymbolState) (which : string)
    (pos : option Position) : SymbolState :=
  if is_live which then
    {| symbol := symbol st; last_price := last_price st;
       position_live := pos; position_sim := position_sim st;
       features_now := features_now st |}
  else
    {| symbol := symbol st; last_price := last_price st;
       position_live := position_live st; position_sim := pos;
       features_now := features_now st |}.

Definition compute_qty (cfg : Config) (entry0 sl0 : option Q) (which : string)
    (risk_pct_override : option Q) (s : State) : outcome Q :=
  compute_qty_on cfg entry0 sl0 which (_available (ACCOUNT_LIVE s))
    (balance (get_account which s)) risk_pct_override.

(** ** Persistence of the simulated account *)

(** [float(p.get(k, 0.0)) if p.get(k) else None]. *)
Definition keep_if_truthy (x : option Q) : option Q :=
  if truthy x then x else None.

Definition snapshot_position (p : Position) : PosSnap := {|
  snap_side := side p;
  snap_qty := qty p;
  snap_entry := entry p;
  snap_sl := keep_if_truthy (sl p);
  snap_tp := keep_if_truthy (tp p)
|}.

(** [l[-n:]] for a positive [n]. *)
Definition last_n {A} (n : nat) (l : list A) : list A := drop (length l - n) l.

(** [daily_start_equity or balance]. *)
Definition start_equity_or_balance (a : Account) : Q :=
  if truthy (daily_start_equity a)
  then float_or0 (daily_start_equity a) else balance a.

Definition snapshot_sim_state (cfg : Config) (ts : Z) (s : State) : Snapshot := {|
  snap_ver := 1;
  snap_ts := ts;
  snap_account := {|
    snap_balance := balance (ACCOUNT_SIM s);
    snap_daily_start_equity := start_equity_or_balance (ACCOUNT_SIM s);
    snap_daily_pnl := daily_pnl (ACCOUNT_SIM s);
    snap_total_pnl := total_pnl (ACCOUNT_SIM s)
  |};
  snap_trades := last_n 500 (trades (ACCOUNT_SIM s));
  snap_positions := omap (fun st => snapshot_position <$> position_sim st) (SYMAP s);
  snap_interval := INTERVAL cfg
|}.

(** [persist_sim_state].  [now] is [time.time()], [ts] its integer part as
    read inside the snapshot, and [io_ok] tells whether the temporary file
    was written and moved into place; on failure the exception is logged and
    nothing changes. *)
Definition persist_sim_state (cfg : Config) (force : bool) (now : Q) (ts : Z)
    (io_ok : bool) (s : State) : State :=
  if (negb force && Qlt_bool (now - _last_state_save s) (AUTOSAVE_SEC cfg))%bool
  then s
  else if io_ok
  then with_sim_file (Some (snapshot_sim_state cfg ts s)) now s
  else s.

Definition restored_position (p : PosSnap) : Position := {|
  side := snap_side p;
  qty := snap_qty p;
  entry := snap_entry p;
  sl := keep_if_truthy (snap_sl p);
  tp := keep_if_truthy (snap_tp p);
  trail := None;
  ml_feat := None;
  opened_ts := None;
  risk_R := None;
  pos_uid := None
|}.

(** The loop body of [restore_sim_state]: [_ensure_sym_exists(sym)] and the
    assignment to [st.position_sim]. *)
Definition restore_one (sym : string) (p : PosSnap)
    (m : gmap string SymbolState) : gmap string SymbolState :=
  let st := default (new_symbol_state sym) (m !! sym) in
  <[sym := _set_pos st "SIM" (Some (restored_position p))]> m.

Definition restore_positions (ps : gmap string PosSnap)
    (m : gmap string SymbolState) : gmap string SymbolState :=
  map_fold restore_one m ps.

Definition restore_sim_state (s : State) : State :=
  if _SIM_STATE_DONE s then s
  else
    match sim_state_file s with
    | None => with_SIM_STATE_DONE true s
    | Some data =>
        let acc := snap_account data in
        let a := ACCOUNT_SIM s in
        let a' := {|
          name := name a;
          balance := snap_balance acc;
          daily_start_equity := Some (snap_daily_start_equity acc);
          daily_pnl := snap_daily_pnl acc;
          total_pnl := snap_total_pnl acc;
          trades := snap_trades data;
          _available := _available a
        |} in
        with_SIM_STATE_DONE true
          (with_SYMAP (restore_positions (snap_positions data) (SYMAP s))
             (with_ACCOUNT_SIM a' s))
    end.

(** ** Close / settlement pipeline *)

(** What one call of [close_position_one] reads from outside. *)
Record CloseEnv := {
  now_ms : Z;               (* [utc_ms()] inside [_close_too_soon] *)
  rekey_ms : Z;             (* [utc_ms()] when the uid is re-keyed *)
  live_close : option Q;    (* fill price of the reduce-only close, 0 when the
                               answer has none; [None] when the call raised *)
  commission : option Q;    (* [fetch_commission_usdt]; [None] when it raised *)
  ts_str : string;          (* formatted wall-clock time of the trade row *)
  csv_ok : bool;            (* the CSV append went through *)
  persist_ok : bool;        (* the snapshot file was replaced *)
  persist_now : Q;          (* [time.time()] inside [persist_sim_state] *)
  persist_ts : Z;           (* [int(time.time())] inside the snapshot *)
  suspend_now : Q           (* [time.time()] of the loss-streak block *)
}.

Definition _close_too_soon (now : Z) (which sym : string) (min_ms : Z)
    (s : State) : bool * State :=
  let key := (upper which, upper sym) in
  let last := default 0%Z (_LAST_CLOSE_TS s !! key) in
  if (now - last <? min_ms)%Z then (true, s)
  else (false, with_LAST_CLOSE_TS (<[key := now]> (_LAST_CLOSE_TS s)) s).

(** [f"{which}:{symbol}:{p.get('entry')}:{p.get('qty')}"]. *)
Definition derived_uid (which sym : string) (p : Position) : string :=
  (which ++ ":" ++ sym ++ ":" ++ str_float (entry p) ++ ":"
     ++ str_float (qty p))%string.

(** [p.get("pos_uid") or derived]: a missing or empty uid is falsy. *)
Definition initial_uid (which sym : string) (p : Position) : string :=
  match pos_uid p with
  | Some u => if bool_decide (u = "") then derived_uid which sym p else u
  | None => derived_uid which sym p
  end.

Definition rekeyed_uid (which sym : string) (p : Position) (ms : Z) : string :=
  (derived_uid which sym p ++ ":" ++ str_int ms)%string.

Definition has_size (p : Position) : bool :=
  (Qlt_bool 0 (Qabs (qty p)) && Qlt_bool 0 (Qabs (entry p)))%bool.

Definition exit_price (which : string) (skip_exchange : bool) (env : CloseEnv)
    (px : Q) : Q :=
  if (is_live which && negb skip_exchange)%bool then
    match live_close env with
    | Some ap => if Qlt_bool 0 ap then ap else px
    | None => px
    end
  else px.

Definition sign_of (sd : Side) : Q :=
  match sd with LONG => 1 | SHORT => -1 end.

Definition gross_pnl_of (p : Position) (px : Q) : Q :=
  qty p * (px - entry p) * sign_of (side p).

Definition fee_usdt_of (cfg : Config) (which : string) (env : CloseEnv)
    (p : Position) : Q :=
  let est_fee_usdt := (TAKER_FEE_PCT cfg / 100) * (qty p * entry p * 2) in
  if is_live which then
    match commission env with
    | Some f => f
    | None => 0
    end
  else est_fee_usdt.

Definition net_pnl_of (cfg : Config) (which : string) (skip_exchange : bool)
    (env : CloseEnv) (p : Position) (px : Q) : Q :=
  gross_pnl_of p (exit_price which skip_exchange env px)
  - fee_usdt_of cfg which env p.

Definition net_pct_on_notional_of (net_pnl : Q) (p : Position) : Q :=
  let notional := qty p * entry p in
  if Qlt_bool 0 notional then net_pnl / notional * 100 else 0.

Definition trade_row (cfg : Config) (which sym reason : string)
    (skip_exchange : bool) (env : CloseEnv) (p : Position) (px : Q)
    (uid : string) : Trade :=
  let net_pnl := net_pnl_of cfg which skip_exchange env p px in
  {| t_ts := ts_str env;
     t_symbol := sym;
     t_side := side p;
     t_entry := py_round (entry p) 6;
     t_exit := py_round (exit_price which skip_exchange env px) 6;
     t_qty := py_round (qty p) 8;
     t_pnl_cash := py_round net_pnl 2;
     t_net_pct := py_round (net_pct_on_notional_of net_pnl p) 3;
     t_fee_usdt := py_round (fee_usdt_of cfg which env p) 6;
     t_risk_R := float_or0 (risk_R p);
     t_pos_uid := uid;
     t_reason := (reason ++ " (" ++ which ++ ")")%string |}.

(** The ledger update: [total_pnl] always, [balance] and [daily_pnl] for SIM,
    then the new row of [trades]. *)
Definition book_trade (which : string) (net_pnl : Q) (row : Trade)
    (acc : Account) : Account :=
  {| name := name acc;
     balance := if is_sim which then balance acc + net_pnl else balance acc;
     daily_start_equity := daily_start_equity acc;
     daily_pnl := if is_sim which then daily_pnl acc + net_pnl else daily_pnl acc;
     total_pnl := total_pnl acc + net_pnl;
     trades := trades acc ++ [row];
     _available := _available acc |}.

Definition append_csv (cfg : Config) (env : CloseEnv) (which : string)
    (row : Trade) (s : State) : State :=
  if (LOG_TRADES_ON cfg && csv_ok env)%bool
  then with_trades_csv (trades_csv s ++ [(which, row)]) s
  else s.

(** Recovery of a lost open-feature sample before the position is cleared. *)
Definition recover_open_feat (which : string) (st : SymbolState)
    (p : Position) (ml : MLManager) : MLManager :=
  let key := (upper which, symbol st) in
  match open_feats ml !! key with
  | Some _ => ml
  | None =>
      let feat :=
        match ml_feat p with
        | Some f => Some f
        | None => features_now st
        end in
      match feat with
      | Some f => record_open which (symbol st) (Some f) None ml
      | None => ml
      end
  end.

Definition track_loss_streak (cfg : Config) (env : CloseEnv) (sym : string)
    (net_pnl : Q) (s : State) : State :=
  if Qle_bool net_pnl 0 then
    let n := (default 0%Z (_loss_streak_by_sym s !! sym) + 1)%Z in
    let streak := <[sym := n]> (_loss_streak_by_sym s) in
    let susp :=
      if (LOSS_STREAK_LIMIT cfg <=? n)%Z
      then <[sym := suspend_now env + LOSS_SUSPEND_SECONDS cfg]>
             (_suspend_until_ts_by_sym s)
      else _suspend_until_ts_by_sym s in
    with_loss_tables streak susp s
  else
    with_loss_tables (<[sym := 0%Z]> (_loss_streak_by_sym s))
      (_suspend_until_ts_by_sym s) s.

(** Everything that follows the dedup block, for the position [p] read at
    the start of the call and the uid the call settles under. *)
Definition settle (cfg : Config) (env : CloseEnv) (sym reason : string)
    (px : Q) (which : string) (skip_exchange : bool) (st : SymbolState)
    (p : Position) (uid : string) (s : State) : State :=
  let net_pnl := net_pnl_of cfg which skip_exchange env p px in
  let net_pct := net_pct_on_notional_of net_pnl p in
  let row := trade_row cfg which sym reason skip_exchange env p px uid in
  let s1 := set_account which (book_trade which net_pnl row (get_account which s)) s in
  let s2 := append_csv cfg env which row s1 in
  let s3 := with_ML (recover_open_feat which st p (ML s2)) s2 in
  let s4 := with_SYMAP (<[sym := _set_pos st which None]> (SYMAP s3)) s3 in
  let s5 :=
    if is_live which
    then with_OPEN_INFLIGHT (OPEN_INFLIGHT s4 ∖ {[sym]}) s4 else s4 in
  let s6 :=
    with_ML (record_close cfg which (symbol st) net_pnl (Some (net_pct / 100))
               (ML s5)) s5 in
  let s7 :=
    if is_sim which
    then persist_sim_state cfg true (persist_now env) (persist_ts env)
           (persist_ok env) s6
    else s6 in
  track_loss_streak cfg env sym net_pnl s7.

Definition close_position_one (cfg : Config) (env : CloseEnv)
    (sym reason : string) (px : Q) (which : string) (skip_exchange : bool)
    (s : State) : outcome State :=
  match SYMAP s !! sym with
  | None => Raised KeyError
  | Some st =>
      let p := _get_pos st which in
      let '(too_soon, s1) := _close_too_soon (now_ms env) which sym 600 s in
      if too_soon then Returned s1
      else
        match p with
        | None => Returned s1
        | Some p =>
            let pos_uid0 := initial_uid which sym p in
            if bool_decide (pos_uid0 ∈ _TRAINED_POS_UIDS s1) then
              if has_size p then
                let uid := rekeyed_uid which sym p (rekey_ms env) in
                Returned
                  (settle cfg env sym reason px which skip_exchange st p uid
                     (with_TRAINED ({[uid]} ∪ _TRAINED_POS_UIDS s1) s1))
              else
                Returned
                  (with_SYMAP (<[sym := _set_pos st which None]> (SYMAP s1)) s1)
            else
              Returned
                (settle cfg env sym reason px which skip_exchange st p pos_uid0
                   (with_TRAINED ({[pos_uid0]} ∪ _TRAINED_POS_UIDS s1) s1))
        end
  end.

(** A close trigger: the arguments of one call together with what it reads. *)
Record CloseCall := {
  c_env : CloseEnv;
  c_reason : string;
  c_px : Q;
  c_skip_exchange : bool
}.

(** Successive close triggers for one [(which, sym)]. *)
Fixpoint run_closes (cfg : Config) (sym which : string)
    (calls : list CloseCall) (s : State) : outcome State :=
  match calls with
  | [] => Returned s
  | c :: rest =>
      s' <~ close_position_one cfg (c_env c) sym (c_reason c) (c_px c) which
              (c_skip_exchange c) s ;;
      run_closes cfg sym which rest s'
  end.

(** ** Reconciliation backoff ([sync_live_positions_periodic], up to the point
    where the exchange answer is in hand) *)

Record SyncState := {
  _last_pos_sync : Q;
  _NET_BACKOFF_UNTIL : Q;
  _NET_BACKOFF_STEP : Q
}.

Definition _NET_BACKOFF_MAX : Q := 5 * 60.

(** Module-level initial values. *)
Definition sync_init : SyncState := {|
  _last_pos_sync := 0;
  _NET_BACKOFF_UNTIL := 0;
  _NET_BACKOFF_STEP := 60
|}.

(** How the position request ended. *)
Inductive fetch_result :=
| FetchOk
| TransportFailure      (* [requests.exceptions.RequestException] *)
| OtherError.

(** What a call did. *)
Inductive sync_action :=
| Skipped               (* no credentials, inside a backoff window, or too early *)
| Reconciled            (* the request succeeded; the diff proceeds *)
| BackedOff (window : Q)  (* transport failure; [_NET_BACKOFF_UNTIL] is set
                             [window] seconds ahead of [now] *)
| Errored.

Definition sync_live_positions_periodic (cfg : Config) (now : Q)
    (res : fetch_result) (n : SyncState) : sync_action * SyncState :=
  if negb (live_credentials cfg) then (Skipped, n)
  else if Qlt_bool now (_NET_BACKOFF_UNTIL n) then (Skipped, n)
  else if Qlt_bool (now - _last_pos_sync n) (POS_SYNC_SECONDS cfg) then (Skipped, n)
  else
    match res with
    | FetchOk =>
        (Reconciled,
         {| _last_pos_sync := now;
            _NET_BACKOFF_UNTIL := 0;
            _NET_BACKOFF_STEP := 60 |})
    | TransportFailure =>
        (BackedOff (_NET_BACKOFF_STEP n),
         {| _last_pos_sync := now;
            _NET_BACKOFF_UNTIL := now + _NET_BACKOFF_STEP n;
            _NET_BACKOFF_STEP :=
              Qmin _NET_BACKOFF_MAX (_NET_BACKOFF_STEP n * 1.7) |})
    | OtherError =>
        (Errored,
         {| _last_pos_sync := now;
            _NET_BACKOFF_UNTIL := _NET_BACKOFF_UNTIL n;
            _NET_BACKOFF_STEP := _NET_BACKOFF_STEP n |})
    end.

(** A run of calls; returns the backoff windows entered, oldest first. *)
Fixpoint sync_run (cfg : Config) (events : list (Q * fetch_result))
    (n : SyncState) : list Q * SyncState :=
  match events with
  | [] => ([], n)
  | (now, res) :: rest =>
      let '(act, n1) := sync_live_positions_periodic cfg now res n in
      let '(ws, n2) := sync_run cfg rest n1 in
      (match act with BackedOff w => w :: ws | _ => ws end, n2)
  end.

(** ** The debounce table, by key *)

Definition close_key (which sym : string) : string * string :=
  (upper which, upper sym).

Definition last_close (which sym : string) (s : State) : Z :=
  default 0%Z (_LAST_CLOSE_TS s !! close_key which sym).

Definition stamp_close (now : Z) (which sym : string) (s : State) : State :=
  with_LAST_CLOSE_TS (<[close_key which sym := now]> (_LAST_CLOSE_TS s)) s.

(** The uid a call settles under: the position's own, or the re-keyed one
    when that is already in the dedup set. *)
Definition settle_uid (env : CloseEnv) (which sym : string) (p : Position)
    (s : State) : string :=
  if bool_decide (initial_uid which sym p ∈ _TRAINED_POS_UIDS s)
  then rekeyed_uid which sym p (rekey_ms env)
  else initial_uid which sym p.

(** The state in which a call that is neither debounced nor a no-op starts
    settling: debounce stamp set, uid registered. *)
Definition admitted_state (env : CloseEnv) (which sym : string) (p : Position)
    (s : State) : State :=
  with_TRAINED ({[settle_uid env which sym p s]} ∪ _TRAINED_POS_UIDS s)
    (stamp_close (now_ms env) which sym s).

(** ** Example inputs used by the concrete checks below *)

(** The shipped constants with the admission model switched on. *)
Definition ai_config : Config := {|
  POSITION_SIZING := RISK;
  ALLOC_PCT := 15;
  RISK_PER_TRADE_PCT := 2;
  LEVERAGE := 10;
  TAKER_FEE_PCT := 0.04;
  AI_ENABLE := true;
  AI_MIN_SEEN_FOR_ACTION := 80;
  LOG_TRADES_ON := true;
  LOSS_STREAK_LIMIT := 3;
  LOSS_SUSPEND_SECONDS := 14400;
  AUTOSAVE_SEC := 15;
  POS_SYNC_SECONDS := 5;
  INTERVAL := "1m";
  live_credentials := true
|}.

(** A manager that has seen 80 outcomes and whose model took 30 steps. *)
Definition trained_ml : MLManager := {|
  threshold := 0.55;
  model := {| fits := []; n_seen := 30 |};
  recent := [];
  open_feats := ∅;
  open_probs := ∅;
  pos_seen := 40;
  neg_seen := 40;
  train_sources := {["LIVE"]};
  train_after_seen := 80
|}.

Definition example_feat : Feat := [0.5; 0; 0; 0.01; 0; 0; 0; 0].

(** A manager holding the open-feature sample of a LIVE position. *)
Definition ml_with_open_sample : MLManager :=
  record_open "LIVE" "BTCUSDT" (Some example_feat) None new_ml.

(** [b ** k] for a natural exponent. *)
Fixpoint pow_nat (b : Q) (k : nat) : Q :=
  match k with
  | O => 1
  | S k' => b * pow_nat b k'
  end.

(** Three transport failures, spaced so that each request is really sent. *)
Definition three_failures : list (Q * fetch_result) :=
  [(10, TransportFailure); (100, TransportFailure); (300, TransportFailure)].

(** A simulated long position of one unit opened at 100. *)
Definition example_pos : Position := {|
  side := LONG;
  qty := 1;
  entry := 100;
  sl := Some 98;
  tp := Some 104;
  trail := None;
  ml_feat := None;
  opened_ts := Some 1699999000000%Z;
  risk_R := Some 2;
  pos_uid := Some "SIM:BTCUSDT:1699999000000:ab12cd34"
|}.

(** What a call at clock reading [now] (in ms) sees when every outside
    interaction succeeds. *)
Definition example_env (now : Z) : CloseEnv := {|
  now_ms := now;
  rekey_ms := now;
  live_close := Some 0;
  commission := Some 0;
  ts_str := "2024-01-01 00:00:00";
  csv_ok := true;
  persist_ok := true;
  persist_now := inject_Z now / 1000;
  persist_ts := (now / 1000)%Z;
  suspend_now := inject_Z now / 1000
|}.

(** [_local_open] reduced to its effect on the position slot. *)
Definition open_example_position (s : State) : State :=
  with_SYMAP
    (<["BTCUSDT" := _set_pos (new_symbol_state "BTCUSDT") "SIM" (Some example_pos)]>
       (SYMAP s)) s.

(** One tracked symbol, nothing open. *)
Definition flat_state : State := boot_state ["BTCUSDT"] None.

(** The example position is open and its uid is already in the dedup set. *)
Definition dup_state : State :=
  with_TRAINED {["SIM:BTCUSDT:1699999000000:ab12cd34"]}
    (open_example_position flat_state).

(** The example position as the only open one. *)
Definition open_state : State := open_example_position flat_state.

(** The symbol state that holds it. *)
Definition open_symbol_state : SymbolState :=
  _set_pos (new_symbol_state "BTCUSDT") "SIM" (Some example_pos).

(** Two more triggers, 200 ms and 550 ms after a first one at [t0]. *)
Definition repeat_calls (t0 : Z) : list CloseCall :=
  [ {| c_env := example_env (t0 + 200); c_reason := "SL hit";
       c_px := 109; c_skip_exchange := false |};
    {| c_env := example_env (t0 + 550); c_reason := "AI exit (real-time)";
       c_px := 108; c_skip_exchange := false |} ].

(** A live long position carrying its open-feature sample. *)
Definition example_live_pos : Position := {|
  side := LONG;
  qty := 1;
  entry := 100;
  sl := Some 98;
  tp := Some 104;
  trail := None;
  ml_feat := Some example_feat;
  opened_ts := None;
  risk_R := Some 2;
  pos_uid := Some "LIVE:BTCUSDT:1699999000000:ab12cd34"
|}.

Definition live_symbol_state : SymbolState :=
  _set_pos (new_symbol_state "BTCUSDT") "LIVE" (Some example_live_pos).

(** The live position is open and its uid is already in the dedup set. *)
Definition dup_live_state : State :=
  with_TRAINED {["LIVE:BTCUSDT:1699999000000:ab12cd34"]}
    (with_SYMAP (<["BTCUSDT" := live_symbol_state]> (SYMAP flat_state))
       flat_state).

(** A leftover position dictionary without size whose uid is in the set. *)
Definition sizeless_pos : Position := {|
  side := LONG;
  qty := 0;
  entry := 100;
  sl := None;
  tp := None;
  trail := None;
  ml_feat := None;
  opened_ts := None;
  risk_R := None;
  pos_uid := Some "SIM:BTCUSDT:1699999000000:ab12cd34"
|}.

Definition sizeless_symbol_state : SymbolState :=
  _set_pos (new_symbol_state "BTCUSDT") "SIM" (Some sizeless_pos).

Definition dup_sizeless_state : State :=
  with_TRAINED {["SIM:BTCUSDT:1699999000000:ab12cd34"]}
    (with_SYMAP (<["BTCUSDT" := sizeless_symbol_state]> (SYMAP flat_state))
       flat_state).

(** ** Views used to state the persistence round trip *)

(** The simulated position of a symbol, if any. *)
Definition sim_position (s : State) (sym : string) : option Position :=
  SYMAP s !! sym ≫= position_sim.

(** A fresh process started on the files the old one left: every module-level
    object is re-initialised, the snapshot file is what it was. *)
Definition restart (syms : list string) (s : State) : State :=
  boot_state syms (sim_state_file s).

(** The example position with the stop at zero. *)
Definition zero_stop_pos : Position := {|
  side := LONG;
  qty := 1;
  entry := 100;
  sl := Some 0;
  tp := Some 104;
  trail := None;
  ml_feat := None;
  opened_ts := None;
  risk_R := None;
  pos_uid := None
|}.

Definition zero_stop_state : State :=
  with_SYMAP
    (<["BTCUSDT" := _set_pos (new_symbol_state "BTCUSDT") "SIM" (Some zero_stop_pos)]>
       (SYMAP flat_state))
    (with_ACCOUNT_SIM
       {| name := "SIM"; balance := 10000; daily_start_equity := Some 10000;
          daily_pnl := 0; total_pnl := 0; trades := []; _available := None |}
       flat_state).

(** Persist the state (forced, write succeeds), restart, restore. *)
Definition persist_restart_restore (cfg : Config) (syms : list string)
    (s : State) : State :=
  restore_sim_state
    (restart syms (persist_sim_state cfg true 1700000000 1700000000 true s)).

(** * Further parts of the engine *)

(** ** Price alignment *)

(** [_round_price_to_tick]: truncate [price / tick] toward zero and, when
    [direction > 0] and the price is not on the grid, step one tick up. *)
Definition _round_price_to_tick (price tick : Q) (direction : Z) : outcome Q :=
  if Qeq_bool tick 0 then Raised DecimalDivisionByZero
  else
    let steps := round_down (price / tick) in
    let steps' :=
      if ((0 <? direction)%Z && negb (Qeq_bool price (inject_Z steps * tick)))%bool
      then (steps + 1)%Z else steps in
    Returned (inject_Z steps' * tick).

(** [max(tick * 12.0, entry * 0.0015)]. *)
Definition min_gap_of (entry tick : Q) : Q := Qmax (tick * 12) (entry * 0.0015).

Definition _apply_min_gap (entry price tick : Q) (is_above : bool) : Q :=
  let min_gap := min_gap_of entry tick in
  if is_above then
    if Qle_bool price (entry + min_gap) then entry + min_gap else price
  else
    if Qle_bool (entry - min_gap) price then entry - min_gap else price.

Definition _reaffirm_after_tick (entry price tick : Q) (is_above : bool)
    : outcome Q :=
  let min_gap := min_gap_of entry tick in
  if is_above then
    _round_price_to_tick
      (if Qlt_bool (price - entry) min_gap then entry + min_gap else price)
      tick 1
  else
    _round_price_to_tick
      (if Qlt_bool (entry - price) min_gap then entry - min_gap else price)
      tick (-1).

(** [_ticks_between]. *)
Definition _ticks_between (a b tick : Q) : Q :=
  Qabs (a - b) / Qmax tick 0.000000000001.

(** The re-alignment block of [place_order_one]: minimum gap, tick rounding
    and the final ordering repair.  Returns [(tp, sl)]. *)
Definition align_exits (sd : Side) (entry sl0 tp0 tick : Q) : outcome (Q * Q) :=
  match sd with
  | LONG =>
      let tp1 := _apply_min_gap entry tp0 tick true in
      let sl1 := _apply_min_gap entry sl0 tick false in
      tp2a <~ _reaffirm_after_tick entry tp1 tick true ;;
      tp2 <~ _round_price_to_tick tp2a tick 1 ;;
      sl2a <~ _reaffirm_after_tick entry sl1 tick false ;;
      sl2 <~ _round_price_to_tick sl2a tick (-1) ;;
      if (Qlt_bool entry tp2 && Qlt_bool sl2 entry)%bool then Returned (tp2, sl2)
      else
        tp3 <~ _round_price_to_tick (Qmax tp2 (entry + tick)) tick 1 ;;
        sl3 <~ _round_price_to_tick (Qmin sl2 (entry - tick)) tick (-1) ;;
        Returned (tp3, sl3)
  | SHORT =>
      let tp1 := _apply_min_gap entry tp0 tick false in
      let sl1 := _apply_min_gap entry sl0 tick true in
      tp2a <~ _reaffirm_after_tick entry tp1 tick false ;;
      tp2 <~ _round_price_to_tick tp2a tick (-1) ;;
      sl2a <~ _reaffirm_after_tick entry sl1 tick true ;;
      sl2 <~ _round_price_to_tick sl2a tick 1 ;;
      if (Qlt_bool tp2 entry && Qlt_bool entry sl2)%bool then Returned (tp2, sl2)
      else
        tp3 <~ _round_price_to_tick (Qmin tp2 (entry - tick)) tick (-1) ;;
        sl3 <~ _round_price_to_tick (Qmax sl2 (entry + tick)) tick 1 ;;
        Returned (tp3, sl3)
  end.

(** ** Exit levels *)



(** [tp_sl_by_margin]; returns [(tp, sl)]. *)
Definition tp_sl_by_margin (entry : Q) (sd : Side)
    (tp_margin_pct sl_margin_pct lev : Q) : outcome (Q * Q) :=
  a <~ py_div tp_margin_pct lev ;;
  b <~ py_div sl_margin_pct lev ;;
  let tp_dist := entry * a in
  let sl_dist := entry * b in
  match sd with
  | LONG => Returned (entry + tp_dist, entry - sl_dist)
  | SHORT => Returned (entry - tp_dist, entry + sl_dist)
  end.




(** A candle, as far as the ATR reads it. *)
Record Candle := {
  k_high : Q;
  k_low : Q;
  k_close : Q
}.

Definition _true_range (prev_close high low : Q) : Q :=
  Qmax (Qmax (high - low) (Qabs (high - prev_close))) (Qabs (low - prev_close)).

(** The list [trs] of [atr_wilder]: one true range per candle after the
    first. *)
Fixpoint true_ranges (candles : list Candle) : list Q :=
  match candles with
  | c0 :: rest =>
      match rest with
      | c1 :: _ => _true_range (k_close c0) (k_high c1) (k_low c1) :: true_ranges rest
      | [] => []
      end
  | [] => []
  end.

Definition qsum (l : list Q) : Q := fold_left Qplus l 0.

(** One Wilder smoothing step. *)
Definition wilder_step (n : nat) (atr tr : Q) : Q :=
  (atr * (inject_Z (Z.of_nat n) - 1) + tr) / inject_Z (Z.of_nat n).

(** [atr_wilder]: [None] when there are fewer than [n + 1] candles. *)
Definition atr_wilder (candles : list Candle) (n : nat) : outcome (option Q) :=
  if (length candles <? n + 1)%nat then Returned None
  else
    let trs := true_ranges candles in
    init <~ py_div (qsum (take n trs)) (inject_Z (Z.of_nat n)) ;;
    Returned (Some (fold_left (wilder_step n) (drop n trs) init)).


(** Four candles with true ranges 2, 3 and 1. *)
Definition example_candles : list Candle :=
  [ {| k_high := 101; k_low := 99; k_close := 100 |};
    {| k_high := 102; k_low := 100; k_close := 101 |};
    {| k_high := 104; k_low := 101; k_close := 103 |};
    {| k_high := 103; k_low := 102; k_close := 102.5 |} ].

(** ** Admission gate *)

(** An entry of [_SYMBOL_RULES_CACHE]. *)
Record SymbolRules := {
  stepSize : Q;
  minQty : Q;
  tickSize : Q;
  minNotional : option Q
}.

Inductive gate_reason :=
| PriceOrderInvalid
| NoAvailableMargin
| QtyPreviewZero
| QtyBelowMin
| NotionalBelowMin
| GateError.          (* any exception inside the gate *)

Inductive gate_result :=
| GateOk (entry sl tp : Q)
| GateReject (why : gate_reason).

(** [except Exception] around the body of the gate. *)
Definition gate_try (m : outcome gate_result) : gate_result :=
  match m with
  | Returned r => r
  | Raised _ => GateReject GateError
  end.

(** [pre_trade_gate].  [rules] is what [_get_symbol_rules(symbol)] returns,
    [None] when it raises. *)
Definition pre_trade_gate (cfg : Config) (rules : option SymbolRules)
    (sd : Side) (entry sl tp : Q) (which : string) (s : State) : gate_result :=
  match rules with
  | None => GateReject GateError
  | Some ru =>
      let tick := tickSize ru in
      let step := stepSize ru in
      let min_qty := minQty ru in
      let min_notional := float_or0 (minNotional ru) in
      let ordered :=
        match sd with
        | LONG => (Qlt_bool entry tp && Qlt_bool sl entry)%bool
        | SHORT => (Qlt_bool tp entry && Qlt_bool entry sl)%bool
        end in
      if negb ordered then GateReject PriceOrderInvalid
      else
        let avail_margin :=
          avail_margin_of which (_available (ACCOUNT_LIVE s))
            (balance (get_account which s)) in
        if Qle_bool avail_margin 0 then GateReject NoAvailableMargin
        else
          gate_try
            (q <~ compute_qty cfg (Some entry) (Some sl) which None s ;;
             qty_preview <~ _floor_to_step q step ;;
             if Qle_bool qty_preview 0 then Returned (GateReject QtyPreviewZero)
             else if Qlt_bool qty_preview min_qty
             then Returned (GateReject QtyBelowMin)
             else if (negb (Qeq_bool min_notional 0)
                      && Qlt_bool (qty_preview * entry) min_notional)%bool
             then Returned (GateReject NotionalBelowMin)
             else
               tp_aligned <~ _round_price_to_tick tp tick
                               (match sd with LONG => 1 | SHORT => -1 end) ;;
               sl_aligned <~ _round_price_to_tick sl tick
                               (match sd with LONG => -1 | SHORT => 1 end) ;;
               Returned (GateOk entry sl_aligned tp_aligned))
  end.

(** Rules of a contract quoted to the cent and traded in thousandths. *)
Definition example_rules : SymbolRules := {|
  stepSize := 0.001;
  minQty := 0.001;
  tickSize := 0.01;
  minNotional := Some 5
|}.


(** ** The admission model's sample table *)

(** The key under which [record_open] and [record_close] file a sample. *)
Definition ml_key (which sym : string) : string * string :=
  (normalize_source which, upper sym).

(** Whether [record_close] runs the gradient steps once the sample count has
    reached [seen]. *)
Definition can_train_at (cfg : Config) (ml : MLManager) (seen : Z) : bool :=
  (AI_ENABLE cfg && (train_after_seen ml <=? seen)%Z)%bool.

(** The trained manager holding the sample and the probability of a LIVE
    position opened from the first panel. *)
Definition trained_ml_with_sample : MLManager :=
  record_open "Pos1" "btcusdt" (Some example_feat) (Some 0.7) trained_ml.

(** ** The per-symbol loss-streak guard *)

(** [_can_trade_symbol] of [generate_signal]; [now] is [time.time()]. *)
Definition _can_trade_symbol (now : Q) (sym : string) (s : State) : bool :=
  let until_ts := default 0 (_suspend_until_ts_by_sym s !! sym) in
  negb (Qlt_bool now until_ts).

Definition loss_streak (sym : string) (s : State) : Z :=
  default 0%Z (_loss_streak_by_sym s !! sym).

(** The example position open after two losing trades on its symbol. *)
Definition two_losses_state : State :=
  with_loss_tables {["BTCUSDT" := 2%Z]} ∅ open_state.

(** The features a settlement hands to the model: the sample on file for the
    position, else the features stored in the position, else the features
    of the current symbol state. *)
Definition close_sample (which : string) (st : SymbolState) (p : Position)
    (ml : MLManager) : option Feat :=
  match open_feats ml !! (upper which, symbol st) with
  | Some f => Some f
  | None =>
      match ml_feat p with
      | Some f => Some f
      | None => features_now st
      end
  end.

(** The example live position open, with the symbol marked in flight. *)
Definition live_inflight_state : State :=
  with_OPEN_INFLIGHT {["BTCUSDT"]}
    (with_SYMAP
       (<["BTCUSDT" := _set_pos (new_symbol_state "BTCUSDT") "LIVE"
                         (Some example_live_pos)]> (SYMAP flat_state))
       flat_state).

(** ** Trailing stop of the simulated account *)

Record TrailConfig := {
  TRAIL_ENABLE : bool;
  TRAIL_R_MULT_TRIGGER : Q;
  TRAIL_STEP_ATR : Q
}.

(** The module-level values. *)
Definition default_trail_config : TrailConfig := {|
  TRAIL_ENABLE := true;
  TRAIL_R_MULT_TRIGGER := 1;
  TRAIL_STEP_ATR := 0.75
|}.

(** [p["sl"] = float(new_sl)]. *)
Definition with_sl (new_sl : Q) (p : Position) : Position := {|
  side := side p;
  qty := qty p;
  entry := entry p;
  sl := Some new_sl;
  tp := tp p;
  trail := trail p;
  ml_feat := ml_feat p;
  opened_ts := opened_ts p;
  risk_R := risk_R p;
  pos_uid := pos_uid p
|}.

(** The stop the trailing rule asks for before alignment: break-even once
    the move reaches the trigger multiple of [R], an ATR trail from [2R]. *)
Definition trail_candidate (tc : TrailConfig) (sd : Side)
    (entry cur_sl px atr_val : Q) : Q :=
  let R := Qabs (entry - cur_sl) in
  let move := (px - entry) * sign_of sd in
  if Qle_bool (TRAIL_R_MULT_TRIGGER tc * R) move then
    match sd with
    | LONG =>
        let new_sl := Qmax cur_sl entry in
        if Qle_bool (2 * R) move
        then Qmax new_sl (px - TRAIL_STEP_ATR tc * atr_val) else new_sl
    | SHORT =>
        let new_sl := Qmin cur_sl entry in
        if Qle_bool (2 * R) move
        then Qmin new_sl (px + TRAIL_STEP_ATR tc * atr_val) else new_sl
    end
  else cur_sl.

(** Whether [new_sl] is strictly tighter than [cur_sl]. *)
Definition tighter (sd : Side) (cur_sl new_sl : Q) : bool :=
  match sd with
  | LONG => Qlt_bool cur_sl new_sl
  | SHORT => Qlt_bool new_sl cur_sl
  end.

(** Alignment to the tick grid, at least one tick away from the price. *)
Definition trail_align (sd : Side) (new_sl px tick : Q) : outcome Q :=
  if Qlt_bool 0 tick then
    match sd with
    | LONG =>
        n <~ _round_price_to_tick new_sl tick (-1) ;;
        if Qle_bool (px - tick) n
        then _round_price_to_tick (px - tick) tick (-1) else Returned n
    | SHORT =>
        n <~ _round_price_to_tick new_sl tick 1 ;;
        if Qle_bool n (px + tick)
        then _round_price_to_tick (px + tick) tick 1 else Returned n
    end
  else Returned new_sl.

(** [_update_sim_trailing].  [candles] is [st.candles]; [rules] is what
    [_get_symbol_rules(st.symbol)] returns, [None] when it raises (the tick
    is then taken as 0). *)
Definition _update_sim_trailing (tc : TrailConfig) (which : string)
    (candles : list Candle) (rules : option SymbolRules)
    (st : SymbolState) : outcome SymbolState :=
  if (negb (is_sim which) || negb (TRAIL_ENABLE tc))%bool then Returned st
  else
    match _get_pos st which, last_price st with
    | Some p, Some px =>
        let cur_sl := float_or0 (sl p) in
        if Qeq_bool cur_sl 0 then Returned st
        else
          a <~ atr_wilder candles 14 ;;
          match a with
          | None => Returned st
          | Some atr_val =>
              if Qle_bool atr_val 0 then Returned st
              else if Qle_bool (Qabs (entry p - cur_sl)) 0 then Returned st
              else
                let new_sl :=
                  trail_candidate tc (side p) (entry p) cur_sl px atr_val in
                if negb (tighter (side p) cur_sl new_sl) then Returned st
                else
                  let tick :=
                    match rules with
                    | Some r => tickSize r
                    | None => 0
                    end in
                  n <~ trail_align (side p) new_sl px tick ;;
                  if negb (tighter (side p) cur_sl n) then Returned st
                  else Returned (_set_pos st which (Some (with_sl n p)))
          end
    | _, _ => Returned st
    end.

(** The stop test of [_check_tp_sl_and_close_if_hit]: which level, if any,
    the price [px] has reached.  A missing or zero level is never hit. *)
Inductive exit_tag := TagSL | TagTP.

Definition tp_sl_hit (p : Position) (px : Q) : option (exit_tag * Q) :=
  let tpv := float_or0 (tp p) in
  let slv := float_or0 (sl p) in
  match side p with
  | LONG =>
      if (negb (Qeq_bool slv 0) && Qle_bool px slv)%bool then Some (TagSL, slv)
      else if (negb (Qeq_bool tpv 0) && Qle_bool tpv px)%bool then Some (TagTP, tpv)
      else None
  | SHORT =>
      if (negb (Qeq_bool slv 0) && Qle_bool slv px)%bool then Some (TagSL, slv)
      else if (negb (Qeq_bool tpv 0) && Qle_bool px tpv)%bool then Some (TagTP, tpv)
      else None
  end.

(** Fifteen identical candles: every true range is 1. *)
Definition steady_candles : list Candle :=
  replicate 15 {| k_high := 101; k_low := 100; k_close := 100.5 |}.

(** The example position, simulated, with the last price at [px]. *)
Definition priced_symbol_state (px : Q) : SymbolState := {|
  symbol := "BTCUSDT";
  last_price := Some px;
  position_live := None;
  position_sim := Some example_pos;
  features_now := None
|}.

(** ** Admission of a new order *)

Record OrderConfig := {
  EXECUTION_MODE : string;
  SHOW_ACCOUNT : string;
  MAX_CONCURRENT_POS : Z;
  ONE_POS_PER_SYMBOL : bool;
  DAILY_TARGET_PCT : Q;
  DAILY_MAX_LOSS_PCT : Q
}.

(** The module-level values. *)
Definition default_order_config : OrderConfig := {|
  EXECUTION_MODE := "BOTH";
  SHOW_ACCOUNT := "LIVE";
  MAX_CONCURRENT_POS := 3;
  ONE_POS_PER_SYMBOL := true;
  DAILY_TARGET_PCT := 0.2;
  DAILY_MAX_LOSS_PCT := 0.1
|}.

(** [can_trade_now], without the reason text. *)
Definition can_trade_now (oc : OrderConfig) (which : string) (s : State) : bool :=
  let acc := get_account which s in
  let base := start_equity_or_balance acc in
  if Qle_bool (base * DAILY_TARGET_PCT oc) (daily_pnl acc) then false
  else if Qle_bool (daily_pnl acc) (- base * DAILY_MAX_LOSS_PCT oc) then false
  else true.

(** [pos_count_active]: [syms] is the module-level list [SYMBOLS]; a symbol
    of the list that [SYMAP] does not hold raises [KeyError]. *)
Fixpoint pos_count_active (syms : list string) (which : string) (s : State)
    : outcome Z :=
  match syms with
  | [] => Returned 0%Z
  | sym :: rest =>
      match SYMAP s !! sym with
      | None => Raised KeyError
      | Some st =>
          n <~ pos_count_active rest which s ;;
          Returned (match _get_pos st which with
                    | Some _ => (n + 1)%Z
                    | None => n
                    end)
      end
  end.

Definition pos_count_including_inflight (syms : list string) (which : string)
    (s : State) : outcome Z :=
  cnt <~ pos_count_active syms which s ;;
  Returned (if is_live which
            then (cnt + Z.of_nat (size (OPEN_INFLIGHT s)))%Z else cnt).

Definition symbol_is_blocked (sym which : string) (s : State) : bool :=
  match SYMAP s !! sym with
  | None => false
  | Some st =>
      let has_pos := bool_decide (is_Some (_get_pos st which)) in
      let in_flight := bool_decide (sym ∈ OPEN_INFLIGHT s) in
      (has_pos || in_flight)%bool
  end.

Inductive admission := Blocked | MaxReached | Granted.

Definition mode_has_live (oc : OrderConfig) : bool :=
  let mode := upper (EXECUTION_MODE oc) in
  (bool_decide (mode = "LIVE") || bool_decide (mode = "BOTH"))%bool.

Definition mode_has_sim (oc : OrderConfig) : bool :=
  let mode := upper (EXECUTION_MODE oc) in
  (bool_decide (mode = "SIM") || bool_decide (mode = "BOTH"))%bool.

(** The slot check at the head of [place_order], on the state the
    reconciliation call left: refuse a blocked symbol, refuse when the slots
    are used up, otherwise mark the symbol in flight when a LIVE order is to
    be placed. *)
Definition place_order_admission (oc : OrderConfig) (syms : list string)
    (sym : string) (s : State) : outcome (admission * State) :=
  if (ONE_POS_PER_SYMBOL oc && symbol_is_blocked sym (SHOW_ACCOUNT oc) s)%bool
  then Returned (Blocked, s)
  else
    full <~ (if (MAX_CONCURRENT_POS oc =? 0)%Z then Returned false
             else
               cnt <~ pos_count_including_inflight syms (SHOW_ACCOUNT oc) s ;;
               Returned (MAX_CONCURRENT_POS oc <=? cnt)%Z) ;;
    if (full : bool) then Returned (MaxReached, s)
    else if mode_has_live oc
    then Returned (Granted,
                   with_OPEN_INFLIGHT ({[sym]} ∪ OPEN_INFLIGHT s) s)
    else Returned (Granted, s).

(** [close_position]: the LIVE side first, then the simulated one. *)
Definition close_position (oc : OrderConfig) (cfg : Config)
    (env_live env_sim : CloseEnv) (sym reason : string) (px : Q)
    (s : State) : outcome State :=
  s1 <~ (if mode_has_live oc
         then close_position_one cfg env_live sym reason px "LIVE" false s
         else Returned s) ;;
  if mode_has_sim oc
  then close_position_one cfg env_sim sym reason px "SIM" false s1
  else Returned s1.

(** The flat state after the slot check has marked the symbol in flight. *)
Definition reserved_state : State :=
  with_OPEN_INFLIGHT ({["BTCUSDT"]} ∪ OPEN_INFLIGHT flat_state) flat_state.

(** The example positions open on both accounts. *)
Definition both_symbol_state : SymbolState := {|
  symbol := "BTCUSDT";
  last_price := None;
  position_live := Some example_live_pos;
  position_sim := Some example_pos;
  features_now := None
|}.

Definition both_open_state : State :=
  with_SYMAP (<["BTCUSDT" := both_symbol_state]> (SYMAP flat_state)) flat_state.

(** ** Backtest statistics *)

Fixpoint equity_from (cur : Q) (trades : list Trade) : list Q :=
  match trades with
  | [] => []
  | tr :: rest =>
      (cur + t_pnl_cash tr) :: equity_from (cur + t_pnl_cash tr) rest
  end.

Definition _trade_list_to_equity_curve (start_equity : Q)
    (trades : list Trade) : list Q :=
  start_equity :: equity_from start_equity trades.

(** One turn of the loop of [_max_drawdown] on the pair [(peak, mdd)]. *)
Definition drawdown_step (acc : Q * Q) (x : Q) : Q * Q :=
  let peak := if Qlt_bool (fst acc) x then x else fst acc in
  let dd := if Qlt_bool 0 peak then (peak - x) / peak else 0 in
  (peak, Qmax (snd acc) dd).

Definition _max_drawdown (equity_curve : list Q) : Q :=
  let peak := match equity_curve with x :: _ => x | [] => 0 end in
  snd (fold_left drawdown_step equity_curve (peak, 0)).

(** One turn of the loop of [_loss_streak_stats] on [(max_ls, cur)]. *)
Definition streak_step (acc : Z * Z) (tr : Trade) : Z * Z :=
  if Qle_bool (t_pnl_cash tr) 0
  then (Z.max (fst acc) (snd acc + 1), (snd acc + 1)%Z)
  else (fst acc, 0%Z).

Definition _loss_streak_stats (trades : list Trade) : Z :=
  fst (fold_left streak_step trades (0%Z, 0%Z)).

(** [_fee_ratio]: [fee_sum] is initialised and never added to. *)
Definition _fee_ratio (trades : list Trade) : Q :=
  let fee_sum := 0 in
  let pnl_gross_sum :=
    fold_left
      (fun acc tr =>
         acc + Qabs (Qabs (t_exit tr - t_entry tr) * sign_of (t_side tr)))
      trades 0 in
  if Qle_bool pnl_gross_sum 0 then 0
  else Qmax 0 (Qmin 1 (fee_sum / pnl_gross_sum)).

(** A ledger row that carries only a result. *)
Definition result_row (pnl : Q) : Trade := {|
  t_ts := ""; t_symbol := "BTCUSDT"; t_side := LONG; t_entry := 100;
  t_exit := 100 + pnl; t_qty := 1; t_pnl_cash := pnl; t_net_pct := pnl;
  t_fee_usdt := 0; t_risk_R := 0; t_pos_uid := ""; t_reason := ""
|}.

(** A trade that [_loss_streak_stats] counts as a loss. *)
Definition is_loss (tr : Trade) : Prop := t_pnl_cash tr <= 0.

(** ** Indicators *)

(** The loop body of [rsi_calc] on [(gains, losses)]. *)
Definition rsi_step (acc : Q * Q) (diff : Q) : Q * Q :=
  if Qle_bool 0 diff then (fst acc + diff, snd acc)
  else (fst acc, snd acc - diff).

(** [closes[i] - closes[i-1]] for the last [n] indices. *)
Definition last_diffs (closes : list Q) (n : nat) : list Q :=
  let window := last_n (n + 1) closes in
  zip_with (fun prev cur => cur - prev) window (tail window).

(** [rsi_calc]; [length] is the look-back, 14 by default. *)
Definition rsi_calc (closes : list Q) (length : nat) : outcome (option Q) :=
  if (List.length closes <? length + 1)%nat then Returned None
  else
    let gl := fold_left rsi_step (last_diffs closes length) (0, 0) in
    let n := inject_Z (Z.of_nat length) in
    avg_gain <~ py_div (fst gl) n ;;
    avg_loss <~ (if Qlt_bool 0 (snd gl) then py_div (snd gl) n
                 else Returned 0.000000001) ;;
    rs <~ py_div avg_gain avg_loss ;;
    d <~ py_div 100 (1 + rs) ;;
    Returned (Some (100 - d)).

(** [ema]: the first value seeds the average. *)
Definition ema (prev : option Q) (price : Q) (length : Z) : outcome Q :=
  match prev with
  | None => Returned price
  | Some pv =>
      k <~ py_div 2 (inject_Z (length + 1)) ;;
      Returned (price * k + pv * (1 - k))
  end.

(** ** Reconciliation with the exchange, symbol by symbol *)

(** An entry of [on_exch]. *)
Record ExchPos := {
  x_amt : Q;
  x_entry : Q;
  x_mark : Q
}.

(** What the loop body reads from outside for one symbol. *)
Record SyncEnv := {
  sync_close : CloseEnv;         (* for the close it may trigger *)
  sync_uid : string;             (* the uid built from [utc_ms()] and [uuid4] *)
  sync_ms : Z;                   (* [utc_ms()] stored as [opened_ts] *)
  sync_fallback : option Feat    (* the clipped fallback features, [None] when
                                    computing them raised *)
}.

Definition side_eqb (a b : Side) : bool :=
  match a, b with
  | LONG, LONG | SHORT, SHORT => true
  | _, _ => false
  end.

(** [{"side": side, "qty": qty, "entry": entry, "trail": None}] after
    [setdefault("pos_uid", ...)]. *)
Definition synced_position (sd : Side) (q e : Q) (uid : string) : Position := {|
  side := sd; qty := q; entry := e; sl := None; tp := None; trail := None;
  ml_feat := None; opened_ts := None; risk_R := None; pos_uid := Some uid
|}.

Definition with_feat (f : Feat) (ms : Z) (p : Position) : Position := {|
  side := side p; qty := qty p; entry := entry p; sl := sl p; tp := tp p;
  trail := trail p; ml_feat := Some f;
  opened_ts := match opened_ts p with Some t => Some t | None => Some ms end;
  risk_R := risk_R p; pos_uid := pos_uid p
|}.

(** Whether the local position differs from what the exchange reports. *)
Definition differs (p : Position) (sd : Side) (q e : Q) : bool :=
  (negb (side_eqb (side p) sd)
   || Qlt_bool 0.000000001 (Qabs (qty p - q))
   || Qlt_bool 0.000000001 (Qabs (entry p - e)))%bool.

Definition set_live_position (sym : string) (st : SymbolState) (p : Position)
    (s : State) : State :=
  with_SYMAP (<[sym := _set_pos st "LIVE" (Some p)]> (SYMAP s)) s.

(** The branch that writes the exchange position into the local book and
    registers an open-feature sample for it when none is on file. *)
Definition adopt_exchange_position (senv : SyncEnv) (sym : string)
    (st : SymbolState) (sd : Side) (q e : Q) (s : State) : State :=
  let p0 := synced_position sd q e (sync_uid senv) in
  if bool_decide (is_Some (open_feats (ML s) !! ("LIVE", sym)))
  then set_live_position sym st p0 s
  else
    let feat :=
      match features_now st with
      | Some f => Some f
      | None => sync_fallback senv
      end in
    match feat with
    | Some f =>
        set_live_position sym st (with_feat f (sync_ms senv) p0)
          (with_ML (record_open "LIVE" sym (Some f) None (ML s)) s)
    | None => set_live_position sym st p0 s
    end.

(** The body of the loop over [to_check] in [sync_live_positions_periodic];
    [exch] is [on_exch.get(sym)]. *)
Definition reconcile_symbol (cfg : Config) (senv : SyncEnv) (sym : string)
    (exch : option ExchPos) (s : State) : outcome State :=
  match SYMAP s !! sym with
  | None => Returned s
  | Some st =>
      let lp := float_or0 (last_price st) in
      let ex := default {| x_amt := 0; x_entry := 0; x_mark := lp |} exch in
      let amt := x_amt ex in
      let mark := if Qeq_bool (x_mark ex) 0 then lp else x_mark ex in
      if Qle_bool (Qabs amt) 0 then
        match position_live st with
        | Some p =>
            let px := if Qlt_bool 0 mark then mark else entry p in
            close_position_one cfg (sync_close senv) sym
              "Exchange TP/SL filled" px "LIVE" true s
        | None => Returned s
        end
      else
        let sd := if Qlt_bool 0 amt then LONG else SHORT in
        let q := Qabs amt in
        let e := x_entry ex in
        let changed :=
          match position_live st with
          | None => true
          | Some p => differs p sd q e
          end in
        let s1 :=
          if changed then adopt_exchange_position senv sym st sd q e s
          else s in
        Returned (with_OPEN_INFLIGHT (OPEN_INFLIGHT s1 ∖ {[sym]}) s1)
  end.
(** * Properties *)

(** ** Boolean tests on rationals *)

Lemma Qlt_bool_true (a b : Q) : Qlt_bool a b = true <-> a < b.
Proof.
  unfold Qlt_bool. rewrite negb_true_iff.
  destruct (Qle_bool b a) eqn:E.
  - apply Qle_bool_iff in E. split; [discriminate | intros H; lra].
  - split; [intros _ | reflexivity].
    apply Qnot_le_lt. intros H. apply Qle_bool_iff in H. congruence.
Qed.

Lemma Qlt_bool_false (a b : Q) : Qlt_bool a b = false <-> b <= a.
Proof.
  unfold Qlt_bool. rewrite negb_false_iff. apply Qle_bool_iff.
Qed.

Lemma Qle_bool_false (a b : Q) : Qle_bool a b = false <-> b < a.
Proof.
  rewrite <- Qlt_bool_true. unfold Qlt_bool.
  destruct (Qle_bool a b); simpl; intuition congruence.
Qed.

Lemma Qeq_bool_false (a b : Q) : Qeq_bool a b = false <-> ~ a == b.
Proof.
  split.
  - intros E H. apply Qeq_bool_iff in H. congruence.
  - intros H. destruct (Qeq_bool a b) eqn:E; [|reflexivity].
    apply Qeq_bool_iff in E. contradiction.
Qed.

Lemma Qmax_ge_r (a b : Q) : b <= Qmax a b.
Proof. apply Q.le_max_r. Qed.

Lemma Qmin_cases (a b : Q) :
  (a <= b /\ Qmin a b == a) \/ (b <= a /\ Qmin a b == b).
Proof.
  destruct (Q.min_spec a b) as [[H E] | [H E]].
  - left. split; [lra | exact E].
  - right. split; [exact H | exact E].
Qed.

(** ** Rounding toward zero *)

Lemma round_down_nonneg (x : Q) :
  0 <= x -> 0 <= inject_Z (round_down x) /\ inject_Z (round_down x) <= x.
Proof.
  destruct x as [n d]. unfold round_down, Qle, inject_Z. simpl.
  intros H.
  assert (Hn : (0 <= n)%Z) by lia.
  pose proof (Z.mul_quot_le n (Z.pos d) Hn ltac:(lia)) as [H1 H2].
  pose proof (Z.quot_pos n (Z.pos d) Hn ltac:(lia)).
  split; lia.
Qed.

Lemma round_down_nonpos (x : Q) :
  x <= 0 -> x <= inject_Z (round_down x) /\ inject_Z (round_down x) <= 0.
Proof.
  destruct x as [n d]. unfold round_down, Qle, inject_Z. simpl.
  intros H.
  assert (Hn : (n <= 0)%Z) by lia.
  pose proof (Z.mul_quot_ge n (Z.pos d) Hn ltac:(lia)) as [H1 H2].
  split; [lia |].
  assert ((n ÷ Z.pos d <= 0)%Z); [| lia].
  destruct (Z.le_gt_cases (n ÷ Z.pos d) 0) as [|Hpos]; [assumption |].
  exfalso. nia.
Qed.

(** The step-floor of a non-negative amount lies between zero and the
    amount, whatever the sign of the (non-zero) step. *)
Lemma floor_to_step_le (v s : Q) :
  0 <= v -> ~ s == 0 ->
  exists r, _floor_to_step v s = Returned r /\ 0 <= r /\ r <= v.
Proof.
  intros Hv Hs. unfold _floor_to_step.
  apply Qeq_bool_false in Hs as Hb. rewrite Hb.
  eexists. split; [reflexivity |].
  set (x := v / s).
  assert (Hx : x * s == v) by (unfold x; field; exact Hs).
  destruct (Qlt_le_dec 0 s) as [Hpos | Hneg].
  - assert (0 <= x).
    { unfold x. apply Qle_shift_div_l; [exact Hpos | lra]. }
    destruct (round_down_nonneg x H) as [H1 H2]. split; nra.
  - assert (Hlt : s < 0).
    { destruct (Qle_lt_or_eq _ _ Hneg) as [|E]; [assumption | contradiction]. }
    assert (x <= 0).
    { assert (0 <= v / (- s)).
      { apply Qle_shift_div_l; lra. }
      assert (v / (- s) == - x) by (unfold x; field; exact Hs).
      lra. }
    destruct (round_down_nonpos x H) as [H1 H2]. split; nra.
Qed.

(** ** Sizing *)

Lemma py_div_nonzero (a b : Q) : ~ b == 0 -> py_div a b = Returned (a / b).
Proof.
  intros H. unfold py_div. apply Qeq_bool_false in H. now rewrite H.
Qed.

(** [compute_qty] always returns, and what it returns is never negative. *)
Lemma compute_qty_on_total (cfg : Config) (entry0 sl0 : option Q)
    (which : string) (la : option Q) (bal : Q) (ovr : option Q) :
  exists q, compute_qty_on cfg entry0 sl0 which la bal ovr = Returned q
            /\ 0 <= q.
Proof.
  unfold compute_qty_on.
  destruct (Qle_bool (float_or0 entry0) 0) eqn:He.
  { exists 0. split; [reflexivity | lra]. }
  apply Qle_bool_false in He.
  assert (Hne : ~ float_or0 entry0 == 0) by lra.
  destruct (POSITION_SIZING cfg).
  - rewrite (py_div_nonzero _ _ Hne). simpl.
    eexists. split; [reflexivity | apply Qmax_ge_r].
  - destruct (Qle_bool (Qabs (float_or0 entry0 - float_or0 sl0)) 0) eqn:Hd.
    { exists 0. split; [reflexivity | lra]. }
    apply Qle_bool_false in Hd.
    assert (Hdne : ~ Qabs (float_or0 entry0 - float_or0 sl0) == 0) by lra.
    rewrite (py_div_nonzero _ _ Hdne). simpl.
    rewrite (py_div_nonzero _ _ Hne). simpl.
    eexists. split; [reflexivity | apply Qmax_ge_r].
Qed.

(** C10: [compute_qty] is total and non-negative.  For every configuration,
    entry, stop, account selector, optional risk override and engine state it
    returns a quantity [q >= 0] (no exception escapes, in particular no
    division by zero); [q] is exactly [0] when [entry <= 0], and, in risk
    mode, when [|entry - stop| = 0]. *)
Theorem C10_compute_qty_total_nonneg (cfg : Config) (entry0 sl0 : option Q)
    (which : string) (risk_pct_override : option Q) (s : State) :
  exists q,
    compute_qty cfg entry0 sl0 which risk_pct_override s = Returned q
    /\ 0 <= q
    /\ (float_or0 entry0 <= 0 -> q = 0)
    /\ (POSITION_SIZING cfg = RISK ->
        Qabs (float_or0 entry0 - float_or0 sl0) == 0 -> q = 0).
Proof.
  unfold compute_qty.
  destruct (compute_qty_on_total cfg entry0 sl0 which
              (_available (ACCOUNT_LIVE s)) (balance (get_account which s))
              risk_pct_override) as (q & Hq & Hpos).
  exists q. split; [exact Hq |]. split; [exact Hpos |].
  unfold compute_qty_on in Hq. split.
  - intros Hle. apply Qle_bool_iff in Hle. rewrite Hle in Hq. congruence.
  - intros Hmode Hdist.
    destruct (Qle_bool (float_or0 entry0) 0); [congruence |].
    rewrite Hmode in Hq.
    assert (Hb : Qle_bool (Qabs (float_or0 entry0 - float_or0 sl0)) 0 = true).
    { apply Qle_bool_iff. lra. }
    rewrite Hb in Hq. congruence.
Qed.

(** C4: the worked sizing example.  With the shipped constants (risk mode,
    riskPct 2, leverage 10) and a balance of 10000 as available margin,
    entry 100 and stop 98 give a risk budget of 200, a notional of
    200*100/2 = 10000 below the margin cap 10000*10*0.95 = 95000, and the
    quantity 100; flooring 100.004 to the step 0.01 gives 100.00; and the
    step-floor of any non-negative quantity [v] is never above [v]. *)
Theorem C4_sizing_example_and_step_floor (v step : Q)
    (Hv : 0 <= v) (Hstep : ~ step == 0) :
  risk_cap_of 10000 (RISK_PER_TRADE_PCT default_config) == 200
  /\ (exists n, py_div (200 * 100) (Qabs (100 - 98)) = Returned n /\ n == 10000)
  /\ max_notional_by_margin_of default_config 10000 == 95000
  /\ (forall which la, avail_margin_of which la 10000 = 10000 ->
        exists q, compute_qty_on default_config (Some 100) (Some 98) which la
                    10000 None = Returned q /\ q == 100)
  /\ (exists q, compute_qty default_config (Some 100) (Some 98) "SIM" None
                  (boot_state [] None) = Returned q /\ q == 100)
  /\ (exists r, _floor_to_step 100.004 0.01 = Returned r /\ r == 100)
  /\ (exists r, _floor_to_step v step = Returned r /\ 0 <= r /\ r <= v).
Proof.
  split; [reflexivity |].
  split; [eexists; split; reflexivity |].
  split; [reflexivity |].
  split.
  { intros which la Hm. unfold compute_qty_on. rewrite Hm.
    eexists. split; reflexivity. }
  split; [eexists; split; reflexivity |].
  split; [eexists; split; reflexivity |].
  apply floor_to_step_le; assumption.
Qed.

Lemma C4_witness :
  risk_cap_of 10000 (RISK_PER_TRADE_PCT default_config) == 200
  /\ (exists n, py_div (200 * 100) (Qabs (100 - 98)) = Returned n /\ n == 10000)
  /\ max_notional_by_margin_of default_config 10000 == 95000
  /\ (forall which la, avail_margin_of which la 10000 = 10000 ->
        exists q, compute_qty_on default_config (Some 100) (Some 98) which la
                    10000 None = Returned q /\ q == 100)
  /\ (exists q, compute_qty default_config (Some 100) (Some 98) "SIM" None
                  (boot_state [] None) = Returned q /\ q == 100)
  /\ (exists r, _floor_to_step 100.004 0.01 = Returned r /\ r == 100)
  /\ (exists r, _floor_to_step 100.004 0.01 = Returned r /\ 0 <= r /\ r <= 100.004).
Proof.
  apply (C4_sizing_example_and_step_floor 100.004 0.01).
  - unfold Qle. simpl. lia.
  - intros H. unfold Qeq in H. simpl in H. lia.
Defined.

(** ** Probability-scaled risk *)

Lemma gain_pos (p th : Q) : th < p -> 0 < gain_of p th.
Proof.
  intros H. unfold gain_of.
  assert (0 < Qmax 0.000000001 (1 - th)).
  { pose proof (Q.le_max_l 0.000000001 (1 - th)). lra. }
  apply Qlt_shift_div_l; [assumption | lra].
Qed.

Lemma per_trade_risk_scaled (cfg : Config) (ml : MLManager) (p : Q) :
  use_ai_decision cfg ml = true -> threshold ml < p ->
  per_trade_risk_of cfg ml (Some p)
  = PerTradeRisk
      (RISK_PER_TRADE_PCT cfg * (1 + Qmin 1 (1.5 * gain_of p (threshold ml)))).
Proof.
  intros Hai Hp. unfold per_trade_risk_of. rewrite Hai.
  apply Qle_bool_false in Hp. now rewrite Hp.
Qed.

Lemma gain_mono (p p' th : Q) : p <= p' -> gain_of p th <= gain_of p' th.
Proof.
  intros H. unfold gain_of, Qdiv.
  assert (0 < Qmax 0.000000001 (1 - th)).
  { pose proof (Q.le_max_l 0.000000001 (1 - th)). lra. }
  apply Qmult_le_compat_r; [lra |].
  apply Qlt_le_weak, Qinv_lt_0_compat. assumption.
Qed.

Lemma scale_bounds (g : Q) :
  0 < g -> 0 < Qmin 1 (1.5 * g) /\ Qmin 1 (1.5 * g) <= 1.
Proof.
  intros Hg. destruct (Qmin_cases 1 (1.5 * g)) as [[H E] | [H E]]; lra.
Qed.

Lemma scale_mono (g g' : Q) : g <= g' -> Qmin 1 (1.5 * g) <= Qmin 1 (1.5 * g').
Proof.
  intros H.
  destruct (Qmin_cases 1 (1.5 * g)) as [[H1 E1] | [H1 E1]];
    destruct (Qmin_cases 1 (1.5 * g')) as [[H2 E2] | [H2 E2]]; lra.
Qed.

(** C3 (as amended): with the model enabled and sufficiently trained and a
    probability [p] above the threshold, the per-trade risk percentage is
    [base * (1 + min(1, 1.5 * gain))] with
    [gain = (p - th) / max(1e-9, 1 - th)]: it is never below the base, it
    grows with the excess of [p] over the threshold, and it is capped at
    2 times the base, a cap that is reached as soon as [1.5 * gain >= 1]. *)
Theorem C3_risk_scales_up_capped_at_twice_base (cfg : Config)
    (ml : MLManager) (p : Q)
    (Hbase : 0 <= RISK_PER_TRADE_PCT cfg)
    (Hai : use_ai_decision cfg ml = true)
    (Hp : threshold ml < p) :
  exists r,
    per_trade_risk_of cfg ml (Some p) = PerTradeRisk r
    /\ r = RISK_PER_TRADE_PCT cfg
           * (1 + Qmin 1 (1.5 * gain_of p (threshold ml)))
    /\ RISK_PER_TRADE_PCT cfg <= r
    /\ r <= 2 * RISK_PER_TRADE_PCT cfg
    /\ (1 <= 1.5 * gain_of p (threshold ml) ->
        r == 2 * RISK_PER_TRADE_PCT cfg)
    /\ (forall p' r', p <= p' ->
          per_trade_risk_of cfg ml (Some p') = PerTradeRisk r' -> r <= r').
Proof.
  eexists. split; [apply per_trade_risk_scaled; assumption |].
  split; [reflexivity |].
  pose proof (gain_pos p (threshold ml) Hp) as Hg.
  pose proof (scale_bounds _ Hg) as [Hlo Hhi].
  split; [nra |]. split; [nra |]. split.
  - intros Hsat.
    destruct (Qmin_cases 1 (1.5 * gain_of p (threshold ml))) as [[H E] | [H E]].
    + rewrite E. ring.
    + rewrite E. assert (1.5 * gain_of p (threshold ml) == 1) as -> by lra. ring.
  - intros p' r' Hpp' Hr'.
    rewrite per_trade_risk_scaled in Hr' by (assumption || lra).
    injection Hr' as <-.
    pose proof (scale_mono _ _ (gain_mono p p' (threshold ml) Hpp')).
    nra.
Qed.

Lemma C3_witness :
  exists r,
    per_trade_risk_of ai_config trained_ml (Some 0.7) = PerTradeRisk r
    /\ r = RISK_PER_TRADE_PCT ai_config
           * (1 + Qmin 1 (1.5 * gain_of 0.7 (threshold trained_ml)))
    /\ RISK_PER_TRADE_PCT ai_config <= r
    /\ r <= 2 * RISK_PER_TRADE_PCT ai_config
    /\ (1 <= 1.5 * gain_of 0.7 (threshold trained_ml) ->
        r == 2 * RISK_PER_TRADE_PCT ai_config)
    /\ (forall p' r', 0.7 <= p' ->
          per_trade_risk_of ai_config trained_ml (Some p') = PerTradeRisk r' ->
          r <= r').
Proof.
  apply (C3_risk_scales_up_capped_at_twice_base ai_config trained_ml 0.7).
  - unfold Qle. simpl. lia.
  - reflexivity.
  - unfold Qlt. simpl. lia.
Defined.

(** C3, the claim as worded fails: at the largest probability [p = 1] and the
    shipped threshold 0.55 the code sizes with 2 times the base (4), whereas
    proportional scaling capped at 2.5 times the base gives 5. *)
Lemma C3_counterexample_cap_is_twice_base :
  use_ai_decision ai_config trained_ml = true
  /\ exists r,
       per_trade_risk_of ai_config trained_ml (Some 1) = PerTradeRisk r
       /\ r == 4
       /\ spec_scaled_risk (RISK_PER_TRADE_PCT ai_config) 1
            (threshold trained_ml) == 5
       /\ r < spec_scaled_risk (RISK_PER_TRADE_PCT ai_config) 1
                (threshold trained_ml).
Proof.
  split; [reflexivity |].
  eexists. split; [reflexivity |].
  split; [reflexivity |]. split; [reflexivity |]. reflexivity.
Qed.

(** ** Training label *)

Lemma label_positive (pnl ret : Q) :
  1 <= ret / 0.0012 -> label_of pnl (Some ret) = 1%Z.
Proof.
  intros H. unfold label_of, r_like_of.
  apply Qle_bool_iff in H. now rewrite H.
Qed.

Lemma label_negative (pnl ret : Q) :
  ret / 0.0012 <= -1 -> label_of pnl (Some ret) = 0%Z.
Proof.
  intros H. unfold label_of, r_like_of.
  assert (H1 : Qle_bool 1 (ret / 0.0012) = false) by (apply Qle_bool_false; lra).
  rewrite H1. apply Qle_bool_iff in H. now rewrite H.
Qed.

Lemma label_by_pnl_sign (pnl ret : Q) :
  -1 < ret / 0.0012 -> ret / 0.0012 < 1 ->
  label_of pnl (Some ret) = if Qlt_bool 0 pnl then 1%Z else 0%Z.
Proof.
  intros Hlo Hhi. unfold label_of, r_like_of.
  apply Qle_bool_false in Hlo, Hhi. now rewrite Hhi, Hlo.
Qed.

(** C9: when a settlement outcome with a net-percent value [ret] reaches the
    labelling step of [record_close] (the source is a training source and an
    open-feature sample is registered), the label is computed from the
    R-multiple [r = ret / 0.0012]: positive (1) when [r >= 1], negative (0)
    when [r <= -1], and otherwise positive exactly when the cash PnL is
    positive; that label is the one counted and trained on. *)
Theorem C9_label_from_r_multiple (cfg : Config) (which sym : string)
    (pnl ret : Q) (ml : MLManager) (x : Feat)
    (Hsrc : _ok ml (normalize_source which) = true)
    (Hx : open_feats ml !! (normalize_source which, upper sym) = Some x) :
  r_like_of pnl (Some ret) = ret / 0.0012
  /\ (1 <= ret / 0.0012 -> label_of pnl (Some ret) = 1%Z)
  /\ (ret / 0.0012 <= -1 -> label_of pnl (Some ret) = 0%Z)
  /\ (-1 < ret / 0.0012 -> ret / 0.0012 < 1 ->
      (0 < pnl -> label_of pnl (Some ret) = 1%Z)
      /\ (pnl <= 0 -> label_of pnl (Some ret) = 0%Z))
  /\ (label_of pnl (Some ret) = 1%Z \/ label_of pnl (Some ret) = 0%Z)
  /\ (label_of pnl (Some ret) = 1%Z ->
      pos_seen (record_close cfg which sym pnl (Some ret) ml)
        = (pos_seen ml + 1)%Z
      /\ neg_seen (record_close cfg which sym pnl (Some ret) ml) = neg_seen ml)
  /\ (label_of pnl (Some ret) = 0%Z ->
      pos_seen (record_close cfg which sym pnl (Some ret) ml) = pos_seen ml
      /\ neg_seen (record_close cfg which sym pnl (Some ret) ml)
         = (neg_seen ml + 1)%Z)
  /\ (forall s, In s (fits (model (record_close cfg which sym pnl (Some ret) ml))) ->
        In s (fits (model ml))
        \/ exists w, s = (x, label_of pnl (Some ret), w)).
Proof.
  split; [reflexivity |].
  split; [apply label_positive |].
  split; [apply label_negative |].
  split.
  { intros Hlo Hhi. rewrite (label_by_pnl_sign pnl ret Hlo Hhi). split.
    - intros H. apply Qlt_bool_true in H. now rewrite H.
    - intros H. apply Qlt_bool_false in H. now rewrite H. }
  split.
  { unfold label_of. repeat destruct (Qle_bool _ _); try destruct (Qlt_bool _ _); auto. }
  unfold record_close. rewrite Hsrc, Hx. simpl.
  split; [intros ->; simpl; auto |].
  split; [intros ->; simpl; auto |].
  intros s.
  destruct (AI_ENABLE cfg && _)%bool; simpl; [| auto].
  rewrite !in_app_iff. simpl.
  intros [[[H | [H | []]] | [H | []]] | [H | []]]; eauto.
Qed.

Lemma C9_witness :
  r_like_of 12 (Some 0.003) = 0.003 / 0.0012
  /\ (1 <= 0.003 / 0.0012 -> label_of 12 (Some 0.003) = 1%Z)
  /\ (0.003 / 0.0012 <= -1 -> label_of 12 (Some 0.003) = 0%Z)
  /\ (-1 < 0.003 / 0.0012 -> 0.003 / 0.0012 < 1 ->
      (0 < 12 -> label_of 12 (Some 0.003) = 1%Z)
      /\ (12 <= 0 -> label_of 12 (Some 0.003) = 0%Z))
  /\ (label_of 12 (Some 0.003) = 1%Z \/ label_of 12 (Some 0.003) = 0%Z)
  /\ (label_of 12 (Some 0.003) = 1%Z ->
      pos_seen (record_close ai_config "LIVE" "BTCUSDT" 12 (Some 0.003)
                  ml_with_open_sample)
        = (pos_seen ml_with_open_sample + 1)%Z
      /\ neg_seen (record_close ai_config "LIVE" "BTCUSDT" 12 (Some 0.003)
                     ml_with_open_sample)
         = neg_seen ml_with_open_sample)
  /\ (label_of 12 (Some 0.003) = 0%Z ->
      pos_seen (record_close ai_config "LIVE" "BTCUSDT" 12 (Some 0.003)
                  ml_with_open_sample)
        = pos_seen ml_with_open_sample
      /\ neg_seen (record_close ai_config "LIVE" "BTCUSDT" 12 (Some 0.003)
                     ml_with_open_sample)
         = (neg_seen ml_with_open_sample + 1)%Z)
  /\ (forall s,
        In s (fits (model (record_close ai_config "LIVE" "BTCUSDT" 12
                             (Some 0.003) ml_with_open_sample))) ->
        In s (fits (model ml_with_open_sample))
        \/ exists w, s = (example_feat, label_of 12 (Some 0.003), w)).
Proof.
  apply (C9_label_from_r_multiple ai_config "LIVE" "BTCUSDT" 12 0.003
           ml_with_open_sample example_feat).
  - vm_compute. reflexivity.
  - vm_compute. reflexivity.
Defined.

(** The three label regimes on concrete outcomes. *)
Example label_examples :
  label_of 5 (Some 0.002) = 1%Z          (* r = 1.67 *)
  /\ label_of 5 (Some (-0.002)) = 0%Z     (* r = -1.67, although PnL > 0 *)
  /\ label_of 5 (Some 0.0006) = 1%Z       (* r = 0.5, PnL > 0 *)
  /\ label_of (-5) (Some 0.0006) = 0%Z    (* r = 0.5, PnL < 0 *)
  /\ label_of 0 (Some 0) = 0%Z.
Proof. repeat split. Qed.

(** ** Reconciliation backoff *)

Lemma pow_nat_ge_1 (k : nat) : 1 <= pow_nat 1.7 k.
Proof. induction k as [|k IH]; simpl; [lra | nra]. Qed.

Lemma pow_nat_mono (i j : nat) : (i <= j)%nat -> pow_nat 1.7 i <= pow_nat 1.7 j.
Proof.
  induction 1 as [|j _ IH]; [lra |].
  simpl. pose proof (pow_nat_ge_1 j). nra.
Qed.

(** What a single call does to the backoff step. *)
Lemma sync_step_cases (cfg : Config) (now : Q) (res : fetch_result)
    (n : SyncState) :
  let r := sync_live_positions_periodic cfg now res n in
  (exists w, fst r = BackedOff w /\ res = TransportFailure
             /\ w = _NET_BACKOFF_STEP n
             /\ _NET_BACKOFF_UNTIL (snd r) = now + w
             /\ _NET_BACKOFF_STEP (snd r)
                = Qmin _NET_BACKOFF_MAX (_NET_BACKOFF_STEP n * 1.7))
  \/ (fst r = Reconciled /\ res = FetchOk
      /\ _NET_BACKOFF_UNTIL (snd r) = 0 /\ _NET_BACKOFF_STEP (snd r) = 60)
  \/ ((fst r = Skipped \/ fst r = Errored)
      /\ _NET_BACKOFF_STEP (snd r) = _NET_BACKOFF_STEP n
      /\ _NET_BACKOFF_UNTIL (snd r) = _NET_BACKOFF_UNTIL n).
Proof.
  unfold sync_live_positions_periodic.
  destruct (negb (live_credentials cfg)); [right; right; simpl; auto |].
  destruct (Qlt_bool now (_NET_BACKOFF_UNTIL n)); [right; right; simpl; auto |].
  destruct (Qlt_bool _ (POS_SYNC_SECONDS cfg)); [right; right; simpl; auto |].
  destruct res; simpl.
  - right; left; auto.
  - left. eexists. repeat split; reflexivity.
  - right; right; auto.
Qed.

(** A request that is really sent and fails on transport opens a window of
    the current step and multiplies the step by 1.7, up to the maximum. *)
Lemma sync_transport_failure (cfg : Config) (now : Q) (n : SyncState) :
  live_credentials cfg = true ->
  _NET_BACKOFF_UNTIL n <= now ->
  POS_SYNC_SECONDS cfg <= now - _last_pos_sync n ->
  sync_live_positions_periodic cfg now TransportFailure n
  = (BackedOff (_NET_BACKOFF_STEP n),
     {| _last_pos_sync := now;
        _NET_BACKOFF_UNTIL := now + _NET_BACKOFF_STEP n;
        _NET_BACKOFF_STEP := Qmin _NET_BACKOFF_MAX (_NET_BACKOFF_STEP n * 1.7) |}).
Proof.
  intros Hc Hu Hl. unfold sync_live_positions_periodic. rewrite Hc. simpl.
  apply Qlt_bool_false in Hu, Hl. now rewrite Hu, Hl.
Qed.

Lemma next_step_bounds (s : Q) :
  60 <= s -> s <= 300 ->
  60 <= Qmin _NET_BACKOFF_MAX (s * 1.7)
  /\ Qmin _NET_BACKOFF_MAX (s * 1.7) <= 300
  /\ s <= Qmin _NET_BACKOFF_MAX (s * 1.7).
Proof.
  intros H1 H2. unfold _NET_BACKOFF_MAX.
  destruct (Qmin_cases (5 * 60) (s * 1.7)) as [[H E] | [H E]]; lra.
Qed.

(** The backoff step stays between the base and the maximum. *)
Lemma sync_step_invariant (cfg : Config) (now : Q) (res : fetch_result)
    (n : SyncState) :
  60 <= _NET_BACKOFF_STEP n -> _NET_BACKOFF_STEP n <= 300 ->
  60 <= _NET_BACKOFF_STEP (snd (sync_live_positions_periodic cfg now res n))
  /\ _NET_BACKOFF_STEP (snd (sync_live_positions_periodic cfg now res n)) <= 300.
Proof.
  intros H1 H2.
  destruct (sync_step_cases cfg now res n)
    as [(w & _ & _ & _ & _ & E) | [(_ & _ & _ & E) | (_ & E & _)]]; rewrite E.
  - destruct (next_step_bounds _ H1 H2) as (? & ? & ?). split; assumption.
  - lra.
  - split; assumption.
Qed.

Lemma sync_run_invariant (cfg : Config) (events : list (Q * fetch_result)) :
  forall n, 60 <= _NET_BACKOFF_STEP n -> _NET_BACKOFF_STEP n <= 300 ->
    60 <= _NET_BACKOFF_STEP (snd (sync_run cfg events n))
    /\ _NET_BACKOFF_STEP (snd (sync_run cfg events n)) <= 300.
Proof.
  induction events as [|[now res] rest IH]; intros n H1 H2; simpl.
  - split; assumption.
  - destruct (sync_step_invariant cfg now res n H1 H2) as [H3 H4].
    destruct (sync_live_positions_periodic cfg now res n) as [act n1].
    specialize (IH n1 H3 H4).
    destruct (sync_run cfg rest n1) as [ws n2]. exact IH.
Qed.

Lemma min_pow_step (a pk : Q) :
  0 <= a -> 1 <= pk ->
  Qmin 300 (Qmin _NET_BACKOFF_MAX (a * 1.7) * pk) == Qmin 300 (a * (1.7 * pk)).
Proof.
  intros Ha Hp. unfold _NET_BACKOFF_MAX.
  destruct (Qmin_cases (5 * 60) (a * 1.7)) as [[H E] | [H E]];
    destruct (Qmin_cases 300 (Qmin (5 * 60) (a * 1.7) * pk)) as [[H1 E1] | [H1 E1]];
    destruct (Qmin_cases 300 (a * (1.7 * pk))) as [[H2 E2] | [H2 E2]];
    rewrite E1, E2; rewrite E in *; nra.
Qed.

(** Without a success in between, the [k]-th window entered is
    [min(300, step * 1.7^k)]. *)
Lemma sync_run_windows (cfg : Config) (events : list (Q * fetch_result)) :
  Forall (fun e => snd e <> FetchOk) events ->
  forall n, 60 <= _NET_BACKOFF_STEP n -> _NET_BACKOFF_STEP n <= 300 ->
  forall k w, nth_error (fst (sync_run cfg events n)) k = Some w ->
    w == Qmin 300 (_NET_BACKOFF_STEP n * pow_nat 1.7 k).
Proof.
  induction 1 as [|[now res] rest Hres _ IH]; intros n H1 H2 k w; simpl.
  - destruct k; discriminate.
  - simpl in Hres.
    pose proof (sync_step_invariant cfg now res n H1 H2) as [H3 H4].
    pose proof (sync_step_cases cfg now res n) as Hc. simpl in Hc.
    destruct (sync_live_positions_periodic cfg now res n) as [act n1].
    simpl in *. specialize (IH n1 H3 H4).
    destruct (sync_run cfg rest n1) as [ws n2]. simpl in *.
    destruct Hc as [(w0 & -> & _ & -> & _ & E) | [(_ & ? & _) | ([-> | ->] & E & _)]];
      try congruence.
    + destruct k as [|k]; simpl.
      * intros [= <-].
        destruct (Qmin_cases 300 (_NET_BACKOFF_STEP n * 1)) as [[H E1] | [H E1]];
          rewrite E1; lra.
      * intros Hk. rewrite (IH k w Hk), E.
        apply min_pow_step; [lra | apply pow_nat_ge_1].
    + rewrite <- E. apply IH.
    + rewrite <- E. apply IH.
Qed.

(** C6: backoff windows under reconciliation transport failures.  From any
    state whose step lies between the 60-second base and the 300-second cap
    (every reachable state, the initial one having step 60), a run of calls
    without a success enters windows that are non-decreasing, the [k]-th
    being [min(300, step * 1.7^k)], all between 60 and 300 seconds; a request
    that is sent and fails opens a window of the current step; and one
    successful reconciliation resets the step to 60 and clears the backoff
    deadline. *)
Theorem C6_backoff_windows (cfg : Config) (events : list (Q * fetch_result))
    (n : SyncState)
    (Hlo : 60 <= _NET_BACKOFF_STEP n) (Hhi : _NET_BACKOFF_STEP n <= 300)
    (Hfail : Forall (fun e => snd e <> FetchOk) events) :
  _NET_BACKOFF_STEP sync_init = 60
  /\ _NET_BACKOFF_MAX == 300
  /\ (forall history,
        60 <= _NET_BACKOFF_STEP (snd (sync_run cfg history sync_init))
        /\ _NET_BACKOFF_STEP (snd (sync_run cfg history sync_init)) <= 300)
  /\ (forall k w, nth_error (fst (sync_run cfg events n)) k = Some w ->
        w == Qmin 300 (_NET_BACKOFF_STEP n * pow_nat 1.7 k)
        /\ 60 <= w /\ w <= 300)
  /\ (forall i j a b, (i <= j)%nat ->
        nth_error (fst (sync_run cfg events n)) i = Some a ->
        nth_error (fst (sync_run cfg events n)) j = Some b -> a <= b)
  /\ (60 <= _NET_BACKOFF_STEP (snd (sync_run cfg events n))
      /\ _NET_BACKOFF_STEP (snd (sync_run cfg events n)) <= 300)
  /\ (forall now m,
        live_credentials cfg = true ->
        _NET_BACKOFF_UNTIL m <= now ->
        POS_SYNC_SECONDS cfg <= now - _last_pos_sync m ->
        sync_live_positions_periodic cfg now TransportFailure m
        = (BackedOff (_NET_BACKOFF_STEP m),
           {| _last_pos_sync := now;
              _NET_BACKOFF_UNTIL := now + _NET_BACKOFF_STEP m;
              _NET_BACKOFF_STEP :=
                Qmin _NET_BACKOFF_MAX (_NET_BACKOFF_STEP m * 1.7) |}))
  /\ (forall now m,
        fst (sync_live_positions_periodic cfg now FetchOk m) = Reconciled ->
        _NET_BACKOFF_STEP (snd (sync_live_positions_periodic cfg now FetchOk m)) = 60
        /\ _NET_BACKOFF_UNTIL (snd (sync_live_positions_periodic cfg now FetchOk m)) = 0).
Proof.
  pose proof (sync_run_windows cfg events Hfail n Hlo Hhi) as Hw.
  assert (Hbound : forall k w,
             nth_error (fst (sync_run cfg events n)) k = Some w ->
             60 <= w /\ w <= 300).
  { intros k w Hk. specialize (Hw k w Hk).
    pose proof (pow_nat_ge_1 k).
    destruct (Qmin_cases 300 (_NET_BACKOFF_STEP n * pow_nat 1.7 k))
      as [[H1 E] | [H1 E]]; rewrite E in Hw; split; nra. }
  split; [reflexivity |]. split; [reflexivity |].
  split.
  { intros history. apply sync_run_invariant; simpl; lra. }
  split; [intros k w Hk; split; [apply Hw | apply Hbound with k]; exact Hk |].
  split.
  { intros i j a b Hij Ha Hb.
    rewrite (Hw i a Ha), (Hw j b Hb).
    pose proof (pow_nat_mono i j Hij). pose proof (pow_nat_ge_1 i).
    apply Q.min_le_compat_l. nra. }
  split; [apply sync_run_invariant; assumption |].
  split; [intros now m; apply sync_transport_failure |].
  intros now m Hact.
  destruct (sync_step_cases cfg now FetchOk m)
    as [(w & _ & ? & _) | [(_ & _ & Hu & Hs) | ([Hk | Hk] & _)]];
    try congruence.
  split; assumption.
Qed.

Lemma C6_witness :
  _NET_BACKOFF_STEP sync_init = 60
  /\ _NET_BACKOFF_MAX == 300
  /\ (forall history,
        60 <= _NET_BACKOFF_STEP (snd (sync_run default_config history sync_init))
        /\ _NET_BACKOFF_STEP (snd (sync_run default_config history sync_init))
           <= 300)
  /\ (forall k w,
        nth_error (fst (sync_run default_config three_failures sync_init)) k
        = Some w ->
        w == Qmin 300 (_NET_BACKOFF_STEP sync_init * pow_nat 1.7 k)
        /\ 60 <= w /\ w <= 300)
  /\ (forall i j a b, (i <= j)%nat ->
        nth_error (fst (sync_run default_config three_failures sync_init)) i
        = Some a ->
        nth_error (fst (sync_run default_config three_failures sync_init)) j
        = Some b -> a <= b)
  /\ (60 <= _NET_BACKOFF_STEP
              (snd (sync_run default_config three_failures sync_init))
      /\ _NET_BACKOFF_STEP
           (snd (sync_run default_config three_failures sync_init)) <= 300)
  /\ (forall now m,
        live_credentials default_config = true ->
        _NET_BACKOFF_UNTIL m <= now ->
        POS_SYNC_SECONDS default_config <= now - _last_pos_sync m ->
        sync_live_positions_periodic default_config now TransportFailure m
        = (BackedOff (_NET_BACKOFF_STEP m),
           {| _last_pos_sync := now;
              _NET_BACKOFF_UNTIL := now + _NET_BACKOFF_STEP m;
              _NET_BACKOFF_STEP :=
                Qmin _NET_BACKOFF_MAX (_NET_BACKOFF_STEP m * 1.7) |}))
  /\ (forall now m,
        fst (sync_live_positions_periodic default_config now FetchOk m)
        = Reconciled ->
        _NET_BACKOFF_STEP
          (snd (sync_live_positions_periodic default_config now FetchOk m)) = 60
        /\ _NET_BACKOFF_UNTIL
             (snd (sync_live_positions_periodic default_config now FetchOk m)) = 0).
Proof.
  apply (C6_backoff_windows default_config three_failures sync_init).
  - unfold Qle. simpl. lia.
  - unfold Qle. simpl. lia.
  - repeat constructor; simpl; discriminate.
Defined.

(** Three failures in a row, then a success. *)
Example backoff_three_failures_then_success :
  Forall2 Qeq (fst (sync_run default_config three_failures sync_init))
    [60; 102; 173.4]
  /\ _NET_BACKOFF_STEP (snd (sync_run default_config three_failures sync_init))
     == 294.78
  /\ _NET_BACKOFF_STEP
       (snd (sync_run default_config (three_failures ++ [(500, FetchOk)])
               sync_init)) = 60
  /\ _NET_BACKOFF_UNTIL
       (snd (sync_run default_config (three_failures ++ [(500, FetchOk)])
               sync_init)) = 0.
Proof.
  split; [repeat constructor |].
  split; [reflexivity |]. split; reflexivity.
Qed.

(** ** Settlement: what each step touches *)

Lemma is_sim_not_live (which : string) : is_sim which = true -> is_live which = false.
Proof.
  unfold is_sim, is_live. intros H. apply bool_decide_eq_true in H.
  apply bool_decide_eq_false. rewrite H. discriminate.
Qed.

Lemma is_live_not_sim (which : string) : is_live which = true -> is_sim which = false.
Proof.
  intros H. destruct (is_sim which) eqn:E; [| reflexivity].
  apply is_sim_not_live in E. congruence.
Qed.

Ltac split_ifs :=
  repeat match goal with
         | |- context [if ?b then _ else _] => destruct b
         end.

Section Settle.
Context (cfg : Config) (env : CloseEnv) (sym reason : string) (px : Q)
        (which : string) (skip_exchange : bool) (st : SymbolState)
        (p : Position) (uid : string) (s : State).

Let s' := settle cfg env sym reason px which skip_exchange st p uid s.
Let net := net_pnl_of cfg which skip_exchange env p px.
Let row := trade_row cfg which sym reason skip_exchange env p px uid.

Lemma settle_ACCOUNT_LIVE :
  ACCOUNT_LIVE s'
  = if is_live which then book_trade which net row (ACCOUNT_LIVE s)
    else ACCOUNT_LIVE s.
Proof.
  subst s' net row.
  unfold settle, track_loss_streak, persist_sim_state, append_csv,
    set_account, get_account.
  destruct (is_live which); split_ifs; reflexivity.
Qed.

Lemma settle_ACCOUNT_SIM :
  ACCOUNT_SIM s'
  = if is_live which then ACCOUNT_SIM s
    else book_trade which net row (ACCOUNT_SIM s).
Proof.
  subst s' net row.
  unfold settle, track_loss_streak, persist_sim_state, append_csv,
    set_account, get_account.
  destruct (is_live which); split_ifs; reflexivity.
Qed.

Lemma settle_get_account :
  get_account which s' = book_trade which net row (get_account which s).
Proof.
  unfold get_account. rewrite settle_ACCOUNT_LIVE, settle_ACCOUNT_SIM.
  destruct (is_live which); reflexivity.
Qed.

Lemma settle_SYMAP :
  SYMAP s' = <[sym := _set_pos st which None]> (SYMAP s).
Proof.
  subst s'.
  unfold settle, track_loss_streak, persist_sim_state, append_csv,
    set_account, get_account.
  destruct (is_live which); split_ifs; reflexivity.
Qed.

Lemma settle_LAST_CLOSE_TS : _LAST_CLOSE_TS s' = _LAST_CLOSE_TS s.
Proof.
  subst s'.
  unfold settle, track_loss_streak, persist_sim_state, append_csv,
    set_account, get_account.
  destruct (is_live which); split_ifs; reflexivity.
Qed.

Lemma settle_TRAINED : _TRAINED_POS_UIDS s' = _TRAINED_POS_UIDS s.
Proof.
  subst s'.
  unfold settle, track_loss_streak, persist_sim_state, append_csv,
    set_account, get_account.
  destruct (is_live which); split_ifs; reflexivity.
Qed.

Lemma settle_trades_csv :
  trades_csv s'
  = if (LOG_TRADES_ON cfg && csv_ok env)%bool
    then trades_csv s ++ [(which, row)] else trades_csv s.
Proof.
  subst s' row.
  unfold settle, track_loss_streak, persist_sim_state, append_csv,
    set_account, get_account.
  destruct (LOG_TRADES_ON cfg && csv_ok env)%bool;
    destruct (is_live which); split_ifs; reflexivity.
Qed.
End Settle.

(** ** The debounce *)

Lemma close_too_soon_within (now : Z) (which sym : string) (s : State) :
  (now - last_close which sym s < 600)%Z ->
  _close_too_soon now which sym 600 s = (true, s).
Proof.
  intros H. unfold _close_too_soon. fold (close_key which sym).
  fold (last_close which sym s).
  apply Z.ltb_lt in H. now rewrite H.
Qed.

Lemma close_too_soon_after (now : Z) (which sym : string) (s : State) :
  (600 <= now - last_close which sym s)%Z ->
  _close_too_soon now which sym 600 s = (false, stamp_close now which sym s).
Proof.
  intros H. unfold _close_too_soon. fold (close_key which sym).
  fold (last_close which sym s).
  apply Z.ltb_ge in H. now rewrite H.
Qed.

(** ** The four ways a close call ends *)

Section CloseCases.
Context (cfg : Config) (env : CloseEnv) (sym reason : string) (px : Q)
        (which : string) (skip_exchange : bool) (s : State) (st : SymbolState).
Hypothesis Hst : SYMAP s !! sym = Some st.

Lemma close_unknown_symbol (s0 : State) :
  SYMAP s0 !! sym = None ->
  close_position_one cfg env sym reason px which skip_exchange s0 = Raised KeyError.
Proof. intros H. unfold close_position_one. now rewrite H. Qed.

Lemma close_debounced :
  (now_ms env - last_close which sym s < 600)%Z ->
  close_position_one cfg env sym reason px which skip_exchange s = Returned s.
Proof.
  intros H. unfold close_position_one. rewrite Hst.
  now rewrite close_too_soon_within.
Qed.

Lemma close_no_position :
  (600 <= now_ms env - last_close which sym s)%Z ->
  _get_pos st which = None ->
  close_position_one cfg env sym reason px which skip_exchange s
  = Returned (stamp_close (now_ms env) which sym s).
Proof.
  intros H Hp. unfold close_position_one. rewrite Hst.
  rewrite close_too_soon_after by assumption. now rewrite Hp.
Qed.

Lemma close_dup_cleanup (p : Position) :
  (600 <= now_ms env - last_close which sym s)%Z ->
  _get_pos st which = Some p ->
  initial_uid which sym p ∈ _TRAINED_POS_UIDS s ->
  has_size p = false ->
  close_position_one cfg env sym reason px which skip_exchange s
  = Returned
      (with_SYMAP (<[sym := _set_pos st which None]> (SYMAP s))
         (stamp_close (now_ms env) which sym s)).
Proof.
  intros H Hp Hin Hsz. unfold close_position_one. rewrite Hst.
  rewrite close_too_soon_after by assumption. rewrite Hp. simpl.
  rewrite bool_decide_eq_true_2 by assumption. now rewrite Hsz.
Qed.

Lemma close_settles (p : Position) :
  (600 <= now_ms env - last_close which sym s)%Z ->
  _get_pos st which = Some p ->
  initial_uid which sym p ∉ _TRAINED_POS_UIDS s \/ has_size p = true ->
  close_position_one cfg env sym reason px which skip_exchange s
  = Returned
      (settle cfg env sym reason px which skip_exchange st p
         (settle_uid env which sym p s) (admitted_state env which sym p s)).
Proof.
  intros H Hp Hs. unfold close_position_one. rewrite Hst.
  rewrite close_too_soon_after by assumption. rewrite Hp. simpl.
  unfold admitted_state, settle_uid.
  destruct (bool_decide (initial_uid which sym p ∈ _TRAINED_POS_UIDS s)) eqn:E.
  - destruct Hs as [Hs | Hs].
    + apply bool_decide_eq_true in E. contradiction.
    + now rewrite Hs.
  - reflexivity.
Qed.
End CloseCases.

Lemma Qabs_nonpos_iff (x : Q) : Qabs x <= 0 <-> x == 0.
Proof.
  split.
  - apply (Qabs_case x (fun a => a <= 0 -> x == 0)); intros; lra.
  - intros E. rewrite E. unfold Qle. simpl. lia.
Qed.

Lemma has_size_false (p : Position) :
  has_size p = false <-> qty p == 0 \/ entry p == 0.
Proof.
  unfold has_size.
  rewrite andb_false_iff, !Qlt_bool_false, !Qabs_nonpos_iff. reflexivity.
Qed.

(** ** Ledger update *)

(** C7: a settlement that reaches the ledger update (the symbol is tracked,
    a position is open, the call is not debounced and is not the
    cleanup-only duplicate) adds the net PnL to [total_pnl] of the settled
    account, whichever it is; [balance] and [daily_pnl] change, by the same
    net PnL, only when the account selector is SIM; a LIVE settlement leaves
    LIVE's [balance] and [daily_pnl] and the whole SIM account unchanged. *)
Theorem C7_ledger_update (cfg : Config) (env : CloseEnv) (sym reason : string)
    (px : Q) (which : string) (skip_exchange : bool) (s : State)
    (st : SymbolState) (p : Position)
    (Hst : SYMAP s !! sym = Some st)
    (Hp : _get_pos st which = Some p)
    (Hnow : (600 <= now_ms env - last_close which sym s)%Z)
    (Hsettles : initial_uid which sym p ∉ _TRAINED_POS_UIDS s
                \/ has_size p = true) :
  exists s',
    close_position_one cfg env sym reason px which skip_exchange s = Returned s'
    /\ total_pnl (get_account which s')
       = total_pnl (get_account which s)
         + net_pnl_of cfg which skip_exchange env p px
    /\ (is_sim which = true ->
        balance (ACCOUNT_SIM s')
        = balance (ACCOUNT_SIM s) + net_pnl_of cfg which skip_exchange env p px
        /\ daily_pnl (ACCOUNT_SIM s')
           = daily_pnl (ACCOUNT_SIM s)
             + net_pnl_of cfg which skip_exchange env p px
        /\ ACCOUNT_LIVE s' = ACCOUNT_LIVE s)
    /\ (is_sim which = false ->
        balance (ACCOUNT_SIM s') = balance (ACCOUNT_SIM s)
        /\ daily_pnl (ACCOUNT_SIM s') = daily_pnl (ACCOUNT_SIM s)
        /\ balance (ACCOUNT_LIVE s') = balance (ACCOUNT_LIVE s)
        /\ daily_pnl (ACCOUNT_LIVE s') = daily_pnl (ACCOUNT_LIVE s))
    /\ (is_live which = true ->
        total_pnl (ACCOUNT_LIVE s')
        = total_pnl (ACCOUNT_LIVE s)
          + net_pnl_of cfg which skip_exchange env p px
        /\ balance (ACCOUNT_LIVE s') = balance (ACCOUNT_LIVE s)
        /\ daily_pnl (ACCOUNT_LIVE s') = daily_pnl (ACCOUNT_LIVE s)
        /\ ACCOUNT_SIM s' = ACCOUNT_SIM s).
Proof.
  eexists. split; [apply (close_settles _ _ _ _ _ _ _ _ _ Hst p Hnow Hp Hsettles) |].
  split; [rewrite settle_get_account; reflexivity |].
  rewrite settle_ACCOUNT_LIVE, settle_ACCOUNT_SIM.
  split; [| split].
  - intros Hsim. rewrite (is_sim_not_live _ Hsim). unfold book_trade.
    rewrite Hsim. simpl. auto.
  - intros Hsim. unfold book_trade. rewrite Hsim.
    destruct (is_live which); simpl; auto.
  - intros Hlive. rewrite Hlive. unfold book_trade.
    rewrite (is_live_not_sim _ Hlive). simpl. auto.
Qed.

Lemma C7_witness :
  (SYMAP open_state !! "BTCUSDT" = Some open_symbol_state
   /\ _get_pos open_symbol_state "SIM" = Some example_pos
   /\ (600 <= now_ms (example_env 1700000000000)
              - last_close "SIM" "BTCUSDT" open_state)%Z
   /\ has_size example_pos = true)
  /\ exists s',
       close_position_one default_config (example_env 1700000000000)
         "BTCUSDT" "TP hit" 110 "SIM" false open_state = Returned s'
       /\ total_pnl (ACCOUNT_SIM s') == 9.92
       /\ balance (ACCOUNT_SIM s') == 10009.92
       /\ daily_pnl (ACCOUNT_SIM s') == 9.92
       /\ ACCOUNT_LIVE s' = ACCOUNT_LIVE open_state.
Proof.
  assert (Hst : SYMAP open_state !! "BTCUSDT" = Some open_symbol_state)
    by (vm_compute; reflexivity).
  assert (Hp : _get_pos open_symbol_state "SIM" = Some example_pos)
    by reflexivity.
  assert (Hnow : (600 <= now_ms (example_env 1700000000000)
                         - last_close "SIM" "BTCUSDT" open_state)%Z)
    by (vm_compute; discriminate).
  assert (Hsz : has_size example_pos = true) by reflexivity.
  split; [auto |].
  destruct (C7_ledger_update default_config (example_env 1700000000000)
              "BTCUSDT" "TP hit" 110 "SIM" false open_state
              open_symbol_state example_pos Hst Hp Hnow (or_intror Hsz))
    as (s' & Hc & Ht & Hsim & _).
  destruct (Hsim eq_refl) as (Hb & Hd & Hl).
  exists s'. split; [exact Hc |].
  change (get_account "SIM" s') with (ACCOUNT_SIM s') in Ht.
  rewrite Ht, Hb, Hd.
  split; [reflexivity |]. split; [reflexivity |]. split; [reflexivity | exact Hl].
Defined.

(** ** Debounced repeats *)

Lemma run_closes_debounced (cfg : Config) (sym which : string) (t0 : Z)
    (calls : list CloseCall) (s : State) (st : SymbolState) :
  SYMAP s !! sym = Some st ->
  last_close which sym s = t0 ->
  Forall (fun c => (now_ms (c_env c) - t0 < 600)%Z) calls ->
  run_closes cfg sym which calls s = Returned s.
Proof.
  intros Hst Hlast. induction 1 as [|c rest Hc _ IH]; simpl; [reflexivity |].
  rewrite (close_debounced _ _ _ _ _ _ _ _ _ Hst) by (rewrite Hlast; exact Hc).
  simpl. exact IH.
Qed.

Lemma settle_last_close (cfg : Config) (env : CloseEnv) (sym reason : string)
    (px : Q) (which : string) (skip_exchange : bool) (st : SymbolState)
    (p : Position) (s : State) :
  last_close which sym
    (settle cfg env sym reason px which skip_exchange st p
       (settle_uid env which sym p s) (admitted_state env which sym p s))
  = now_ms env.
Proof.
  unfold last_close. rewrite settle_LAST_CLOSE_TS.
  unfold admitted_state. simpl. now rewrite lookup_insert_eq.
Qed.

(** C2: repeated close triggers inside the debounce window leave exactly one
    ledger record.  For a tracked symbol with an open position, a first
    trigger that is itself outside any earlier debounce window and is not the
    cleanup-only duplicate settles and appends exactly one row to the
    account's [trades] (and, when CSV logging is on and the write succeeds,
    one row to the CSV ledger); every later trigger for the same
    [(which, sym)] whose clock reading is less than 600 ms after the first
    returns without changing anything, so after the whole burst the ledger
    holds exactly that one new row and the position is cleared. *)
Theorem C2_one_record_per_debounced_burst (cfg : Config) (first : CloseCall)
    (later : list CloseCall) (sym which : string) (s : State)
    (st : SymbolState) (p : Position)
    (Hst : SYMAP s !! sym = Some st)
    (Hp : _get_pos st which = Some p)
    (Hnow : (600 <= now_ms (c_env first) - last_close which sym s)%Z)
    (Hsettles : initial_uid which sym p ∉ _TRAINED_POS_UIDS s
                \/ has_size p = true)
    (Hlater : Forall (fun c => (now_ms (c_env c) - now_ms (c_env first) < 600)%Z)
                later) :
  exists s1 row,
    close_position_one cfg (c_env first) sym (c_reason first) (c_px first)
      which (c_skip_exchange first) s = Returned s1
    /\ row = trade_row cfg which sym (c_reason first) (c_skip_exchange first)
               (c_env first) p (c_px first)
               (settle_uid (c_env first) which sym p s)
    /\ trades (get_account which s1) = trades (get_account which s) ++ [row]
    /\ trades_csv s1
       = (if (LOG_TRADES_ON cfg && csv_ok (c_env first))%bool
          then trades_csv s ++ [(which, row)] else trades_csv s)
    /\ (exists st1, SYMAP s1 !! sym = Some st1 /\ _get_pos st1 which = None)
    /\ Forall (fun c =>
                 close_position_one cfg (c_env c) sym (c_reason c) (c_px c)
                   which (c_skip_exchange c) s1 = Returned s1) later
    /\ run_closes cfg sym which (first :: later) s = Returned s1
    /\ (length (trades (ACCOUNT_LIVE s1)) + length (trades (ACCOUNT_SIM s1))
        = S (length (trades (ACCOUNT_LIVE s)) + length (trades (ACCOUNT_SIM s))))%nat.
Proof.
  pose proof (close_settles cfg (c_env first) sym (c_reason first) (c_px first)
                which (c_skip_exchange first) s st Hst p Hnow Hp Hsettles) as Hc.
  set (s1 := settle cfg (c_env first) sym (c_reason first) (c_px first) which
               (c_skip_exchange first) st p
               (settle_uid (c_env first) which sym p s)
               (admitted_state (c_env first) which sym p s)) in *.
  assert (Hst1 : SYMAP s1 !! sym = Some (_set_pos st which None)).
  { subst s1. rewrite settle_SYMAP. apply lookup_insert_eq. }
  assert (Hlast : last_close which sym s1 = now_ms (c_env first))
    by apply settle_last_close.
  exists s1, (trade_row cfg which sym (c_reason first) (c_skip_exchange first)
                (c_env first) p (c_px first)
                (settle_uid (c_env first) which sym p s)).
  split; [exact Hc |]. split; [reflexivity |].
  split; [subst s1; rewrite settle_get_account; reflexivity |].
  split; [subst s1; rewrite settle_trades_csv; reflexivity |].
  split.
  { eexists. split; [exact Hst1 |].
    unfold _get_pos, _set_pos. destruct (is_live which); reflexivity. }
  split.
  { eapply Forall_impl; [exact Hlater |]. intros c Hlt. simpl in Hlt.
    apply (close_debounced _ _ _ _ _ _ _ _ _ Hst1). rewrite Hlast. exact Hlt. }
  split.
  { simpl. rewrite Hc. simpl.
    eapply run_closes_debounced; [exact Hst1 | exact Hlast | exact Hlater]. }
  subst s1. rewrite settle_ACCOUNT_LIVE, settle_ACCOUNT_SIM.
  destruct (is_live which); simpl; rewrite length_app; simpl; lia.
Qed.

Lemma C2_witness :
  (SYMAP open_state !! "BTCUSDT" = Some open_symbol_state
   /\ _get_pos open_symbol_state "SIM" = Some example_pos
   /\ has_size example_pos = true
   /\ Forall (fun c => (now_ms (c_env c) - 1700000000000 < 600)%Z)
        (repeat_calls 1700000000000))
  /\ exists s1,
       run_closes default_config "BTCUSDT" "SIM"
         ({| c_env := example_env 1700000000000; c_reason := "TP hit";
             c_px := 110; c_skip_exchange := false |}
            :: repeat_calls 1700000000000) open_state = Returned s1
       /\ length (trades (ACCOUNT_SIM s1)) = 1%nat
       /\ length (trades (ACCOUNT_LIVE s1)) = 0%nat.
Proof.
  assert (Hst : SYMAP open_state !! "BTCUSDT" = Some open_symbol_state)
    by (vm_compute; reflexivity).
  assert (Hp : _get_pos open_symbol_state "SIM" = Some example_pos)
    by reflexivity.
  assert (Hsz : has_size example_pos = true) by reflexivity.
  assert (Hl : Forall (fun c => (now_ms (c_env c) - 1700000000000 < 600)%Z)
                 (repeat_calls 1700000000000))
    by (repeat constructor).
  split; [auto |].
  destruct (C2_one_record_per_debounced_burst default_config
              {| c_env := example_env 1700000000000; c_reason := "TP hit";
                 c_px := 110; c_skip_exchange := false |}
              (repeat_calls 1700000000000) "BTCUSDT" "SIM" open_state
              open_symbol_state example_pos Hst Hp
              ltac:(vm_compute; discriminate) (or_intror Hsz) Hl)
    as (s1 & row & _ & _ & Ht & _ & _ & _ & Hrun & Hlen).
  exists s1. split; [exact Hrun |].
  change (get_account "SIM" s1) with (ACCOUNT_SIM s1) in Ht.
  rewrite Ht in *. split; [reflexivity |].
  rewrite length_app in Hlen. simpl in Hlen. lia.
Defined.

(** ** Duplicate uid *)

Lemma has_size_true (p : Position) :
  has_size p = true <-> ~ qty p == 0 /\ ~ entry p == 0.
Proof.
  pose proof (has_size_false p) as H.
  destruct (has_size p); split; try tauto; try discriminate.
  intros _. split; intros E; [assert (false = true) | assert (false = true)];
    try discriminate; symmetry; apply H; auto.
Qed.

(** C1 (as amended): a call that is not debounced, on a position whose uid is
    already in the dedup set, performs only local cleanup when the position
    has no size (quantity or entry price zero): the position slot is cleared
    and the debounce stamp set, and accounts, ledgers, dedup set and model
    are unchanged.  When both quantity and entry price are non-zero the call
    is re-keyed under a fresh timestamped uid and settled in full: one ledger
    row under the new uid, [total_pnl] increased by the net PnL. *)
Theorem C1_duplicate_uid_cleanup_only_without_size (cfg : Config)
    (env : CloseEnv) (sym reason : string) (px : Q) (which : string)
    (skip_exchange : bool) (s : State) (st : SymbolState) (p : Position)
    (Hst : SYMAP s !! sym = Some st)
    (Hp : _get_pos st which = Some p)
    (Hnow : (600 <= now_ms env - last_close which sym s)%Z)
    (Hdup : initial_uid which sym p ∈ _TRAINED_POS_UIDS s) :
  (qty p == 0 \/ entry p == 0 ->
   exists s',
     close_position_one cfg env sym reason px which skip_exchange s = Returned s'
     /\ s' = with_SYMAP (<[sym := _set_pos st which None]> (SYMAP s))
               (stamp_close (now_ms env) which sym s)
     /\ ACCOUNT_LIVE s' = ACCOUNT_LIVE s
     /\ ACCOUNT_SIM s' = ACCOUNT_SIM s
     /\ trades_csv s' = trades_csv s
     /\ ML s' = ML s
     /\ _TRAINED_POS_UIDS s' = _TRAINED_POS_UIDS s
     /\ sim_state_file s' = sim_state_file s
     /\ exists st1, SYMAP s' !! sym = Some st1 /\ _get_pos st1 which = None)
  /\ (~ qty p == 0 -> ~ entry p == 0 ->
      exists s',
        close_position_one cfg env sym reason px which skip_exchange s
        = Returned s'
        /\ trades (get_account which s')
           = trades (get_account which s)
             ++ [trade_row cfg which sym reason skip_exchange env p px
                   (rekeyed_uid which sym p (rekey_ms env))]
        /\ total_pnl (get_account which s')
           = total_pnl (get_account which s)
             + net_pnl_of cfg which skip_exchange env p px
        /\ rekeyed_uid which sym p (rekey_ms env) ∈ _TRAINED_POS_UIDS s').
Proof.
  split.
  - intros Hz. apply has_size_false in Hz.
    eexists. split; [apply (close_dup_cleanup _ _ _ _ _ _ _ _ _ Hst p Hnow Hp Hdup Hz) |].
    repeat (split; [reflexivity |]).
    eexists. split; [apply lookup_insert_eq |].
    unfold _get_pos, _set_pos. destruct (is_live which); reflexivity.
  - intros Hq He.
    assert (Hsz : has_size p = true) by (apply has_size_true; auto).
    eexists.
    split; [apply (close_settles _ _ _ _ _ _ _ _ _ Hst p Hnow Hp (or_intror Hsz)) |].
    assert (Hu : settle_uid env which sym p s
                 = rekeyed_uid which sym p (rekey_ms env)).
    { unfold settle_uid. now rewrite bool_decide_eq_true_2. }
    rewrite settle_get_account, settle_TRAINED. rewrite Hu.
    split; [reflexivity |]. split; [reflexivity |].
    unfold admitted_state. simpl. rewrite Hu. set_solver.
Qed.

Lemma C1_witness :
  (SYMAP dup_sizeless_state !! "BTCUSDT" = Some sizeless_symbol_state
   /\ _get_pos sizeless_symbol_state "SIM" = Some sizeless_pos
   /\ initial_uid "SIM" "BTCUSDT" sizeless_pos
      ∈ _TRAINED_POS_UIDS dup_sizeless_state
   /\ qty sizeless_pos == 0)
  /\ exists s',
       close_position_one default_config (example_env 1700000000000)
         "BTCUSDT" "TP hit" 110 "SIM" false dup_sizeless_state = Returned s'
       /\ ACCOUNT_SIM s' = ACCOUNT_SIM dup_sizeless_state
       /\ ACCOUNT_LIVE s' = ACCOUNT_LIVE dup_sizeless_state
       /\ ML s' = ML dup_sizeless_state
       /\ exists st1, SYMAP s' !! "BTCUSDT" = Some st1
                      /\ _get_pos st1 "SIM" = None.
Proof.
  assert (Hst : SYMAP dup_sizeless_state !! "BTCUSDT" = Some sizeless_symbol_state)
    by (vm_compute; reflexivity).
  assert (Hp : _get_pos sizeless_symbol_state "SIM" = Some sizeless_pos)
    by reflexivity.
  assert (Hdup : initial_uid "SIM" "BTCUSDT" sizeless_pos
                 ∈ _TRAINED_POS_UIDS dup_sizeless_state).
  { apply (bool_decide_unpack _). vm_compute. exact I. }
  assert (Hq : qty sizeless_pos == 0) by reflexivity.
  split; [auto |].
  destruct (C1_duplicate_uid_cleanup_only_without_size default_config
              (example_env 1700000000000) "BTCUSDT" "TP hit" 110 "SIM" false
              dup_sizeless_state sizeless_symbol_state sizeless_pos Hst Hp
              ltac:(vm_compute; discriminate) Hdup) as [Hclean _].
  destruct (Hclean (or_introl Hq))
    as (s' & Hc & _ & Hl & Hs & _ & Hml & _ & _ & Hpos).
  exists s'. auto.
Defined.

(** C1, the claim as worded fails: a position with size whose uid is already
    in the dedup set is settled again.  On the SIM side the balance and
    [total_pnl] move and a ledger row is written under a re-keyed uid; on
    the LIVE side the outcome is also counted as a training sample.  And a
    call that falls inside the debounce window does not even clear the
    position. *)
Lemma C1_counterexample_duplicate_uid_settles_again :
  (initial_uid "SIM" "BTCUSDT" example_pos ∈ _TRAINED_POS_UIDS dup_state
   /\ exists s',
        close_position_one default_config (example_env 1700000000000)
          "BTCUSDT" "TP hit" 110 "SIM" false dup_state = Returned s'
        /\ trades (ACCOUNT_SIM dup_state) = []
        /\ map t_pos_uid (trades (ACCOUNT_SIM s'))
           = ["SIM:BTCUSDT:100.0:1.0:1700000000000"]
        /\ balance (ACCOUNT_SIM dup_state) == 10000
        /\ balance (ACCOUNT_SIM s') == 10009.92
        /\ total_pnl (ACCOUNT_SIM dup_state) == 0
        /\ total_pnl (ACCOUNT_SIM s') == 9.92)
  /\ (initial_uid "LIVE" "BTCUSDT" example_live_pos
      ∈ _TRAINED_POS_UIDS dup_live_state
      /\ exists s',
           close_position_one default_config (example_env 1700000000000)
             "BTCUSDT" "Exchange TP/SL filled" 110 "LIVE" true dup_live_state
           = Returned s'
           /\ length (trades (ACCOUNT_LIVE s')) = 1%nat
           /\ total_pnl (ACCOUNT_LIVE s') == 10
           /\ pos_seen (ML dup_live_state) = 0%Z
           /\ pos_seen (ML s') = 1%Z)
  /\ (exists s',
        close_position_one default_config (example_env 1700000000000)
          "BTCUSDT" "TP hit" 110 "SIM" false
          (stamp_close 1699999999900 "SIM" "BTCUSDT" dup_sizeless_state)
        = Returned s'
        /\ sim_position s' "BTCUSDT" = Some sizeless_pos).
Proof.
  split; [| split].
  - split; [apply (bool_decide_unpack _); vm_compute; exact I |].
    eexists. split; [reflexivity |].
    vm_compute. repeat split.
  - split; [apply (bool_decide_unpack _); vm_compute; exact I |].
    eexists. split; [reflexivity |].
    vm_compute. repeat split.
  - eexists. split; [reflexivity |]. vm_compute. reflexivity.
Qed.

(** ** Closing without a position *)

(** C8 (as amended): for a tracked symbol with no open position on the
    selected account, the close entry point returns without a ledger record
    and without touching accounts, positions, dedup set, model, in-flight
    set, loss tables or the persisted snapshot; the only state it may write
    is the debounce timestamp of [(which, sym)], which is set to the clock
    reading of the call unless the call itself is debounced. *)
Theorem C8_close_without_position (cfg : Config) (env : CloseEnv)
    (sym reason : string) (px : Q) (which : string) (skip_exchange : bool)
    (s : State) (st : SymbolState)
    (Hst : SYMAP s !! sym = Some st)
    (Hp : _get_pos st which = None) :
  exists s',
    close_position_one cfg env sym reason px which skip_exchange s = Returned s'
    /\ ((now_ms env - last_close which sym s < 600)%Z -> s' = s)
    /\ ((600 <= now_ms env - last_close which sym s)%Z ->
        s' = stamp_close (now_ms env) which sym s)
    /\ ACCOUNT_LIVE s' = ACCOUNT_LIVE s
    /\ ACCOUNT_SIM s' = ACCOUNT_SIM s
    /\ trades_csv s' = trades_csv s
    /\ SYMAP s' = SYMAP s
    /\ _TRAINED_POS_UIDS s' = _TRAINED_POS_UIDS s
    /\ ML s' = ML s
    /\ OPEN_INFLIGHT s' = OPEN_INFLIGHT s
    /\ _loss_streak_by_sym s' = _loss_streak_by_sym s
    /\ _suspend_until_ts_by_sym s' = _suspend_until_ts_by_sym s
    /\ sim_state_file s' = sim_state_file s
    /\ (forall k, k <> close_key which sym ->
          _LAST_CLOSE_TS s' !! k = _LAST_CLOSE_TS s !! k).
Proof.
  destruct (Z.lt_ge_cases (now_ms env - last_close which sym s) 600) as [Hlt | Hge].
  - exists s. split; [apply (close_debounced _ _ _ _ _ _ _ _ _ Hst Hlt) |].
    split; [reflexivity |]. split; [lia |].
    repeat (split; [reflexivity |]). reflexivity.
  - exists (stamp_close (now_ms env) which sym s).
    split; [apply (close_no_position _ _ _ _ _ _ _ _ _ Hst Hge Hp) |].
    split; [lia |]. split; [reflexivity |].
    repeat (split; [reflexivity |]).
    intros k Hk. unfold stamp_close. simpl. now rewrite lookup_insert_ne.
Qed.

Lemma C8_witness :
  (SYMAP flat_state !! "BTCUSDT" = Some (new_symbol_state "BTCUSDT")
   /\ _get_pos (new_symbol_state "BTCUSDT") "SIM" = None)
  /\ exists s',
       close_position_one default_config (example_env 1700000000000)
         "BTCUSDT" "SL hit" 99 "SIM" false flat_state = Returned s'
       /\ ACCOUNT_LIVE s' = ACCOUNT_LIVE flat_state
       /\ ACCOUNT_SIM s' = ACCOUNT_SIM flat_state
       /\ trades_csv s' = trades_csv flat_state
       /\ SYMAP s' = SYMAP flat_state
       /\ ML s' = ML flat_state.
Proof.
  assert (Hst : SYMAP flat_state !! "BTCUSDT" = Some (new_symbol_state "BTCUSDT"))
    by (vm_compute; reflexivity).
  assert (Hp : _get_pos (new_symbol_state "BTCUSDT") "SIM" = None)
    by reflexivity.
  split; [auto |].
  destruct (C8_close_without_position default_config
              (example_env 1700000000000) "BTCUSDT" "SL hit" 99 "SIM" false
              flat_state (new_symbol_state "BTCUSDT") Hst Hp)
    as (s' & Hc & _ & _ & Hl & Hs & Hcsv & Hm & _ & Hml & _).
  exists s'. auto 10.
Defined.

(** C8, the claim as worded fails: a close on an empty slot is not without
    effect.  It arms the debounce of [(which, sym)], and that is observable:
    a position opened right after it and hit by a genuine close trigger
    200 ms later is left open and unrecorded, whereas without the empty
    close the same trigger settles it.  For a symbol that is not tracked the
    entry point does not return at all: the lookup raises. *)
Lemma C8_counterexample_empty_close_arms_debounce :
  _get_pos (new_symbol_state "BTCUSDT") "SIM" = None
  /\ SYMAP flat_state !! "BTCUSDT" = Some (new_symbol_state "BTCUSDT")
  /\ exists s1,
       close_position_one default_config (example_env 1700000000000)
         "BTCUSDT" "SL hit" 99 "SIM" false flat_state = Returned s1
       /\ _LAST_CLOSE_TS flat_state !! ("SIM", "BTCUSDT") = None
       /\ _LAST_CLOSE_TS s1 !! ("SIM", "BTCUSDT") = Some 1700000000000%Z
       /\ exists s_after s_without,
            close_position_one default_config (example_env 1700000000200)
              "BTCUSDT" "TP hit" 110 "SIM" false (open_example_position s1)
            = Returned s_after
            /\ close_position_one default_config (example_env 1700000000200)
                 "BTCUSDT" "TP hit" 110 "SIM" false
                 (open_example_position flat_state)
               = Returned s_without
            /\ trades (ACCOUNT_SIM s_after) = []
            /\ (position_sim <$> SYMAP s_after !! "BTCUSDT")
               = Some (Some example_pos)
            /\ length (trades (ACCOUNT_SIM s_without)) = 1%nat
            /\ (position_sim <$> SYMAP s_without !! "BTCUSDT") = Some None
            /\ close_position_one default_config (example_env 1700000000000)
                 "ETHUSDT" "SL hit" 99 "SIM" false flat_state
               = Raised KeyError.
Proof.
  split; [reflexivity |]. split; [vm_compute; reflexivity |].
  eexists. split; [reflexivity |].
  split; [vm_compute; reflexivity |]. split; [vm_compute; reflexivity |].
  eexists. eexists. split; [reflexivity |]. split; [reflexivity |].
  vm_compute. repeat split.
Qed.

(** ** Persistence round trip *)

Lemma keep_if_truthy_idem (x : option Q) :
  keep_if_truthy (keep_if_truthy x) = keep_if_truthy x.
Proof.
  unfold keep_if_truthy. destruct (truthy x) eqn:E; [now rewrite E | reflexivity].
Qed.

Lemma restore_positions_lookup (ps : gmap string PosSnap)
    (m : gmap string SymbolState) (sym : string) :
  restore_positions ps m !! sym
  = match ps !! sym with
    | Some p =>
        Some (_set_pos (default (new_symbol_state sym) (m !! sym)) "SIM"
                (Some (restored_position p)))
    | None => m !! sym
    end.
Proof.
  unfold restore_positions. revert sym.
  apply (map_fold_weak_ind
           (fun r ps => forall sym,
              r !! sym
              = match ps !! sym with
                | Some p =>
                    Some (_set_pos (default (new_symbol_state sym) (m !! sym))
                            "SIM" (Some (restored_position p)))
                | None => m !! sym
                end)).
  - intros sym. now rewrite lookup_empty.
  - intros i x ps' r Hi IH sym. unfold restore_one.
    destruct (decide (i = sym)) as [-> | Hne].
    + rewrite !lookup_insert_eq. rewrite (IH sym), Hi. reflexivity.
    + rewrite !lookup_insert_ne by assumption. apply IH.
Qed.

Lemma snapshot_positions_lookup (cfg : Config) (ts : Z) (s : State)
    (sym : string) :
  snap_positions (snapshot_sim_state cfg ts s) !! sym
  = snapshot_position <$> sim_position s sym.
Proof.
  unfold snapshot_sim_state, sim_position. simpl.
  rewrite lookup_omap. destruct (SYMAP s !! sym); reflexivity.
Qed.

Lemma persist_forced_ok (cfg : Config) (now : Q) (ts : Z) (s : State) :
  sim_state_file (persist_sim_state cfg true now ts true s)
  = Some (snapshot_sim_state cfg ts s).
Proof. reflexivity. Qed.

Lemma restore_account (cfg : Config) (ts : Z) (s s0 : State) :
  _SIM_STATE_DONE s0 = false ->
  sim_state_file s0 = Some (snapshot_sim_state cfg ts s) ->
  ACCOUNT_SIM (restore_sim_state s0)
  = {| name := name (ACCOUNT_SIM s0);
       balance := balance (ACCOUNT_SIM s);
       daily_start_equity := Some (start_equity_or_balance (ACCOUNT_SIM s));
       daily_pnl := daily_pnl (ACCOUNT_SIM s);
       total_pnl := total_pnl (ACCOUNT_SIM s);
       trades := last_n 500 (trades (ACCOUNT_SIM s));
       _available := _available (ACCOUNT_SIM s0) |}.
Proof.
  intros Hfirst Hfile. unfold restore_sim_state. now rewrite Hfirst, Hfile.
Qed.

Lemma restore_sim_position (cfg : Config) (ts : Z) (s s0 : State)
    (sym : string) :
  _SIM_STATE_DONE s0 = false ->
  sim_state_file s0 = Some (snapshot_sim_state cfg ts s) ->
  sim_position s0 sym = None ->
  sim_position (restore_sim_state s0) sym
  = (fun p => restored_position (snapshot_position p)) <$> sim_position s sym.
Proof.
  intros Hfirst Hfile Hflat. unfold restore_sim_state.
  rewrite Hfirst, Hfile. unfold sim_position at 1.
  cbn [SYMAP with_SIM_STATE_DONE with_SYMAP].
  rewrite restore_positions_lookup, snapshot_positions_lookup.
  destruct (sim_position s sym) as [p |]; simpl; [reflexivity |].
  exact Hflat.
Qed.

(** C5 (as amended): a forced, successful [persist_sim_state] followed by
    [restore_sim_state] in a process that has not restored yet and holds no
    simulated position (a restart) reproduces [balance], [daily_pnl] and
    [total_pnl] identically and the most recent 500 trades; the daily start
    equity comes back as the stored value when that was set and non-zero and
    as the balance otherwise; every open simulated position comes back with
    identical side, quantity and entry, and with its stop and target
    identical when they are set and non-zero (a missing or zero stop or
    target comes back absent); symbols without a position stay without. *)
Theorem C5_persist_restore_roundtrip (cfg : Config) (now : Q) (ts : Z)
    (s s0 : State)
    (Hfile : sim_state_file s0
             = sim_state_file (persist_sim_state cfg true now ts true s))
    (Hfirst : _SIM_STATE_DONE s0 = false)
    (Hflat : forall sym, sim_position s0 sym = None) :
  balance (ACCOUNT_SIM (restore_sim_state s0)) = balance (ACCOUNT_SIM s)
  /\ daily_pnl (ACCOUNT_SIM (restore_sim_state s0)) = daily_pnl (ACCOUNT_SIM s)
  /\ total_pnl (ACCOUNT_SIM (restore_sim_state s0)) = total_pnl (ACCOUNT_SIM s)
  /\ daily_start_equity (ACCOUNT_SIM (restore_sim_state s0))
     = Some (start_equity_or_balance (ACCOUNT_SIM s))
  /\ (forall e, daily_start_equity (ACCOUNT_SIM s) = Some e -> ~ e == 0 ->
        daily_start_equity (ACCOUNT_SIM (restore_sim_state s0)) = Some e)
  /\ trades (ACCOUNT_SIM (restore_sim_state s0))
     = last_n 500 (trades (ACCOUNT_SIM s))
  /\ (forall sym p, sim_position s sym = Some p ->
        exists p', sim_position (restore_sim_state s0) sym = Some p'
                   /\ side p' = side p /\ qty p' = qty p /\ entry p' = entry p
                   /\ sl p' = keep_if_truthy (sl p)
                   /\ tp p' = keep_if_truthy (tp p))
  /\ (forall sym, sim_position s sym = None ->
        sim_position (restore_sim_state s0) sym = None)
  /\ (forall sym,
        snapshot_position <$> sim_position (restore_sim_state s0) sym
        = snapshot_position <$> sim_position s sym).
Proof.
  rewrite persist_forced_ok in Hfile.
  rewrite (restore_account cfg ts s s0 Hfirst Hfile). simpl.
  split; [reflexivity |]. split; [reflexivity |]. split; [reflexivity |].
  split; [reflexivity |].
  split.
  { intros e He Hne. unfold start_equity_or_balance. rewrite He. simpl.
    apply Qeq_bool_false in Hne. now rewrite Hne. }
  split; [reflexivity |].
  split.
  { intros sym p Hp.
    rewrite (restore_sim_position cfg ts s s0 sym Hfirst Hfile (Hflat sym)), Hp.
    simpl. eexists. split; [reflexivity |].
    simpl. rewrite !keep_if_truthy_idem. auto. }
  split.
  { intros sym Hp.
    now rewrite (restore_sim_position cfg ts s s0 sym Hfirst Hfile (Hflat sym)), Hp. }
  intros sym.
  rewrite (restore_sim_position cfg ts s s0 sym Hfirst Hfile (Hflat sym)).
  destruct (sim_position s sym) as [p |]; simpl; [| reflexivity].
  unfold snapshot_position. simpl. now rewrite !keep_if_truthy_idem.
Qed.

Lemma boot_state_flat (syms : list string) (file : option Snapshot)
    (sym : string) :
  sim_position (boot_state syms file) sym = None.
Proof.
  unfold sim_position, boot_state. simpl.
  destruct (list_to_map _ !! sym) as [st |] eqn:E; [| reflexivity].
  apply elem_of_list_to_map_2 in E.
  apply list_elem_of_fmap in E as (x & [= _ ->] & _). reflexivity.
Qed.

Lemma C5_witness :
  (sim_state_file
     (restart ["BTCUSDT"]
        (persist_sim_state default_config true 1700000000 1700000000 true
           open_state))
   = sim_state_file
       (persist_sim_state default_config true 1700000000 1700000000 true
          open_state)
   /\ _SIM_STATE_DONE
        (restart ["BTCUSDT"]
           (persist_sim_state default_config true 1700000000 1700000000 true
              open_state)) = false)
  /\ balance (ACCOUNT_SIM (persist_restart_restore default_config ["BTCUSDT"]
                             open_state)) = 10000
  /\ exists p',
       sim_position (persist_restart_restore default_config ["BTCUSDT"]
                       open_state) "BTCUSDT" = Some p'
       /\ side p' = LONG /\ qty p' = 1 /\ entry p' = 100
       /\ sl p' = Some 98 /\ tp p' = Some 104.
Proof.
  split; [split; reflexivity |].
  destruct (C5_persist_restore_roundtrip default_config 1700000000 1700000000
              open_state
              (restart ["BTCUSDT"]
                 (persist_sim_state default_config true 1700000000 1700000000
                    true open_state))
              eq_refl eq_refl (boot_state_flat _ _))
    as (Hb & _ & _ & _ & _ & _ & Hpos & _).
  split; [exact Hb |].
  destruct (Hpos "BTCUSDT" example_pos ltac:(vm_compute; reflexivity))
    as (p' & Hp' & Hs & Hq & He & Hsl & Htp).
  exists p'. split; [exact Hp' |]. auto.
Defined.

(** C5, the claim as worded fails on two points.  The account as it is
    created has no daily start equity; after the round trip it has one, the
    balance.  And a position whose stop is zero comes back without a stop. *)
Lemma C5_counterexample_start_equity_and_zero_stop :
  daily_start_equity (ACCOUNT_SIM flat_state) = None
  /\ daily_start_equity
       (ACCOUNT_SIM (persist_restart_restore default_config ["BTCUSDT"]
                       flat_state)) = Some 10000
  /\ (sl <$> sim_position zero_stop_state "BTCUSDT") = Some (Some 0)
  /\ (sl <$> sim_position
               (persist_restart_restore default_config ["BTCUSDT"]
                  zero_stop_state) "BTCUSDT") = Some None.
Proof.
  split; [reflexivity |]. split; [reflexivity |].
  split; vm_compute; reflexivity.
Qed.

(** * Further properties *)

(** ** Tick grid *)

Lemma round_down_lt_succ (x : Q) :
  0 <= x -> x < inject_Z (round_down x) + 1.
Proof.
  destruct x as [n d]. unfold round_down, Qle, Qlt, Qplus, inject_Z. simpl.
  intros H. assert (Hn : (0 <= n)%Z) by lia.
  rewrite Z.quot_div_nonneg by lia.
  pose proof (Z.mul_succ_div_gt n (Z.pos d) ltac:(lia)). lia.
Qed.

Lemma round_down_inject (x : Q) (j : Z) : x == inject_Z j -> round_down x = j.
Proof.
  destruct x as [n d]. unfold round_down, Qeq, inject_Z. simpl.
  intros H. assert (n = j * Z.pos d)%Z as -> by lia.
  apply Z.quot_mul. lia.
Qed.

Lemma div_mul_cancel (p t : Q) : ~ t == 0 -> p / t * t == p.
Proof. intros H. field. exact H. Qed.

(** Truncation of [price / tick] brackets a non-negative price. *)
Lemma steps_bracket (price tick : Q) :
  0 <= price -> 0 < tick ->
  inject_Z (round_down (price / tick)) * tick <= price
  /\ price < (inject_Z (round_down (price / tick)) + 1) * tick.
Proof.
  intros Hp Ht.
  assert (Hx : 0 <= price / tick) by (apply Qle_shift_div_l; lra).
  pose proof (round_down_nonneg _ Hx) as [_ H1].
  pose proof (round_down_lt_succ _ Hx) as H2.
  pose proof (div_mul_cancel price tick ltac:(lra)) as E.
  split; nra.
Qed.

Lemma round_price_returns (price tick : Q) (direction : Z) :
  ~ tick == 0 ->
  exists k, _round_price_to_tick price tick direction
            = Returned (inject_Z k * tick)
            /\ (k = round_down (price / tick)
                \/ ((0 < direction)%Z
                    /\ ~ price == inject_Z (round_down (price / tick)) * tick
                    /\ k = (round_down (price / tick) + 1)%Z)).
Proof.
  intros Ht. unfold _round_price_to_tick.
  apply Qeq_bool_false in Ht. rewrite Ht.
  destruct (0 <? direction)%Z eqn:Ed; simpl.
  - destruct (Qeq_bool price _) eqn:Ee; simpl.
    + eexists. split; [reflexivity | left; reflexivity].
    + eexists. split; [reflexivity |]. right.
      apply Z.ltb_lt in Ed. apply Qeq_bool_false in Ee. auto.
  - eexists. split; [reflexivity | left; reflexivity].
Qed.

(** Rounding up never goes below the price and stays within one tick. *)
Lemma round_up_bounds (price tick : Q) (direction : Z) :
  0 <= price -> 0 < tick -> (0 < direction)%Z ->
  exists r, _round_price_to_tick price tick direction = Returned r
            /\ price <= r /\ r < price + tick.
Proof.
  intros Hp Ht Hd.
  destruct (steps_bracket price tick Hp Ht) as [H1 H2].
  unfold _round_price_to_tick.
  assert (Hne : Qeq_bool tick 0 = false) by (apply Qeq_bool_false; lra).
  rewrite Hne. apply Z.ltb_lt in Hd. rewrite Hd. simpl.
  destruct (Qeq_bool price _) eqn:Ee; simpl; eexists; (split; [reflexivity |]).
  - apply Qeq_bool_iff in Ee. split; lra.
  - apply Qeq_bool_false in Ee. rewrite inject_Z_plus.
    change (inject_Z 1) with 1. split; nra.
Qed.

(** Rounding down never goes above the price and stays within one tick. *)
Lemma round_down_bounds (price tick : Q) (direction : Z) :
  0 <= price -> 0 < tick -> (direction <= 0)%Z ->
  exists r, _round_price_to_tick price tick direction = Returned r
            /\ r <= price /\ price - tick < r /\ 0 <= r.
Proof.
  intros Hp Ht Hd.
  destruct (steps_bracket price tick Hp Ht) as [H1 H2].
  assert (Hx : 0 <= price / tick) by (apply Qle_shift_div_l; lra).
  pose proof (round_down_nonneg _ Hx) as [H0 _].
  unfold _round_price_to_tick.
  assert (Hne : Qeq_bool tick 0 = false) by (apply Qeq_bool_false; lra).
  rewrite Hne. apply Z.ltb_ge in Hd. rewrite Hd. simpl.
  eexists. split; [reflexivity |]. split; [lra |]. split; nra.
Qed.

(** Rounding down a negative price moves it toward zero. *)
Lemma round_down_negative (price tick : Q) (direction : Z) :
  price <= 0 -> 0 < tick -> (direction <= 0)%Z ->
  exists r, _round_price_to_tick price tick direction = Returned r /\ r <= 0.
Proof.
  intros Hp Ht Hd.
  assert (Hx : price / tick <= 0).
  { pose proof (div_mul_cancel price tick ltac:(lra)).
    destruct (Qlt_le_dec 0 (price / tick)); [nra | assumption]. }
  pose proof (round_down_nonpos _ Hx) as [_ H0].
  unfold _round_price_to_tick.
  assert (Hne : Qeq_bool tick 0 = false) by (apply Qeq_bool_false; lra).
  rewrite Hne. apply Z.ltb_ge in Hd. rewrite Hd. simpl.
  eexists. split; [reflexivity |]. nra.
Qed.

(** X1: [_round_price_to_tick] on a non-negative price and a positive tick
    returns a multiple of the tick; with [direction > 0] the result lies in
    [[price, price + tick)], otherwise in [(price - tick, price]]; a price
    that already is a multiple of the tick is returned unchanged in either
    direction. *)
Theorem X1_round_price_to_tick_bounds (price tick : Q) (direction : Z)
    (Hp : 0 <= price) (Ht : 0 < tick) :
  exists r k,
    _round_price_to_tick price tick direction = Returned r
    /\ r = inject_Z k * tick
    /\ ((0 < direction)%Z -> price <= r /\ r < price + tick)
    /\ ((direction <= 0)%Z -> price - tick < r /\ r <= price)
    /\ ((exists j, price == inject_Z j * tick) -> r == price).
Proof.
  destruct (round_price_returns price tick direction ltac:(lra))
    as (k & Hr & Hk).
  exists (inject_Z k * tick), k. split; [exact Hr |]. split; [reflexivity |].
  split; [| split].
  - intros Hd. destruct (round_up_bounds price tick direction Hp Ht Hd)
      as (r & Hr' & H1 & H2).
    rewrite Hr in Hr'. injection Hr' as <-. split; assumption.
  - intros Hd. destruct (round_down_bounds price tick direction Hp Ht Hd)
      as (r & Hr' & H1 & H2 & _).
    rewrite Hr in Hr'. injection Hr' as <-. split; assumption.
  - intros [j Hj].
    assert (Hq : price / tick == inject_Z j).
    { rewrite Hj. field. lra. }
    pose proof (round_down_inject _ _ Hq) as Ej.
    destruct Hk as [-> | (_ & Hne & _)].
    + rewrite Ej. symmetry. exact Hj.
    + exfalso. apply Hne. rewrite Ej. exact Hj.
Qed.

Lemma X1_witness :
  exists r k,
    _round_price_to_tick 100.0034 0.01 1 = Returned r
    /\ r = inject_Z k * 0.01
    /\ ((0 < 1)%Z -> 100.0034 <= r /\ r < 100.0034 + 0.01)
    /\ ((1 <= 0)%Z -> 100.0034 - 0.01 < r /\ r <= 100.0034)
    /\ ((exists j, 100.0034 == inject_Z j * 0.01) -> r == 100.0034).
Proof.
  apply (X1_round_price_to_tick_bounds 100.0034 0.01 1).
  - unfold Qle. simpl. lia.
  - reflexivity.
Defined.

(** The two directions on a price between grid points, and a tick of zero. *)
Example round_price_examples :
  (exists r, _round_price_to_tick 100.0034 0.01 (-1) = Returned r /\ r == 100)
  /\ (exists r, _round_price_to_tick 100.0034 0.01 1 = Returned r /\ r == 100.01)
  /\ (exists r, _round_price_to_tick 100.01 0.01 1 = Returned r /\ r == 100.01)
  /\ _round_price_to_tick 100 0 1 = Raised DecimalDivisionByZero.
Proof.
  split; [eexists; split; reflexivity |].
  split; [eexists; split; reflexivity |].
  split; [eexists; split; reflexivity | reflexivity].
Qed.

(** ** Minimum gap *)

Lemma min_gap_pos (entry tick : Q) : 0 < tick -> 0 < min_gap_of entry tick.
Proof.
  intros Ht. unfold min_gap_of.
  pose proof (Q.le_max_l (tick * 12) (entry * 0.0015)). lra.
Qed.

Lemma apply_min_gap_above (entry price tick : Q) :
  entry + min_gap_of entry tick <= _apply_min_gap entry price tick true
  /\ price <= _apply_min_gap entry price tick true
  /\ (entry + min_gap_of entry tick < price ->
      _apply_min_gap entry price tick true = price).
Proof.
  unfold _apply_min_gap.
  destruct (Qle_bool price (entry + min_gap_of entry tick)) eqn:E.
  - apply Qle_bool_iff in E. repeat split; lra.
  - apply Qle_bool_false in E. repeat split; lra.
Qed.

Lemma apply_min_gap_below (entry price tick : Q) :
  _apply_min_gap entry price tick false <= entry - min_gap_of entry tick
  /\ _apply_min_gap entry price tick false <= price
  /\ (price < entry - min_gap_of entry tick ->
      _apply_min_gap entry price tick false = price).
Proof.
  unfold _apply_min_gap.
  destruct (Qle_bool (entry - min_gap_of entry tick) price) eqn:E.
  - apply Qle_bool_iff in E. repeat split; lra.
  - apply Qle_bool_false in E. repeat split; lra.
Qed.

Lemma round_on_grid (k : Z) (tick : Q) (direction : Z) :
  ~ tick == 0 ->
  exists r, _round_price_to_tick (inject_Z k * tick) tick direction = Returned r
            /\ r == inject_Z k * tick.
Proof.
  intros Ht.
  assert (Hq : inject_Z k * tick / tick == inject_Z k) by (field; exact Ht).
  pose proof (round_down_inject _ _ Hq) as Ek.
  destruct (round_price_returns (inject_Z k * tick) tick direction Ht)
    as (k' & Hr & [-> | (_ & Hne & _)]).
  - eexists. split; [exact Hr |]. now rewrite Ek.
  - exfalso. apply Hne. now rewrite Ek.
Qed.

Lemma reaffirm_above (entry price tick : Q) :
  0 <= entry -> 0 < tick ->
  exists k, _reaffirm_after_tick entry price tick true
            = Returned (inject_Z k * tick)
            /\ entry + min_gap_of entry tick <= inject_Z k * tick
            /\ price <= inject_Z k * tick.
Proof.
  intros He Ht. unfold _reaffirm_after_tick.
  pose proof (min_gap_pos entry tick Ht) as Hg.
  set (p' := if Qlt_bool (price - entry) (min_gap_of entry tick)
             then entry + min_gap_of entry tick else price).
  assert (Hp' : entry + min_gap_of entry tick <= p' /\ price <= p').
  { subst p'. destruct (Qlt_bool _ _) eqn:E.
    - apply Qlt_bool_true in E. split; lra.
    - apply Qlt_bool_false in E. split; lra. }
  destruct (round_price_returns p' tick 1 ltac:(lra)) as (k & Hr & _).
  destruct (round_up_bounds p' tick 1 ltac:(lra) Ht ltac:(lia))
    as (r & Hr' & H1 & _).
  rewrite Hr in Hr'. injection Hr' as <-.
  exists k. split; [exact Hr |]. split; lra.
Qed.

Lemma reaffirm_below (entry price tick : Q) :
  0 < tick ->
  exists k, _reaffirm_after_tick entry price tick false
            = Returned (inject_Z k * tick)
            /\ (inject_Z k * tick <= 0
                \/ (inject_Z k * tick <= entry - min_gap_of entry tick
                    /\ inject_Z k * tick <= price)).
Proof.
  intros Ht. unfold _reaffirm_after_tick.
  set (p' := if Qlt_bool (entry - price) (min_gap_of entry tick)
             then entry - min_gap_of entry tick else price).
  assert (Hp' : p' <= entry - min_gap_of entry tick /\ p' <= price).
  { subst p'. destruct (Qlt_bool _ _) eqn:E.
    - apply Qlt_bool_true in E. split; lra.
    - apply Qlt_bool_false in E. split; lra. }
  destruct (round_price_returns p' tick (-1) ltac:(lra)) as (k & Hr & _).
  exists k. split; [exact Hr |].
  destruct (Qlt_le_dec p' 0) as [Hneg | Hpos].
  - left. destruct (round_down_negative p' tick (-1) ltac:(lra) Ht ltac:(lia))
      as (r & Hr' & H1).
    rewrite Hr in Hr'. injection Hr' as <-. exact H1.
  - right. destruct (round_down_bounds p' tick (-1) Hpos Ht ltac:(lia))
      as (r & Hr' & H1 & _).
    rewrite Hr in Hr'. injection Hr' as <-. split; lra.
Qed.



(** A stop 5 cents under a 100.00 entry is pushed out to 99.85 (0.15%). *)
Example min_gap_examples :
  _apply_min_gap 100 99.95 0.01 false == 99.85
  /\ _apply_min_gap 100 100.05 0.01 true == 100.15
  /\ _apply_min_gap 100 98 0.01 false == 98
  /\ _apply_min_gap 100 100 1 true == 112.
Proof. repeat split. Qed.

(** ** Exit alignment before an order is placed *)

Lemma above_then_round (entry price tick : Q) :
  0 <= entry -> 0 < tick ->
  exists a r, _reaffirm_after_tick entry price tick true = Returned a
              /\ _round_price_to_tick a tick 1 = Returned r
              /\ entry + min_gap_of entry tick <= r /\ price <= r.
Proof.
  intros He Ht.
  destruct (reaffirm_above entry price tick He Ht) as (k & Hr & H1 & H2).
  destruct (round_on_grid k tick 1 ltac:(lra)) as (r & Hr2 & E).
  exists (inject_Z k * tick), r.
  split; [exact Hr |]. split; [exact Hr2 |]. split; lra.
Qed.

Lemma below_then_round (entry price tick : Q) :
  0 < tick ->
  exists a r, _reaffirm_after_tick entry price tick false = Returned a
              /\ _round_price_to_tick a tick (-1) = Returned r
              /\ (r <= 0 \/ (r <= entry - min_gap_of entry tick /\ r <= price))
              /\ (0 <= price -> min_gap_of entry tick <= entry ->
                  r <= entry - min_gap_of entry tick /\ r <= price).
Proof.
  intros Ht.
  destruct (reaffirm_below entry price tick Ht) as (k & Hr & H).
  destruct (round_on_grid k tick (-1) ltac:(lra)) as (r & Hr2 & E).
  exists (inject_Z k * tick), r.
  split; [exact Hr |]. split; [exact Hr2 |].
  split; [destruct H as [? | [? ?]]; [left | right; split]; lra |].
  intros Hp Hroom.
  unfold _reaffirm_after_tick in Hr.
  set (p' := if Qlt_bool (entry - price) (min_gap_of entry tick)
             then entry - min_gap_of entry tick else price) in Hr.
  assert (Hp' : p' <= entry - min_gap_of entry tick /\ p' <= price /\ 0 <= p').
  { subst p'. destruct (Qlt_bool _ _) eqn:E'.
    - apply Qlt_bool_true in E'. repeat split; lra.
    - apply Qlt_bool_false in E'. repeat split; lra. }
  destruct (round_down_bounds p' tick (-1) ltac:(lra) Ht ltac:(lia))
    as (r' & Hr' & H1 & _).
  rewrite Hr in Hr'. injection Hr' as <-. split; lra.
Qed.

(** X3: the exit re-alignment of [place_order_one].  For a positive entry and
    a positive tick it always returns; for a LONG the target ends at least
    the minimum gap above the entry and not below the proposed target, and
    the stop ends strictly below the entry (at least the minimum gap below,
    and not above the proposed stop, when the proposed stop is not negative
    and the gap fits under the entry); for a SHORT the same holds mirrored.
    The returned pair is therefore always ordered around the entry. *)
Theorem X3_align_exits_ordered (sd : Side) (entry sl0 tp0 tick : Q)
    (He : 0 < entry) (Ht : 0 < tick) :
  exists tp sl,
    align_exits sd entry sl0 tp0 tick = Returned (tp, sl)
    /\ (sd = LONG ->
        entry + min_gap_of entry tick <= tp /\ tp0 <= tp /\ sl < entry
        /\ (0 <= sl0 -> min_gap_of entry tick <= entry ->
            sl <= entry - min_gap_of entry tick /\ sl <= sl0))
    /\ (sd = SHORT ->
        entry + min_gap_of entry tick <= sl /\ sl0 <= sl /\ tp < entry
        /\ (0 <= tp0 -> min_gap_of entry tick <= entry ->
            tp <= entry - min_gap_of entry tick /\ tp <= tp0)).
Proof.
  pose proof (min_gap_pos entry tick Ht) as Hg.
  destruct sd; unfold align_exits.
  - destruct (above_then_round entry (_apply_min_gap entry tp0 tick true) tick
                ltac:(lra) Ht) as (a & tp & Ha & Hr & H1 & H2).
    destruct (below_then_round entry (_apply_min_gap entry sl0 tick false) tick
                Ht) as (b & sl & Hb & Hs & H3 & H4).
    pose proof (apply_min_gap_above entry tp0 tick) as (_ & Hup & _).
    pose proof (apply_min_gap_below entry sl0 tick) as (Hlo1 & Hlo2 & Hlo3).
    rewrite Ha. cbn [obind]. rewrite Hr. cbn [obind]. rewrite Hb. cbn [obind].
    rewrite Hs. cbn [obind].
    assert (Hord : (Qlt_bool entry tp && Qlt_bool sl entry)%bool = true).
    { apply andb_true_iff. split; apply Qlt_bool_true; [lra |].
      destruct H3 as [? | [? _]]; lra. }
    rewrite Hord. exists tp, sl. split; [reflexivity |].
    split; [| discriminate].
    intros _. split; [lra |]. split; [lra |].
    split; [destruct H3 as [? | [? _]]; lra |].
    intros Hsl Hroom.
    assert (0 <= _apply_min_gap entry sl0 tick false).
    { unfold _apply_min_gap. destruct (Qle_bool _ sl0); lra. }
    destruct (H4 ltac:(assumption) Hroom). split; lra.
  - destruct (below_then_round entry (_apply_min_gap entry tp0 tick false) tick
                Ht) as (a & tp & Ha & Hr & H3 & H4).
    destruct (above_then_round entry (_apply_min_gap entry sl0 tick true) tick
                ltac:(lra) Ht) as (b & sl & Hb & Hs & H1 & H2).
    pose proof (apply_min_gap_above entry sl0 tick) as (_ & Hup & _).
    pose proof (apply_min_gap_below entry tp0 tick) as (Hlo1 & Hlo2 & Hlo3).
    rewrite Ha. cbn [obind]. rewrite Hr. cbn [obind]. rewrite Hb. cbn [obind].
    rewrite Hs. cbn [obind].
    assert (Hord : (Qlt_bool tp entry && Qlt_bool entry sl)%bool = true).
    { apply andb_true_iff. split; apply Qlt_bool_true; [| lra].
      destruct H3 as [? | [? _]]; lra. }
    rewrite Hord. exists tp, sl. split; [reflexivity |].
    split; [discriminate |].
    intros _. split; [lra |]. split; [lra |].
    split; [destruct H3 as [? | [? _]]; lra |].
    intros Htp Hroom.
    assert (0 <= _apply_min_gap entry tp0 tick false).
    { unfold _apply_min_gap. destruct (Qle_bool _ tp0); lra. }
    destruct (H4 ltac:(assumption) Hroom). split; lra.
Qed.

Lemma X3_witness :
  exists tp sl,
    align_exits LONG 100 99.95 100.05 0.01 = Returned (tp, sl)
    /\ tp == 100.15 /\ sl == 99.85.
Proof.
  assert (H100 : 0 < 100) by reflexivity.
  assert (Htick : 0 < 0.01) by reflexivity.
  destruct (X3_align_exits_ordered LONG 100 99.95 100.05 0.01 H100 Htick)
    as (tp & sl & H & _).
  exists tp, sl. split; [exact H |].
  vm_compute in H. injection H as <- <-. split; reflexivity.
Defined.

(** ** Exit levels *)



Lemma atr_wilder_14_returns (candles : list Candle) :
  exists a, atr_wilder candles 14 = Returned a.
Proof.
  unfold atr_wilder. destruct (length candles <? 14 + 1)%nat; [eauto |].
  rewrite py_div_nonzero by (intros H; discriminate H). simpl. eauto.
Qed.




(** A zero leverage makes the margin rule divide by zero. *)
Example tp_sl_by_margin_zero_leverage :
  tp_sl_by_margin 100 LONG 0.12 0.07 0 = Raised ZeroDivisionError.
Proof. reflexivity. Qed.

(** ** Average true range *)

Lemma true_range_nonneg (pc h l : Q) : 0 <= _true_range pc h l.
Proof.
  unfold _true_range.
  pose proof (Qabs_nonneg (l - pc)).
  pose proof (Q.le_max_r (Qmax (h - l) (Qabs (h - pc))) (Qabs (l - pc))). lra.
Qed.

Lemma true_ranges_length (candles : list Candle) :
  length (true_ranges candles) = (length candles - 1)%nat.
Proof.
  induction candles as [|c0 rest IH]; [reflexivity |].
  destruct rest as [|c1 rest']; [reflexivity |].
  change (true_ranges (c0 :: c1 :: rest'))
    with (_true_range (k_close c0) (k_high c1) (k_low c1)
            :: true_ranges (c1 :: rest')).
  simpl length in *. rewrite IH. lia.
Qed.

Lemma true_ranges_nonneg (candles : list Candle) :
  Forall (fun t => 0 <= t) (true_ranges candles).
Proof.
  induction candles as [|c0 rest IH]; [constructor |].
  destruct rest as [|c1 rest']; [constructor |].
  change (true_ranges (c0 :: c1 :: rest'))
    with (_true_range (k_close c0) (k_high c1) (k_low c1)
            :: true_ranges (c1 :: rest')).
  constructor; [apply true_range_nonneg | exact IH].
Qed.

Lemma fold_plus_bounds (lo hi : Q) (l : list Q) :
  Forall (fun t => lo <= t /\ t <= hi) l ->
  forall acc,
    acc + lo * inject_Z (Z.of_nat (length l)) <= fold_left Qplus l acc
    /\ fold_left Qplus l acc <= acc + hi * inject_Z (Z.of_nat (length l)).
Proof.
  induction 1 as [|t l [H1 H2] _ IH]; intros acc.
  - simpl. assert (E : lo * 0 == 0 /\ hi * 0 == 0) by (split; ring).
    destruct E as [E1 E2]. change (inject_Z 0) with 0. rewrite E1, E2.
    split; lra.
  - simpl fold_left. destruct (IH (acc + t)) as [IH1 IH2].
    replace (length (t :: l)) with (S (length l)) by reflexivity.
    rewrite Nat2Z.inj_succ, <- Z.add_1_r, inject_Z_plus.
    change (inject_Z 1) with 1.
    set (m := inject_Z (Z.of_nat (length l))) in *.
    split; nra.
Qed.

Lemma wilder_step_bounds (n : nat) (lo hi a t : Q) :
  (1 <= n)%nat -> lo <= a <= hi -> lo <= t <= hi ->
  lo <= wilder_step n a t <= hi.
Proof.
  intros Hn [Ha1 Ha2] [Ht1 Ht2]. unfold wilder_step.
  assert (Hn' : 1 <= inject_Z (Z.of_nat n)).
  { change 1 with (inject_Z 1). rewrite <- Zle_Qle. lia. }
  set (m := inject_Z (Z.of_nat n)) in *.
  split.
  - apply Qle_shift_div_l; [lra | nra].
  - apply Qle_shift_div_r; [lra | nra].
Qed.

Lemma fold_wilder_bounds (n : nat) (lo hi : Q) (l : list Q) :
  (1 <= n)%nat ->
  Forall (fun t => lo <= t /\ t <= hi) l ->
  forall a, lo <= a <= hi -> lo <= fold_left (wilder_step n) l a <= hi.
Proof.
  intros Hn. induction 1 as [|t l Ht _ IH]; intros a Ha; [exact Ha |].
  simpl. apply IH. apply wilder_step_bounds; assumption.
Qed.

Lemma nonneg_list_bounded (l : list Q) :
  Forall (fun t => 0 <= t) l ->
  exists hi, Forall (fun t => 0 <= t /\ t <= hi) l.
Proof.
  induction l as [|t l IH]; intros H.
  - exists 0. constructor.
  - inversion H as [|? ? Ht Hl]; subst.
    destruct (IH Hl) as (hi & Hall).
    exists (Qmax t hi). constructor.
    + split; [exact Ht | apply Q.le_max_l].
    + eapply Forall_impl; [exact Hall |]. intros x [? ?].
      pose proof (Q.le_max_r t hi). split; lra.
Qed.

(** X5: [atr_wilder] with a positive period [n] returns [None] exactly when
    there are fewer than [n + 1] candles; otherwise it returns a value that
    lies between any lower and upper bound of the true ranges, and in
    particular is never negative. *)
Theorem X5_atr_wilder_within_true_ranges (candles : list Candle) (n : nat)
    (Hn : (1 <= n)%nat) :
  ((length candles < n + 1)%nat -> atr_wilder candles n = Returned None)
  /\ ((n + 1 <= length candles)%nat ->
      exists a, atr_wilder candles n = Returned (Some a)
                /\ 0 <= a
                /\ forall lo hi,
                     Forall (fun t => lo <= t /\ t <= hi) (true_ranges candles) ->
                     lo <= a /\ a <= hi).
Proof.
  unfold atr_wilder. split.
  - intros H. apply Nat.ltb_lt in H. now rewrite H.
  - intros H. assert (E : (length candles <? n + 1)%nat = false)
      by (apply Nat.ltb_ge; exact H).
    rewrite E.
    assert (Hn' : 1 <= inject_Z (Z.of_nat n)).
    { change 1 with (inject_Z 1). rewrite <- Zle_Qle. lia. }
    rewrite py_div_nonzero by lra. cbn [obind].
    eexists. split; [reflexivity |].
    assert (Hbound : forall lo hi,
              Forall (fun t => lo <= t /\ t <= hi) (true_ranges candles) ->
              lo <= fold_left (wilder_step n) (drop n (true_ranges candles))
                      (qsum (take n (true_ranges candles))
                       / inject_Z (Z.of_nat n)) <= hi).
    { intros lo hi Hall.
      apply fold_wilder_bounds; [exact Hn | |].
      - apply Forall_drop. exact Hall.
      - assert (Hlen : length (take n (true_ranges candles)) = n).
        { rewrite length_take, true_ranges_length. lia. }
        assert (Htk : Forall (fun t => lo <= t /\ t <= hi)
                        (take n (true_ranges candles)))
          by (apply Forall_take; exact Hall).
        pose proof (fold_plus_bounds lo hi (take n (true_ranges candles))
                      Htk 0) as [H1 H2].
        rewrite Hlen in H1, H2. unfold qsum.
        split.
        + apply Qle_shift_div_l; lra.
        + apply Qle_shift_div_r; lra. }
    split.
    + pose proof (true_ranges_nonneg candles) as Hnn.
      destruct (nonneg_list_bounded _ Hnn) as (hi & Hall).
      apply (Hbound 0 hi Hall).
    + intros lo hi Hall. apply (Hbound lo hi Hall).
Qed.

Lemma X5_witness :
  exists a, atr_wilder example_candles 2 = Returned (Some a)
            /\ a == 1.75 /\ 1 <= a /\ a <= 3.
Proof.
  destruct (X5_atr_wilder_within_true_ranges example_candles 2 ltac:(lia))
    as [_ H].
  destruct (H ltac:(simpl; lia)) as (a & Ha & _ & Hb).
  exists a. split; [exact Ha |].
  destruct (Hb 1 3) as [H1 H3].
  { repeat constructor; vm_compute; discriminate. }
  split; [| split; assumption].
  vm_compute in Ha. injection Ha as <-. reflexivity.
Defined.

(** Too few candles give no value; a period of zero divides by zero. *)
Example atr_wilder_edge_cases :
  atr_wilder [] 14 = Returned None
  /\ atr_wilder example_candles 14 = Returned None
  /\ atr_wilder example_candles 0 = Raised ZeroDivisionError.
Proof. repeat split. Qed.

(** ** Sizing bounds *)

Lemma Qmax_split (a b : Q) :
  (b <= a /\ Qmax a b == a) \/ (a <= b /\ Qmax a b == b).
Proof.
  destruct (Q.max_spec a b) as [[H E] | [H E]].
  - right. split; [lra | exact E].
  - left. split; [exact H | exact E].
Qed.

Lemma max_notional_nonneg (cfg : Config) (avail : Q) :
  0 <= max_notional_by_margin_of cfg avail.
Proof.
  unfold max_notional_by_margin_of.
  pose proof (Q.le_max_l 0 avail). pose proof (Q.le_max_r (LEVERAGE cfg) 0).
  nra.
Qed.

Lemma div_le_of_le_mul (a b c : Q) : 0 < b -> a <= c * b -> a / b <= c.
Proof. intros Hb H. apply Qle_shift_div_r; assumption. Qed.

(** X6: the notional of the quantity returned by [compute_qty] never exceeds
    the margin cap [max(0, available) * max(LEVERAGE, 0) * 0.95], in either
    sizing mode and for every input. *)
Theorem X6_quantity_within_margin_cap (cfg : Config) (entry0 sl0 : option Q)
    (which : string) (la : option Q) (bal : Q) (ovr : option Q) :
  exists q,
    compute_qty_on cfg entry0 sl0 which la bal ovr = Returned q
    /\ q * float_or0 entry0
       <= max_notional_by_margin_of cfg (avail_margin_of which la bal).
Proof.
  pose proof (max_notional_nonneg cfg (avail_margin_of which la bal)) as Hcap.
  unfold compute_qty_on.
  destruct (Qle_bool (float_or0 entry0) 0) eqn:He.
  { exists 0. split; [reflexivity | lra]. }
  apply Qle_bool_false in He.
  set (e := float_or0 entry0) in *.
  set (cap := max_notional_by_margin_of cfg (avail_margin_of which la bal)) in *.
  assert (Hq : forall x, x <= cap -> Qmax (x / e) 0 * e <= cap).
  { intros x Hx.
    assert (Ex : x / e * e == x) by (field; lra).
    destruct (Qmax_split (x / e) 0) as [[_ E] | [_ E]]; rewrite E; lra. }
  destruct (POSITION_SIZING cfg).
  - rewrite py_div_nonzero by lra. cbn [obind].
    eexists. split; [reflexivity |]. apply Hq. apply Q.le_min_r.
  - destruct (Qle_bool (Qabs (e - float_or0 sl0)) 0) eqn:Hd.
    { exists 0. split; [reflexivity | lra]. }
    apply Qle_bool_false in Hd.
    rewrite py_div_nonzero by lra. cbn [obind].
    rewrite py_div_nonzero by lra. cbn [obind].
    eexists. split; [reflexivity |]. apply Hq. apply Q.le_min_r.
Qed.

Lemma Qabs_nonpos_iff_eq (x : Q) : Qabs x == 0 -> x == 0.
Proof. intros E. apply Qabs_nonpos_iff. lra. Qed.

Lemma compute_qty_on_risk (cfg : Config) (entry sl : Q) (which : string)
    (la : option Q) (bal : Q) (ovr : option Q) :
  POSITION_SIZING cfg = RISK -> 0 < entry -> 0 < Qabs (entry - sl) ->
  compute_qty_on cfg (Some entry) (Some sl) which la bal ovr
  = Returned
      (Qmax
         (Qmin
            (risk_cap_of bal (match ovr with
                              | None => RISK_PER_TRADE_PCT cfg
                              | Some r => r
                              end) * entry / Qabs (entry - sl))
            (max_notional_by_margin_of cfg (avail_margin_of which la bal))
          / entry) 0).
Proof.
  intros Hmode He Hd. unfold compute_qty_on, float_or0.
  assert (E1 : Qle_bool entry 0 = false) by (apply Qle_bool_false; lra).
  assert (E2 : Qle_bool (Qabs (entry - sl)) 0 = false)
    by (apply Qle_bool_false; lra).
  rewrite E1, Hmode, E2.
  rewrite py_div_nonzero by lra. cbn [obind].
  rewrite py_div_nonzero by lra. reflexivity.
Qed.

(** X7: in risk mode, for a positive entry, a stop different from the entry
    and a non-negative balance, the quantity returned by [compute_qty] loses
    at most the risk budget [balance * max(riskPct, 0) / 100] when the stop
    is hit, and so does the quantity after [_floor_to_step], which is never
    larger. *)
Theorem X7_loss_at_stop_within_risk_budget (cfg : Config) (entry sl : Q)
    (which : string) (la : option Q) (bal : Q) (ovr : option Q) (step : Q)
    (Hmode : POSITION_SIZING cfg = RISK)
    (He : 0 < entry) (Hsl : ~ entry == sl) (Hbal : 0 <= bal)
    (Hstep : ~ step == 0) :
  exists q r,
    compute_qty_on cfg (Some entry) (Some sl) which la bal ovr = Returned q
    /\ _floor_to_step q step = Returned r
    /\ 0 <= r /\ r <= q
    /\ q * Qabs (entry - sl)
       <= risk_cap_of bal (match ovr with
                           | None => RISK_PER_TRADE_PCT cfg
                           | Some x => x
                           end)
    /\ r * Qabs (entry - sl)
       <= risk_cap_of bal (match ovr with
                           | None => RISK_PER_TRADE_PCT cfg
                           | Some x => x
                           end).
Proof.
  assert (Hd : 0 < Qabs (entry - sl)).
  { pose proof (Qabs_nonneg (entry - sl)).
    destruct (Qeq_dec (Qabs (entry - sl)) 0) as [E | E]; [| lra].
    apply Qabs_nonpos_iff_eq in E. exfalso. apply Hsl. lra. }
  rewrite (compute_qty_on_risk cfg entry sl which la bal ovr Hmode He Hd).
  set (risk_pct := match ovr with
                   | None => RISK_PER_TRADE_PCT cfg
                   | Some x => x
                   end) in *.
  set (d := Qabs (entry - sl)) in *.
  set (rc := risk_cap_of bal risk_pct) in *.
  set (cap := max_notional_by_margin_of cfg (avail_margin_of which la bal)).
  assert (Hc : 0 <= cap) by apply max_notional_nonneg.
  assert (Hcap : 0 <= rc).
  { unfold rc, risk_cap_of. pose proof (Q.le_max_r risk_pct 0).
    apply Qle_shift_div_l; [reflexivity | nra]. }
  assert (Hn : 0 <= rc * entry / d) by (apply Qle_shift_div_l; nra).
  assert (Hm0 : 0 <= Qmin (rc * entry / d) cap)
    by (apply Q.min_glb; assumption).
  assert (Hm1 : Qmin (rc * entry / d) cap <= rc * entry / d)
    by apply Q.le_min_l.
  set (m := Qmin (rc * entry / d) cap) in *.
  assert (Hq1 : 0 <= m / entry) by (apply Qle_shift_div_l; lra).
  assert (En : rc * entry / d * d == rc * entry) by (field; lra).
  assert (Hmd : m * d <= rc * entry) by nra.
  assert (HY : m / entry * d <= rc).
  { assert (Hgoal : m / entry * d == m * d / entry) by (field; lra).
    rewrite Hgoal. apply Qle_shift_div_r; lra. }
  assert (Hq0 : 0 <= Qmax (m / entry) 0) by apply Q.le_max_r.
  destruct (floor_to_step_le (Qmax (m / entry) 0) step Hq0 Hstep)
    as (r & Hr & Hr0 & Hrq).
  exists (Qmax (m / entry) 0), r. split; [reflexivity |].
  split; [exact Hr |]. split; [exact Hr0 |]. split; [exact Hrq |].
  assert (Hmain : Qmax (m / entry) 0 * d <= rc).
  { destruct (Qmax_split (m / entry) 0) as [[_ E] | [Hle E]].
    - assert (Qmax (m / entry) 0 * d == m / entry * d)
        by (apply Qmult_comp; [exact E | reflexivity]).
      lra.
    - assert (Qmax (m / entry) 0 * d == 0 * d)
        by (apply Qmult_comp; [exact E | reflexivity]).
      lra. }
  split; [exact Hmain | nra].
Qed.

Lemma X7_witness :
  exists q r,
    compute_qty_on default_config (Some 100) (Some 98) "SIM" None 10000 None
    = Returned q
    /\ _floor_to_step q 0.01 = Returned r
    /\ q == 100 /\ r == 100
    /\ r * Qabs (100 - 98) <= risk_cap_of 10000 2.
Proof.
  assert (He : 0 < 100) by reflexivity.
  assert (Hsl : ~ 100 == 98) by (intros H; discriminate H).
  assert (Hbal : 0 <= 10000) by (unfold Qle; simpl; lia).
  assert (Hstep : ~ 0.01 == 0) by (intros H; discriminate H).
  destruct (X7_loss_at_stop_within_risk_budget default_config 100 98 "SIM"
              None 10000 None 0.01 eq_refl He Hsl Hbal Hstep)
    as (q & r & Hq & Hr & _ & _ & _ & Hloss).
  exists q, r. split; [exact Hq |]. split; [exact Hr |].
  vm_compute in Hq. injection Hq as <-.
  vm_compute in Hr. injection Hr as <-.
  split; [reflexivity |]. split; [reflexivity | exact Hloss].
Defined.

(** ** Admission gate *)

Lemma floor_of_zero (step r : Q) : _floor_to_step 0 step = Returned r -> r == 0.
Proof.
  unfold _floor_to_step. destruct (Qeq_bool step 0); [discriminate |].
  intros [= <-].
  assert (E : 0 / step == inject_Z 0) by (unfold Qdiv; ring).
  rewrite (round_down_inject _ _ E). ring.
Qed.

(** X8: what an accepting [pre_trade_gate] guarantees.  With a positive tick
    size in the rules, an accepted proposal keeps its entry, had its prices
    ordered around the entry, had positive available margin and a positive
    entry, and its previewed quantity (sized at the base risk and floored to
    the step) is positive, at least [minQty] and, when a minimum notional is
    set, worth at least that; the returned stop and target are aligned away
    from the entry and therefore still ordered around it. *)
Theorem X8_gate_acceptance (cfg : Config) (ru : SymbolRules) (sd : Side)
    (entry sl tp : Q) (which : string) (s : State) (e' sl' tp' : Q)
    (Htick : 0 < tickSize ru)
    (Hok : pre_trade_gate cfg (Some ru) sd entry sl tp which s = GateOk e' sl' tp') :
  e' = entry
  /\ 0 < entry
  /\ 0 < avail_margin_of which (_available (ACCOUNT_LIVE s))
           (balance (get_account which s))
  /\ (sd = LONG -> sl < entry /\ entry < tp /\ sl' < entry /\ tp <= tp')
  /\ (sd = SHORT -> tp < entry /\ entry < sl /\ tp' < entry /\ sl <= sl')
  /\ exists q r,
       compute_qty cfg (Some entry) (Some sl) which None s = Returned q
       /\ _floor_to_step q (stepSize ru) = Returned r
       /\ 0 < r /\ minQty ru <= r
       /\ (forall mn, minNotional ru = Some mn -> ~ mn == 0 -> mn <= r * entry).
Proof.
  unfold pre_trade_gate in Hok.
  destruct (negb _) eqn:Eord; [discriminate |].
  apply negb_false_iff in Eord.
  destruct (Qle_bool (avail_margin_of _ _ _) 0) eqn:Eav; [discriminate |].
  apply Qle_bool_false in Eav.
  destruct (compute_qty cfg (Some entry) (Some sl) which None s)
    as [q |] eqn:Eq; [| discriminate].
  cbn [obind] in Hok.
  destruct (_floor_to_step q (stepSize ru)) as [r |] eqn:Er; [| discriminate].
  cbn [obind] in Hok.
  destruct (Qle_bool r 0) eqn:Er0; [discriminate |].
  apply Qle_bool_false in Er0.
  destruct (Qlt_bool r (minQty ru)) eqn:Emin; [discriminate |].
  apply Qlt_bool_false in Emin.
  destruct (negb (Qeq_bool (float_or0 (minNotional ru)) 0)
            && Qlt_bool (r * entry) (float_or0 (minNotional ru)))%bool
    eqn:Emn; [discriminate |].
  assert (Hentry : 0 < entry).
  { destruct (Qlt_le_dec 0 entry) as [|Hle]; [assumption |].
    exfalso. unfold compute_qty, compute_qty_on in Eq. simpl float_or0 in Eq.
    assert (E0 : Qle_bool entry 0 = true) by (apply Qle_bool_iff; exact Hle).
    rewrite E0 in Eq. injection Eq as <-.
    pose proof (floor_of_zero _ _ Er). lra. }
  assert (Hdirs :
    exists a b,
      _round_price_to_tick tp (tickSize ru)
        (match sd with LONG => 1 | SHORT => -1 end) = Returned a
      /\ _round_price_to_tick sl (tickSize ru)
           (match sd with LONG => -1 | SHORT => 1 end) = Returned b
      /\ a = tp' /\ b = sl' /\ e' = entry).
  { destruct (_round_price_to_tick tp _ _) as [a |]; [| discriminate].
    cbn [obind] in Hok.
    destruct (_round_price_to_tick sl _ _) as [b |]; [| discriminate].
    cbn [obind] in Hok. simpl in Hok. injection Hok as <- <- <-.
    exists a, b. auto. }
  destruct Hdirs as (a & b & Ha & Hb & <- & <- & ->).
  split; [reflexivity |]. split; [exact Hentry |]. split; [exact Eav |].
  assert (Hdown : forall x, x < entry ->
            forall r0, _round_price_to_tick x (tickSize ru) (-1) = Returned r0 ->
                       r0 < entry).
  { intros x Hx r0 Hr0. destruct (Qlt_le_dec x 0) as [Hneg | Hpos].
    - destruct (round_down_negative x (tickSize ru) (-1) ltac:(lra) Htick
                  ltac:(lia)) as (r1 & Hr1 & H).
      rewrite Hr0 in Hr1. injection Hr1 as <-. lra.
    - destruct (round_down_bounds x (tickSize ru) (-1) Hpos Htick ltac:(lia))
        as (r1 & Hr1 & H & _).
      rewrite Hr0 in Hr1. injection Hr1 as <-. lra. }
  assert (Hup : forall x, entry < x ->
            forall r0, _round_price_to_tick x (tickSize ru) 1 = Returned r0 ->
                       x <= r0).
  { intros x Hx r0 Hr0.
    destruct (round_up_bounds x (tickSize ru) 1 ltac:(lra) Htick ltac:(lia))
      as (r1 & Hr1 & H & _).
    rewrite Hr0 in Hr1. injection Hr1 as <-. exact H. }
  split; [| split].
  - intros ->. apply andb_true_iff in Eord as [E1 E2].
    apply Qlt_bool_true in E1, E2.
    split; [exact E2 |]. split; [exact E1 |].
    split; [apply (Hdown sl E2 b Hb) | apply (Hup tp E1 a Ha)].
  - intros ->. apply andb_true_iff in Eord as [E1 E2].
    apply Qlt_bool_true in E1, E2.
    split; [exact E1 |]. split; [exact E2 |].
    split; [apply (Hdown tp E1 a Ha) | apply (Hup sl E2 b Hb)].
  - exists q, r. split; [reflexivity |]. split; [exact Er |].
    split; [exact Er0 |]. split; [exact Emin |].
    intros mn Hmn Hne. rewrite Hmn in Emn. simpl float_or0 in Emn.
    apply Qeq_bool_false in Hne. rewrite Hne in Emn. simpl in Emn.
    apply Qlt_bool_false in Emn. exact Emn.
Qed.

Lemma X8_witness :
  pre_trade_gate default_config (Some example_rules) LONG 100 98 104 "SIM"
    flat_state = GateOk 100 (9800 # 100) (10400 # 100)
  /\ (9800 # 100) < 100 /\ 104 <= (10400 # 100)
  /\ exists q r,
       compute_qty default_config (Some 100) (Some 98) "SIM" None flat_state
       = Returned q
       /\ _floor_to_step q (stepSize example_rules) = Returned r
       /\ minQty example_rules <= r.
Proof.
  assert (Hok : pre_trade_gate default_config (Some example_rules) LONG 100 98
                  104 "SIM" flat_state = GateOk 100 (9800 # 100) (10400 # 100))
    by (vm_compute; reflexivity).
  assert (Htick : 0 < tickSize example_rules) by reflexivity.
  destruct (X8_gate_acceptance default_config example_rules LONG 100 98 104
              "SIM" flat_state 100 (9800 # 100) (10400 # 100) Htick Hok)
    as (_ & _ & _ & HL & _ & q & r & Hq & Hr & _ & Hmin & _).
  destruct (HL eq_refl) as (_ & _ & H1 & H2).
  split; [exact Hok |]. split; [exact H1 |]. split; [exact H2 |].
  exists q, r. auto.
Defined.

(** The ways the gate turns a proposal down. *)
Example gate_rejections :
  pre_trade_gate default_config None LONG 100 98 104 "SIM" flat_state
  = GateReject GateError
  /\ pre_trade_gate default_config (Some example_rules) LONG 100 101 104 "SIM"
       flat_state = GateReject PriceOrderInvalid
  /\ pre_trade_gate default_config (Some example_rules) SHORT 100 98 104 "SIM"
       flat_state = GateReject PriceOrderInvalid
  /\ pre_trade_gate default_config (Some example_rules) LONG 1000000 1 2000000
       "SIM" flat_state = GateReject QtyPreviewZero
  /\ pre_trade_gate default_config
       (Some {| stepSize := 0; minQty := 0.001; tickSize := 0.01;
                minNotional := None |})
       LONG 100 98 104 "SIM" flat_state = GateReject GateError.
Proof. repeat split; vm_compute; reflexivity. Qed.

(** ** The sample table of the admission model *)

Lemma upper_ascii_idem c : upper_ascii (upper_ascii c) = upper_ascii c.
Proof. destruct c as [[] [] [] [] [] [] [] []]; reflexivity. Qed.

Lemma upper_idem s : upper (upper s) = upper s.
Proof.
  induction s as [| c r IH]; [reflexivity |].
  cbn [upper]. rewrite upper_ascii_idem, IH. reflexivity.
Qed.

Lemma normalize_source_idem w :
  normalize_source (normalize_source w) = normalize_source w.
Proof.
  unfold normalize_source.
  destruct (bool_decide (upper w = "POS1")) eqn:E1; [reflexivity |].
  destruct (bool_decide (upper w = "POS2")) eqn:E2; [reflexivity |].
  rewrite upper_idem, E1, E2. reflexivity.
Qed.

Lemma ok_normalized ml w : _ok ml (normalize_source w) = _ok ml w.
Proof. unfold _ok. rewrite normalize_source_idem. reflexivity. Qed.

Lemma deque_append_length {A} (n : nat) (l : list A) (x : A) :
  (length l <= n -> 0 < n -> length (deque_append n l x) <= n)%nat.
Proof.
  intros Hl Hn. unfold deque_append.
  rewrite length_drop, length_app. cbn [length]. lia.
Qed.

Lemma deque_append_last {A} (n : nat) (l : list A) (x : A) :
  (0 < n)%nat -> last (deque_append n l x) = Some x.
Proof.
  intros Hn. unfold deque_append.
  rewrite drop_app_le by (rewrite length_app; cbn [length]; lia).
  apply last_snoc.
Qed.

Lemma record_close_skipped cfg which sym pnl ret ml :
  _ok ml which = false -> record_close cfg which sym pnl ret ml = ml.
Proof.
  intros H. unfold record_close. rewrite ok_normalized, H. reflexivity.
Qed.

Lemma record_open_skipped which sym x p ml :
  _ok ml which = false -> record_open which sym x p ml = ml.
Proof.
  intros H. unfold record_open. rewrite ok_normalized, H. reflexivity.
Qed.

(** X9: [MLManager.record_close] keeps the books of the admission model.
    With at most 200 entries in [recent]: a source outside [train_sources]
    leaves the manager untouched; for a training source the sample filed
    under the key of [(which, symbol)] is removed from [open_feats] and
    [open_probs] while every other key is kept, [recent] stays within 200
    entries, threshold and training sources are unchanged, and the sample
    counters and the model move only when an open-feature sample was on
    file: then exactly one of [pos_seen], [neg_seen] grows by one and the
    model takes three gradient steps if training is allowed at the new
    count and none otherwise. *)
Theorem X9_record_close_bookkeeping (cfg : Config) (which sym : string)
    (pnl_cash : Q) (ret : option Q) (ml : MLManager)
    (Hrecent : (length (recent ml) <= 200)%nat) :
  let ml' := record_close cfg which sym pnl_cash ret ml in
  let key := ml_key which sym in
  (length (recent ml') <= 200)%nat
  /\ threshold ml' = threshold ml
  /\ train_sources ml' = train_sources ml
  /\ if _ok ml which then
       open_feats ml' !! key = None
       /\ open_probs ml' !! key = None
       /\ (forall k, k <> key ->
             open_feats ml' !! k = open_feats ml !! k
             /\ open_probs ml' !! k = open_probs ml !! k)
       /\ match open_feats ml !! key with
          | None =>
              pos_seen ml' = pos_seen ml /\ neg_seen ml' = neg_seen ml
              /\ model ml' = model ml
          | Some _ =>
              let seen := (pos_seen ml + neg_seen ml + 1)%Z in
              ((pos_seen ml' = pos_seen ml + 1 /\ neg_seen ml' = neg_seen ml)
               \/ (pos_seen ml' = pos_seen ml /\ neg_seen ml' = neg_seen ml + 1))%Z
              /\ n_seen (model ml') =
                   (if can_train_at cfg ml seen
                    then n_seen (model ml) + 3 else n_seen (model ml))%Z
          end
     else ml' = ml.
Proof.
  intros ml' key.
  destruct (_ok ml which) eqn:Hok.
  2:{ subst ml'. rewrite record_close_skipped by exact Hok. auto. }
  subst ml' key. unfold record_close, ml_key.
  rewrite ok_normalized, Hok. cbn [negb].
  set (key := (normalize_source which, upper sym)).
  destruct (open_feats ml !! key) as [x |] eqn:Hx; cbn.
  - split; [| split; [reflexivity | split; [reflexivity |]]].
    { destruct (open_probs ml !! key); [apply deque_append_length; lia | exact Hrecent]. }
    split; [apply lookup_delete_eq |]. split; [apply lookup_delete_eq |].
    split.
    { intros k Hk. split; apply lookup_delete_ne; congruence. }
    unfold can_train_at.
    destruct (label_of pnl_cash ret =? 1)%Z eqn:Hy.
    + split; [left; split; reflexivity |].
      replace (pos_seen ml + 1 + neg_seen ml)%Z
        with (pos_seen ml + neg_seen ml + 1)%Z by lia.
      destruct (AI_ENABLE cfg && _)%bool; cbn; lia.
    + split; [right; split; reflexivity |].
      replace (pos_seen ml + (neg_seen ml + 1))%Z
        with (pos_seen ml + neg_seen ml + 1)%Z by lia.
      destruct (AI_ENABLE cfg && _)%bool; cbn; lia.
  - split; [apply deque_append_length; lia |].
    split; [reflexivity |]. split; [reflexivity |].
    split; [apply lookup_delete_eq |]. split; [apply lookup_delete_eq |].
    split; [| auto].
    intros k Hk. split; apply lookup_delete_ne; congruence.
Qed.

Lemma X9_witness :
  (length (recent trained_ml_with_sample) <= 200)%nat
  /\ open_feats trained_ml_with_sample !! ml_key "LIVE" "BTCUSDT"
     = Some example_feat
  /\ open_feats (record_close ai_config "LIVE" "BTCUSDT" 12 (Some 0.003)
                   trained_ml_with_sample) !! ml_key "LIVE" "BTCUSDT" = None
  /\ n_seen (model (record_close ai_config "LIVE" "BTCUSDT" 12 (Some 0.003)
                      trained_ml_with_sample)) = 33%Z
  /\ record_close ai_config "SIM" "BTCUSDT" 12 (Some 0.003)
       trained_ml_with_sample = trained_ml_with_sample.
Proof.
  assert (Hlen : (length (recent trained_ml_with_sample) <= 200)%nat)
    by (vm_compute; lia).
  assert (Hx : open_feats trained_ml_with_sample !! ml_key "LIVE" "BTCUSDT"
               = Some example_feat) by (vm_compute; reflexivity).
  split; [exact Hlen |]. split; [exact Hx |].
  pose proof (X9_record_close_bookkeeping ai_config "LIVE" "BTCUSDT" 12
                (Some 0.003) trained_ml_with_sample Hlen) as HL.
  pose proof (X9_record_close_bookkeeping ai_config "SIM" "BTCUSDT" 12
                (Some 0.003) trained_ml_with_sample Hlen) as HS.
  cbv zeta in HL, HS.
  destruct HL as (_ & _ & _ & HL). destruct HS as (_ & _ & _ & HS).
  assert (Hok : _ok trained_ml_with_sample "LIVE" = true)
    by (vm_compute; reflexivity).
  assert (Hno : _ok trained_ml_with_sample "SIM" = false)
    by (vm_compute; reflexivity).
  rewrite Hok in HL. rewrite Hno in HS.
  destruct HL as (Hf & _ & _ & Hc). rewrite Hx in Hc.
  destruct Hc as [_ Hn].
  split; [exact Hf |]. split; [| exact HS].
  rewrite Hn. vm_compute. reflexivity.
Defined.

(** X10: a sample goes through the admission model exactly once.  For a
    training source, [record_open] with features [x] and probability [p]
    followed by [record_close] labels that very sample: [(p, y)] is what
    [recent] receives, the counters grow by one, the three gradient steps
    (when training is allowed) are taken on [x] with label [y], and whatever
    was filed before under that key is replaced.  A second [record_close]
    for the same position finds no sample: it adds [(0.5, win/loss)] to
    [recent] and changes neither the counters nor the model. *)
Theorem X10_sample_used_once (cfg : Config) (which sym : string) (x : Feat)
    (p pnl_cash pnl_again : Q) (ret ret_again : option Q) (ml : MLManager)
    (Hok : _ok ml which = true) :
  let y := label_of pnl_cash ret in
  let ml1 := record_open which sym (Some x) (Some p) ml in
  let ml2 := record_close cfg which sym pnl_cash ret ml1 in
  let ml3 := record_close cfg which sym pnl_again ret_again ml2 in
  let seen := (pos_seen ml + neg_seen ml + 1)%Z in
  open_feats ml1 !! ml_key which sym = Some x
  /\ recent ml2 = deque_append 200 (recent ml) (p, y)
  /\ (pos_seen ml2 + neg_seen ml2 = seen)%Z
  /\ (exists w,
        fits (model ml2) =
          fits (model ml) ++
            (if can_train_at cfg ml seen
             then [(x, y, w); (x, y, w); (x, y, w)] else []))
  /\ open_feats ml2 = delete (ml_key which sym) (open_feats ml)
  /\ open_probs ml2 = delete (ml_key which sym) (open_probs ml)
  /\ pos_seen ml3 = pos_seen ml2 /\ neg_seen ml3 = neg_seen ml2
  /\ model ml3 = model ml2
  /\ recent ml3 =
       deque_append 200 (recent ml2)
         (0.5, if Qlt_bool 0 pnl_again then 1%Z else 0%Z).
Proof.
  intros y ml1 ml2 ml3 seen.
  assert (Hok1 : _ok ml1 which = true).
  { subst ml1. unfold record_open. rewrite ok_normalized, Hok. exact Hok. }
  assert (Hx : open_feats ml1 !! ml_key which sym = Some x).
  { subst ml1. unfold record_open, ml_key. rewrite ok_normalized, Hok.
    cbn. apply lookup_insert_eq. }
  assert (Hp : open_probs ml1 !! ml_key which sym = Some p).
  { subst ml1. unfold record_open, ml_key. rewrite ok_normalized, Hok.
    cbn. apply lookup_insert_eq. }
  assert (E2 : ml2 =
    {| threshold := threshold ml; model :=
         (if can_train_at cfg ml
               (if (y =? 1)%Z then pos_seen ml + 1 + neg_seen ml
                else pos_seen ml + (neg_seen ml + 1))%Z
          then
            let w := sample_weight_of y
                       (if (y =? 1)%Z then pos_seen ml + 1 else pos_seen ml)
                       (if (y =? 1)%Z then neg_seen ml else neg_seen ml + 1) in
            partial_fit x y w (partial_fit x y w (partial_fit x y w (model ml)))
          else model ml);
       recent := deque_append 200 (recent ml) (p, y);
       open_feats := delete (ml_key which sym) (open_feats ml);
       open_probs := delete (ml_key which sym) (open_probs ml);
       pos_seen := (if (y =? 1)%Z then pos_seen ml + 1 else pos_seen ml)%Z;
       neg_seen := (if (y =? 1)%Z then neg_seen ml else neg_seen ml + 1)%Z;
       train_sources := train_sources ml;
       train_after_seen := train_after_seen ml |}).
  { unfold ml2, record_close. rewrite ok_normalized, Hok1. cbn [negb].
    fold (ml_key which sym). rewrite Hx, Hp.
    fold y. unfold can_train_at.
    subst ml1. unfold record_open. rewrite ok_normalized, Hok. cbn.
    fold (ml_key which sym). rewrite !delete_insert_eq.
    destruct (y =? 1)%Z; reflexivity. }
  split; [exact Hx |].
  assert (Hseen : (if (y =? 1)%Z then pos_seen ml + 1 + neg_seen ml
                   else pos_seen ml + (neg_seen ml + 1))%Z = seen)
    by (subst seen; destruct (y =? 1)%Z; lia).
  rewrite Hseen in E2.
  split; [rewrite E2; reflexivity |].
  split; [rewrite E2; cbn; subst seen; destruct (y =? 1)%Z; lia |].
  split.
  { rewrite E2. cbn [model].
    exists (sample_weight_of y
              (if (y =? 1)%Z then pos_seen ml + 1 else pos_seen ml)
              (if (y =? 1)%Z then neg_seen ml else neg_seen ml + 1)).
    destruct (can_train_at cfg ml seen); cbn.
    - rewrite <- !app_assoc. reflexivity.
    - rewrite app_nil_r. reflexivity. }
  split; [rewrite E2; reflexivity |].
  split; [rewrite E2; reflexivity |].
  assert (Hok2 : _ok ml2 which = true) by (rewrite E2; exact Hok).
  assert (Hgone : open_feats ml2 !! ml_key which sym = None)
    by (rewrite E2; apply lookup_delete_eq).
  unfold ml3, record_close. rewrite ok_normalized, Hok2. cbn [negb].
  fold (ml_key which sym). rewrite Hgone. cbn. auto.
Qed.

Lemma X10_witness :
  _ok trained_ml "Pos1" = true
  /\ recent (record_close ai_config "Pos1" "btcusdt" 12 (Some 0.003)
               trained_ml_with_sample) = [(0.7, 1%Z)]
  /\ n_seen (model (record_close ai_config "Pos1" "btcusdt" (-3) None
               (record_close ai_config "Pos1" "btcusdt" 12 (Some 0.003)
                  trained_ml_with_sample))) = 33%Z
  /\ recent (record_close ai_config "Pos1" "btcusdt" (-3) None
               (record_close ai_config "Pos1" "btcusdt" 12 (Some 0.003)
                  trained_ml_with_sample)) = [(0.7, 1%Z); (0.5, 0%Z)].
Proof.
  assert (Hok : _ok trained_ml "Pos1" = true) by (vm_compute; reflexivity).
  split; [exact Hok |].
  pose proof (X10_sample_used_once ai_config "Pos1" "btcusdt" example_feat
                0.7 12 (-3) (Some 0.003) None trained_ml Hok) as H.
  cbv zeta in H.
  destruct H as (_ & Hr & _ & _ & _ & _ & _ & _ & Hm & Hr3).
  fold trained_ml_with_sample in Hr, Hm, Hr3.
  split; [rewrite Hr; vm_compute; reflexivity |].
  split; [rewrite Hm; vm_compute; reflexivity |].
  rewrite Hr3, Hr. vm_compute. reflexivity.
Defined.

(** ** Settlement: the remaining components *)

Section SettleMore.
Context (cfg : Config) (env : CloseEnv) (sym reason : string) (px : Q)
        (which : string) (skip_exchange : bool) (st : SymbolState)
        (p : Position) (uid : string) (s : State).

Let s' := settle cfg env sym reason px which skip_exchange st p uid s.
Let net := net_pnl_of cfg which skip_exchange env p px.

Lemma settle_loss_streak :
  _loss_streak_by_sym s'
  = if Qle_bool net 0
    then <[sym := (loss_streak sym s + 1)%Z]> (_loss_streak_by_sym s)
    else <[sym := 0%Z]> (_loss_streak_by_sym s).
Proof.
  subst s' net.
  unfold settle, track_loss_streak, persist_sim_state, append_csv,
    set_account, get_account, loss_streak.
  destruct (Qle_bool _ 0); destruct (is_live which); split_ifs; reflexivity.
Qed.

Lemma settle_suspend_until :
  _suspend_until_ts_by_sym s'
  = if (Qle_bool net 0 && (LOSS_STREAK_LIMIT cfg <=? loss_streak sym s + 1)%Z)%bool
    then <[sym := suspend_now env + LOSS_SUSPEND_SECONDS cfg]>
           (_suspend_until_ts_by_sym s)
    else _suspend_until_ts_by_sym s.
Proof.
  subst s' net. unfold settle.
  match goal with
  | |- context [track_loss_streak cfg env sym ?n ?s7] =>
      assert (E1 : _loss_streak_by_sym s7 = _loss_streak_by_sym s)
        by (unfold persist_sim_state, append_csv, set_account, get_account;
            destruct (is_live which); split_ifs; reflexivity);
      assert (E2 : _suspend_until_ts_by_sym s7 = _suspend_until_ts_by_sym s)
        by (unfold persist_sim_state, append_csv, set_account, get_account;
            destruct (is_live which); split_ifs; reflexivity);
      generalize dependent s7
  end.
  intros s7 E1 E2. unfold track_loss_streak, loss_streak.
  rewrite E1, E2.
  destruct (Qle_bool _ 0); cbn [andb]; [| reflexivity].
  destruct (LOSS_STREAK_LIMIT cfg <=? _)%Z; reflexivity.
Qed.

Lemma settle_OPEN_INFLIGHT :
  OPEN_INFLIGHT s'
  = if is_live which then OPEN_INFLIGHT s ∖ {[sym]} else OPEN_INFLIGHT s.
Proof.
  subst s'.
  unfold settle, track_loss_streak, persist_sim_state, append_csv,
    set_account, get_account.
  destruct (is_live which); split_ifs; reflexivity.
Qed.

Lemma settle_ML :
  ML s'
  = record_close cfg which (symbol st) net
      (Some (net_pct_on_notional_of net p / 100))
      (recover_open_feat which st p (ML s)).
Proof.
  subst s' net.
  unfold settle, track_loss_streak, persist_sim_state, append_csv,
    set_account, get_account.
  destruct (is_live which); split_ifs; reflexivity.
Qed.

Lemma settle_SIM_STATE_DONE : _SIM_STATE_DONE s' = _SIM_STATE_DONE s.
Proof.
  subst s'.
  unfold settle, track_loss_streak, persist_sim_state, append_csv,
    set_account, get_account.
  destruct (is_live which); split_ifs; reflexivity.
Qed.
End SettleMore.

Lemma admitted_loss_tables env which sym p s :
  _loss_streak_by_sym (admitted_state env which sym p s) = _loss_streak_by_sym s
  /\ _suspend_until_ts_by_sym (admitted_state env which sym p s)
     = _suspend_until_ts_by_sym s.
Proof. split; reflexivity. Qed.

(** X11: the loss-streak guard.  A settlement with a net loss (or exactly
    zero) raises the symbol's streak by one, a net gain resets it to zero;
    no other symbol's streak or suspension is touched.  When the raised
    streak reaches [LOSS_STREAK_LIMIT] the symbol is suspended until
    [LOSS_SUSPEND_SECONDS] after the close, so [_can_trade_symbol] refuses
    it at every instant before that; below the limit, and on a gain, the
    suspension table is left as it was, so a gain does not lift a running
    suspension. *)
Theorem X11_loss_streak_guard (cfg : Config) (env : CloseEnv)
    (sym reason : string) (px : Q) (which : string) (skip_exchange : bool)
    (s : State) (st : SymbolState) (p : Position)
    (Hst : SYMAP s !! sym = Some st)
    (Hp : _get_pos st which = Some p)
    (Hnow : (600 <= now_ms env - last_close which sym s)%Z)
    (Hsettles : initial_uid which sym p ∉ _TRAINED_POS_UIDS s
                \/ has_size p = true) :
  exists s',
    close_position_one cfg env sym reason px which skip_exchange s = Returned s'
    /\ let net := net_pnl_of cfg which skip_exchange env p px in
       (forall other, other <> sym ->
          loss_streak other s' = loss_streak other s
          /\ _suspend_until_ts_by_sym s' !! other
             = _suspend_until_ts_by_sym s !! other)
       /\ (0 < net ->
           loss_streak sym s' = 0%Z
           /\ _suspend_until_ts_by_sym s' = _suspend_until_ts_by_sym s)
       /\ (net <= 0 ->
           loss_streak sym s' = (loss_streak sym s + 1)%Z
           /\ ((loss_streak sym s + 1 < LOSS_STREAK_LIMIT cfg)%Z ->
               _suspend_until_ts_by_sym s' = _suspend_until_ts_by_sym s)
           /\ ((LOSS_STREAK_LIMIT cfg <= loss_streak sym s + 1)%Z ->
               forall now,
                 now < suspend_now env + LOSS_SUSPEND_SECONDS cfg ->
                 _can_trade_symbol now sym s' = false)).
Proof.
  eexists. split; [apply (close_settles _ _ _ _ _ _ _ _ _ Hst p Hnow Hp Hsettles) |].
  cbv zeta.
  set (s0 := admitted_state env which sym p s).
  set (net := net_pnl_of cfg which skip_exchange env p px).
  set (s' := settle cfg env sym reason px which skip_exchange st p
               (settle_uid env which sym p s) s0).
  assert (Hk : loss_streak sym s0 = loss_streak sym s) by reflexivity.
  assert (E1 : _loss_streak_by_sym s'
               = if Qle_bool net 0
                 then <[sym := (loss_streak sym s + 1)%Z]> (_loss_streak_by_sym s)
                 else <[sym := 0%Z]> (_loss_streak_by_sym s)).
  { subst s'. rewrite settle_loss_streak. rewrite Hk. reflexivity. }
  assert (E2 : _suspend_until_ts_by_sym s'
               = if (Qle_bool net 0
                     && (LOSS_STREAK_LIMIT cfg <=? loss_streak sym s + 1)%Z)%bool
                 then <[sym := suspend_now env + LOSS_SUSPEND_SECONDS cfg]>
                        (_suspend_until_ts_by_sym s)
                 else _suspend_until_ts_by_sym s).
  { subst s'. rewrite settle_suspend_until. rewrite Hk. reflexivity. }
  clearbody s'. clear Hk. clearbody net.
  split; [| split].
  - intros other Hne. unfold loss_streak. rewrite E1, E2.
    split.
    + destruct (Qle_bool net 0); rewrite lookup_insert_ne by congruence;
        reflexivity.
    + destruct (Qle_bool net 0 && _)%bool; [| reflexivity].
      rewrite lookup_insert_ne by congruence. reflexivity.
  - intros Hpos.
    assert (E : Qle_bool net 0 = false) by (apply Qle_bool_false; exact Hpos).
    rewrite E in E1, E2. cbn [andb] in E2.
    split; [| exact E2].
    unfold loss_streak at 1. rewrite E1, lookup_insert_eq. reflexivity.
  - intros Hneg.
    assert (E : Qle_bool net 0 = true) by (apply Qle_bool_iff; exact Hneg).
    rewrite E in E1, E2. cbn [andb] in E2.
    split; [unfold loss_streak at 1; rewrite E1, lookup_insert_eq; reflexivity |].
    split.
    + intros Hlt. apply Z.leb_gt in Hlt. rewrite Hlt in E2. exact E2.
    + intros Hge now Hlt. apply Z.leb_le in Hge. rewrite Hge in E2.
      unfold _can_trade_symbol. rewrite E2, lookup_insert_eq. cbn [default].
      apply negb_false_iff. apply Qlt_bool_true. exact Hlt.
Qed.

Lemma X11_witness :
  (SYMAP two_losses_state !! "BTCUSDT" = Some open_symbol_state
   /\ _get_pos open_symbol_state "SIM" = Some example_pos
   /\ (600 <= now_ms (example_env 1700000000000)
              - last_close "SIM" "BTCUSDT" two_losses_state)%Z
   /\ has_size example_pos = true)
  /\ exists s',
       close_position_one default_config (example_env 1700000000000)
         "BTCUSDT" "SL hit" 95 "SIM" false two_losses_state = Returned s'
       /\ loss_streak "BTCUSDT" s' = 3%Z
       /\ _can_trade_symbol (1700000000 + 14399) "BTCUSDT" s' = false.
Proof.
  assert (Hst : SYMAP two_losses_state !! "BTCUSDT" = Some open_symbol_state)
    by (vm_compute; reflexivity).
  assert (Hp : _get_pos open_symbol_state "SIM" = Some example_pos)
    by reflexivity.
  assert (Hnow : (600 <= now_ms (example_env 1700000000000)
                         - last_close "SIM" "BTCUSDT" two_losses_state)%Z)
    by (vm_compute; discriminate).
  assert (Hsz : has_size example_pos = true) by reflexivity.
  split; [auto |].
  destruct (X11_loss_streak_guard default_config (example_env 1700000000000)
              "BTCUSDT" "SL hit" 95 "SIM" false two_losses_state
              open_symbol_state example_pos Hst Hp Hnow (or_intror Hsz))
    as (s' & Hc & _ & _ & Hloss).
  assert (Hneg : net_pnl_of default_config "SIM" false
                   (example_env 1700000000000) example_pos 95 <= 0)
    by (vm_compute; discriminate).
  destruct (Hloss Hneg) as (Hk & _ & Hsusp).
  exists s'. split; [exact Hc |]. split; [rewrite Hk; reflexivity |].
  apply Hsusp; [vm_compute; discriminate | vm_compute; reflexivity].
Defined.

Section SettleFile.
Context (cfg : Config) (env : CloseEnv) (sym reason : string) (px : Q)
        (which : string) (skip_exchange : bool) (st : SymbolState)
        (p : Position) (uid : string) (s : State).

Let s' := settle cfg env sym reason px which skip_exchange st p uid s.


Lemma settle_sim_file_kept :
  is_sim which = false \/ persist_ok env = false ->
  sim_state_file s' = sim_state_file s
  /\ _last_state_save s' = _last_state_save s.
Proof.
  intros H. subst s'.
  unfold settle, track_loss_streak, persist_sim_state, append_csv,
    set_account, get_account.
  destruct H as [H | H]; rewrite H; cbn [negb andb];
    destruct (is_live which); split_ifs; split; reflexivity.
Qed.
End SettleFile.

Lemma admitted_frame env which sym p s :
  ACCOUNT_SIM (admitted_state env which sym p s) = ACCOUNT_SIM s
  /\ ACCOUNT_LIVE (admitted_state env which sym p s) = ACCOUNT_LIVE s
  /\ SYMAP (admitted_state env which sym p s) = SYMAP s
  /\ OPEN_INFLIGHT (admitted_state env which sym p s) = OPEN_INFLIGHT s
  /\ ML (admitted_state env which sym p s) = ML s
  /\ sim_state_file (admitted_state env which sym p s) = sim_state_file s
  /\ _last_state_save (admitted_state env which sym p s) = _last_state_save s.
Proof. repeat split; reflexivity. Qed.



(** ** What a close teaches the admission model *)

Lemma record_close_counts cfg which sym pnl ret ml x :
  _ok ml which = true ->
  open_feats ml !! ml_key which sym = Some x ->
  (pos_seen (record_close cfg which sym pnl ret ml)
   + neg_seen (record_close cfg which sym pnl ret ml)
   = pos_seen ml + neg_seen ml + 1)%Z.
Proof.
  intros Hok Hx. unfold record_close. rewrite ok_normalized, Hok. cbn [negb].
  fold (ml_key which sym). rewrite Hx. cbn.
  destruct (label_of pnl ret =? 1)%Z; lia.
Qed.

Lemma record_close_no_sample cfg which sym pnl ret ml :
  _ok ml which = true ->
  open_feats ml !! ml_key which sym = None ->
  pos_seen (record_close cfg which sym pnl ret ml) = pos_seen ml
  /\ neg_seen (record_close cfg which sym pnl ret ml) = neg_seen ml
  /\ model (record_close cfg which sym pnl ret ml) = model ml
  /\ recent (record_close cfg which sym pnl ret ml)
     = deque_append 200 (recent ml)
         (0.5, if Qlt_bool 0 pnl then 1%Z else 0%Z).
Proof.
  intros Hok Hx. unfold record_close. rewrite ok_normalized, Hok. cbn [negb].
  fold (ml_key which sym). rewrite Hx. cbn. auto.
Qed.

Lemma record_close_removes cfg which sym pnl ret ml :
  _ok ml which = true ->
  open_feats (record_close cfg which sym pnl ret ml) !! ml_key which sym = None.
Proof.
  intros Hok. unfold record_close. rewrite ok_normalized, Hok. cbn [negb].
  fold (ml_key which sym).
  destruct (open_feats ml !! ml_key which sym); cbn; apply lookup_delete_eq.
Qed.

Lemma normalize_live which :
  is_live which = true -> normalize_source which = "LIVE".
Proof.
  unfold is_live, normalize_source. intros H.
  apply bool_decide_eq_true in H. rewrite H. reflexivity.
Qed.

Lemma normalize_sim which :
  is_sim which = true -> normalize_source which = "SIM".
Proof.
  unfold is_sim, normalize_source. intros H.
  apply bool_decide_eq_true in H. rewrite H. reflexivity.
Qed.

Lemma record_open_frame which sym x p ml :
  pos_seen (record_open which sym x p ml) = pos_seen ml
  /\ neg_seen (record_open which sym x p ml) = neg_seen ml
  /\ model (record_open which sym x p ml) = model ml
  /\ recent (record_open which sym x p ml) = recent ml
  /\ train_sources (record_open which sym x p ml) = train_sources ml.
Proof.
  unfold record_open. destruct (negb _); repeat split; reflexivity.
Qed.

Lemma record_close_fits cfg which sym pnl ret ml x :
  _ok ml which = true ->
  open_feats ml !! ml_key which sym = Some x ->
  exists w,
    fits (model (record_close cfg which sym pnl ret ml))
    = fits (model ml)
      ++ (if can_train_at cfg ml (pos_seen ml + neg_seen ml + 1)
          then [(x, label_of pnl ret, w); (x, label_of pnl ret, w);
                (x, label_of pnl ret, w)]
          else []).
Proof.
  intros Hok Hx. unfold record_close. rewrite ok_normalized, Hok. cbn [negb].
  fold (ml_key which sym). rewrite Hx. cbn [model]. unfold can_train_at.
  set (y := label_of pnl ret).
  exists (sample_weight_of y
            (if (y =? 1)%Z then pos_seen ml + 1 else pos_seen ml)
            (if (y =? 1)%Z then neg_seen ml else neg_seen ml + 1)).
  assert (E : ((if (y =? 1)%Z then pos_seen ml + 1 else pos_seen ml)
               + (if (y =? 1)%Z then neg_seen ml else neg_seen ml + 1)
               = pos_seen ml + neg_seen ml + 1)%Z)
    by (destruct (y =? 1)%Z; lia).
  rewrite E.
  destruct (AI_ENABLE cfg && _)%bool; cbn.
  - rewrite <- !app_assoc. reflexivity.
  - rewrite app_nil_r. reflexivity.
Qed.

Lemma recover_open_feat_sample which st p ml :
  is_live which = true ->
  "LIVE" ∈ train_sources ml ->
  upper (symbol st) = symbol st ->
  _ok (recover_open_feat which st p ml) which = true
  /\ open_feats (recover_open_feat which st p ml) !! ml_key which (symbol st)
     = close_sample which st p ml
  /\ pos_seen (recover_open_feat which st p ml) = pos_seen ml
  /\ neg_seen (recover_open_feat which st p ml) = neg_seen ml
  /\ model (recover_open_feat which st p ml) = model ml
  /\ recent (recover_open_feat which st p ml) = recent ml
  /\ train_after_seen (recover_open_feat which st p ml) = train_after_seen ml.
Proof.
  intros Hlive Hsrc Hup.
  assert (Hn : normalize_source which = "LIVE") by (apply normalize_live; exact Hlive).
  assert (Hu : upper which = "LIVE")
    by (apply bool_decide_eq_true in Hlive; exact Hlive).
  assert (Hok : _ok ml which = true).
  { unfold _ok. rewrite Hn. apply bool_decide_eq_true_2. exact Hsrc. }
  unfold recover_open_feat, close_sample, ml_key. rewrite Hn, Hu, Hup.
  destruct (open_feats ml !! ("LIVE", symbol st)) as [f |] eqn:Ef.
  { rewrite Ef. auto 10. }
  destruct (ml_feat p) as [f |].
  - unfold record_open. rewrite ok_normalized, Hok, Hn, Hup. cbn.
    rewrite lookup_insert_eq. unfold _ok. cbn. rewrite Hn.
    split; [apply bool_decide_eq_true_2; exact Hsrc | auto 10].
  - destruct (features_now st) as [f |].
    + unfold record_open. rewrite ok_normalized, Hok, Hn, Hup. cbn.
      rewrite lookup_insert_eq. unfold _ok. cbn. rewrite Hn.
      split; [apply bool_decide_eq_true_2; exact Hsrc | auto 10].
    + rewrite Ef. auto 10.
Qed.

(** X13: what a LIVE settlement does besides the ledger.  With LIVE among
    the training sources and an upper-case symbol, a LIVE settlement
    releases the symbol's in-flight marker, leaves the snapshot file of the
    simulated account alone, and hands the model exactly one sample when
    features can be found (on file for the position, else stored in the
    position, else taken from the symbol state): the sample counters grow
    by one, the gradient steps (when training is allowed) are taken on
    those features with the label of the net result, and no sample stays on
    file.  When no features can be found the counters and the model are
    unchanged and only [recent] receives [(0.5, win/loss)]. *)
Theorem X13_live_close_releases_and_trains (cfg : Config) (env : CloseEnv)
    (sym reason : string) (px : Q) (which : string) (skip_exchange : bool)
    (s : State) (st : SymbolState) (p : Position)
    (Hst : SYMAP s !! sym = Some st)
    (Hp : _get_pos st which = Some p)
    (Hnow : (600 <= now_ms env - last_close which sym s)%Z)
    (Hsettles : initial_uid which sym p ∉ _TRAINED_POS_UIDS s
                \/ has_size p = true)
    (Hlive : is_live which = true)
    (Hsrc : "LIVE" ∈ train_sources (ML s))
    (Hup : upper (symbol st) = symbol st) :
  exists s',
    close_position_one cfg env sym reason px which skip_exchange s = Returned s'
    /\ OPEN_INFLIGHT s' = OPEN_INFLIGHT s ∖ {[sym]}
    /\ sim_state_file s' = sim_state_file s
    /\ open_feats (ML s') !! ml_key which (symbol st) = None
    /\ let net := net_pnl_of cfg which skip_exchange env p px in
       let y := label_of net (Some (net_pct_on_notional_of net p / 100)) in
       let seen := (pos_seen (ML s) + neg_seen (ML s) + 1)%Z in
       match close_sample which st p (ML s) with
       | Some x =>
           (pos_seen (ML s') + neg_seen (ML s') = seen)%Z
           /\ exists w,
                fits (model (ML s'))
                = fits (model (ML s))
                  ++ (if can_train_at cfg (ML s) seen
                      then [(x, y, w); (x, y, w); (x, y, w)] else [])
       | None =>
           pos_seen (ML s') = pos_seen (ML s)
           /\ neg_seen (ML s') = neg_seen (ML s)
           /\ model (ML s') = model (ML s)
           /\ recent (ML s')
              = deque_append 200 (recent (ML s))
                  (0.5, if Qlt_bool 0 net then 1%Z else 0%Z)
       end.
Proof.
  eexists. split; [apply (close_settles _ _ _ _ _ _ _ _ _ Hst p Hnow Hp Hsettles) |].
  destruct (admitted_frame env which sym p s)
    as (_ & _ & _ & Ei & Eml & Ef & _).
  set (s0 := admitted_state env which sym p s) in *.
  rewrite settle_OPEN_INFLIGHT, settle_ML, Hlive, Ei, Eml.
  destruct (settle_sim_file_kept cfg env sym reason px which skip_exchange st p
              (settle_uid env which sym p s) s0
              (or_introl (is_live_not_sim _ Hlive))) as [Hfile _].
  rewrite Hfile, Ef.
  split; [reflexivity |]. split; [reflexivity |].
  destruct (recover_open_feat_sample which st p (ML s) Hlive Hsrc Hup)
    as (Hok & Hx & Hpos & Hneg & Hmod & Hrec & Hafter).
  set (rml := recover_open_feat which st p (ML s)) in *.
  split; [apply record_close_removes; exact Hok |].
  cbv zeta.
  set (net := net_pnl_of cfg which skip_exchange env p px).
  set (ret := Some (net_pct_on_notional_of net p / 100)).
  destruct (close_sample which st p (ML s)) as [x |].
  - split.
    + rewrite (record_close_counts cfg which (symbol st) net ret rml x Hok Hx).
      rewrite Hpos, Hneg. reflexivity.
    + destruct (record_close_fits cfg which (symbol st) net ret rml x Hok Hx)
        as (w & Hw).
      exists w. rewrite Hw, Hmod, Hpos, Hneg.
      unfold can_train_at. rewrite Hafter. reflexivity.
  - destruct (record_close_no_sample cfg which (symbol st) net ret rml Hok Hx)
      as (H1 & H2 & H3 & H4).
    rewrite H1, H2, H3, H4, Hpos, Hneg, Hmod, Hrec. auto.
Qed.

Lemma X13_witness :
  (SYMAP live_inflight_state !! "BTCUSDT" = Some live_symbol_state
   /\ _get_pos live_symbol_state "LIVE" = Some example_live_pos
   /\ (600 <= now_ms (example_env 1700000000000)
              - last_close "LIVE" "BTCUSDT" live_inflight_state)%Z
   /\ has_size example_live_pos = true
   /\ is_live "LIVE" = true
   /\ "LIVE" ∈ train_sources (ML live_inflight_state)
   /\ upper (symbol live_symbol_state) = symbol live_symbol_state)
  /\ exists s',
       close_position_one default_config (example_env 1700000000000)
         "BTCUSDT" "TP hit" 110 "LIVE" false live_inflight_state = Returned s'
       /\ "BTCUSDT" ∈ OPEN_INFLIGHT live_inflight_state
       /\ ("BTCUSDT" ∉ OPEN_INFLIGHT s')
       /\ (pos_seen (ML s') + neg_seen (ML s') = 1)%Z.
Proof.
  assert (Hst : SYMAP live_inflight_state !! "BTCUSDT" = Some live_symbol_state)
    by (vm_compute; reflexivity).
  assert (Hp : _get_pos live_symbol_state "LIVE" = Some example_live_pos)
    by reflexivity.
  assert (Hnow : (600 <= now_ms (example_env 1700000000000)
                         - last_close "LIVE" "BTCUSDT" live_inflight_state)%Z)
    by (vm_compute; discriminate).
  assert (Hsz : has_size example_live_pos = true) by reflexivity.
  assert (Hlive : is_live "LIVE" = true) by reflexivity.
  assert (Hsrc : "LIVE" ∈ train_sources (ML live_inflight_state))
    by (change ("LIVE" ∈ ({["LIVE"]} : gset string)); set_solver).
  assert (Hup : upper (symbol live_symbol_state) = symbol live_symbol_state)
    by reflexivity.
  split; [repeat split; assumption |].
  destruct (X13_live_close_releases_and_trains default_config
              (example_env 1700000000000) "BTCUSDT" "TP hit" 110 "LIVE" false
              live_inflight_state live_symbol_state example_live_pos
              Hst Hp Hnow (or_intror Hsz) Hlive Hsrc Hup)
    as (s' & Hc & Hi & _ & _ & Hml).
  exists s'. split; [exact Hc |].
  split; [change ("BTCUSDT" ∈ ({["BTCUSDT"]} : gset string)); set_solver |].
  split; [rewrite Hi; apply not_elem_of_difference; right;
          apply elem_of_singleton; reflexivity |].
  cbv zeta in Hml.
  change (close_sample "LIVE" live_symbol_state example_live_pos
            (ML live_inflight_state)) with (Some example_feat) in Hml.
  destruct Hml as [Hcount _]. rewrite Hcount. reflexivity.
Defined.

(** ** Trailing stop *)

Lemma trail_candidate_long (tc : TrailConfig) (entry cur_sl px atr_val : Q) :
  0 < TRAIL_R_MULT_TRIGGER tc -> 0 < TRAIL_STEP_ATR tc -> 0 < atr_val ->
  0 < Qabs (entry - cur_sl) ->
  cur_sl < trail_candidate tc LONG entry cur_sl px atr_val ->
  TRAIL_R_MULT_TRIGGER tc * Qabs (entry - cur_sl) <= px - entry
  /\ trail_candidate tc LONG entry cur_sl px atr_val < px.
Proof.
  intros Htr Hst Hatr HR. unfold trail_candidate. cbn [sign_of].
  set (R := Qabs (entry - cur_sl)) in *.
  destruct (Qle_bool (TRAIL_R_MULT_TRIGGER tc * R) ((px - entry) * 1)) eqn:E.
  2:{ intros H. lra. }
  apply Qle_bool_iff in E.
  assert (Hmove : 0 < px - entry) by nra.
  intros H. split; [lra |].
  destruct (Qmax_split cur_sl entry) as [[H1 E1] | [H1 E1]];
    destruct (Qle_bool (2 * R) ((px - entry) * 1));
    try destruct (Qmax_split (Qmax cur_sl entry)
                    (px - TRAIL_STEP_ATR tc * atr_val)) as [[H2 E2] | [H2 E2]];
    nra.
Qed.

Lemma trail_candidate_short (tc : TrailConfig) (entry cur_sl px atr_val : Q) :
  0 < TRAIL_R_MULT_TRIGGER tc -> 0 < TRAIL_STEP_ATR tc -> 0 < atr_val ->
  0 < Qabs (entry - cur_sl) ->
  trail_candidate tc SHORT entry cur_sl px atr_val < cur_sl ->
  TRAIL_R_MULT_TRIGGER tc * Qabs (entry - cur_sl) <= entry - px
  /\ px < trail_candidate tc SHORT entry cur_sl px atr_val.
Proof.
  intros Htr Hst Hatr HR. unfold trail_candidate. cbn [sign_of].
  set (R := Qabs (entry - cur_sl)) in *.
  destruct (Qle_bool (TRAIL_R_MULT_TRIGGER tc * R) ((px - entry) * -1)) eqn:E.
  2:{ intros H. lra. }
  apply Qle_bool_iff in E.
  assert (Hmove : 0 < entry - px) by nra.
  intros H. split; [lra |].
  destruct (Qmin_cases cur_sl entry) as [[H1 E1] | [H1 E1]];
    destruct (Qle_bool (2 * R) ((px - entry) * -1));
    try destruct (Qmin_cases (Qmin cur_sl entry)
                    (px + TRAIL_STEP_ATR tc * atr_val)) as [[H2 E2] | [H2 E2]];
    nra.
Qed.

Lemma round_price_total (price tick : Q) (direction : Z) :
  0 < tick -> exists r, _round_price_to_tick price tick direction = Returned r.
Proof.
  intros Ht.
  destruct (round_price_returns price tick direction) as (k & E & _);
    [lra | eauto].
Qed.

Lemma round_down_below (price tick bound : Q) :
  0 < tick -> 0 < bound -> price < bound ->
  exists r, _round_price_to_tick price tick (-1) = Returned r /\ r < bound.
Proof.
  intros Ht Hb Hlt.
  destruct (Qlt_le_dec price 0) as [Hneg | Hpos].
  - destruct (round_down_negative price tick (-1)) as (r & E & Hr);
      [lra | exact Ht | lia |].
    exists r. split; [exact E | lra].
  - destruct (round_down_bounds price tick (-1) Hpos Ht) as (r & E & Hr & _);
      [lia |].
    exists r. split; [exact E | lra].
Qed.

Lemma trail_align_long (new_sl px tick : Q) :
  0 < px -> new_sl < px ->
  exists n, trail_align LONG new_sl px tick = Returned n /\ n < px.
Proof.
  intros Hpx Hlt. unfold trail_align.
  destruct (Qlt_bool 0 tick) eqn:Et; [| eauto].
  apply Qlt_bool_true in Et.
  destruct (round_down_below new_sl tick px Et Hpx Hlt) as (n1 & E1 & H1).
  rewrite E1. cbn [obind].
  destruct (Qle_bool (px - tick) n1); [| eauto].
  apply round_down_below; lra.
Qed.

Lemma trail_align_short (new_sl px tick : Q) :
  0 < px -> px < new_sl ->
  exists n, trail_align SHORT new_sl px tick = Returned n /\ px < n.
Proof.
  intros Hpx Hlt. unfold trail_align.
  destruct (Qlt_bool 0 tick) eqn:Et; [| eauto].
  apply Qlt_bool_true in Et.
  destruct (round_up_bounds new_sl tick 1) as (n1 & E1 & H1 & _);
    [lra | exact Et | lia |].
  rewrite E1. cbn [obind].
  destruct (Qle_bool n1 (px + tick)).
  - destruct (round_up_bounds (px + tick) tick 1) as (n & E & H & _);
      [lra | exact Et | lia |].
    exists n. split; [exact E | lra].
  - exists n1. split; [reflexivity | lra].
Qed.

Lemma trail_align_total (sd : Side) (new_sl px tick : Q) :
  exists n, trail_align sd new_sl px tick = Returned n.
Proof.
  unfold trail_align.
  destruct (Qlt_bool 0 tick) eqn:Et; [| eauto].
  apply Qlt_bool_true in Et.
  destruct sd.
  - destruct (round_price_total new_sl tick (-1) Et) as (n1 & E1).
    rewrite E1. cbn [obind].
    destruct (Qle_bool (px - tick) n1); [| eauto].
    apply round_price_total; exact Et.
  - destruct (round_price_total new_sl tick 1 Et) as (n1 & E1).
    rewrite E1. cbn [obind].
    destruct (Qle_bool n1 (px + tick)); [| eauto].
    apply round_price_total; exact Et.
Qed.

(** X14: the simulated trailing stop only tightens.  [_update_sim_trailing]
    always returns; it never touches the LIVE position, the symbol or the
    last price, and it either leaves the simulated position as it is or
    replaces only its stop.  A replaced stop is strictly tighter than the
    old one (higher for a LONG, lower for a SHORT), and, with a positive
    trigger multiple, a positive ATR step and a positive last price, it is
    set only after the price has moved the trigger multiple of the current
    risk in favour and it stays on the losing side of the last price, so the
    stop test that follows on the same tick does not fire on it. *)
Theorem X14_trailing_stop_only_tightens (tc : TrailConfig) (which : string)
    (candles : list Candle) (rules : option SymbolRules) (st : SymbolState) :
  exists st',
    _update_sim_trailing tc which candles rules st = Returned st'
    /\ symbol st' = symbol st
    /\ last_price st' = last_price st
    /\ position_live st' = position_live st
    /\ (position_sim st' = position_sim st
        \/ exists p px new_sl,
             is_sim which = true
             /\ position_sim st = Some p
             /\ last_price st = Some px
             /\ position_sim st' = Some (with_sl new_sl p)
             /\ ~ float_or0 (sl p) == 0
             /\ match side p with
                | LONG => float_or0 (sl p) < new_sl
                | SHORT => new_sl < float_or0 (sl p)
                end
             /\ (0 < TRAIL_R_MULT_TRIGGER tc -> 0 < TRAIL_STEP_ATR tc ->
                 0 < px ->
                 TRAIL_R_MULT_TRIGGER tc * Qabs (entry p - float_or0 (sl p))
                   <= (px - entry p) * sign_of (side p)
                 /\ match side p with
                    | LONG => new_sl < px
                    | SHORT => px < new_sl
                    end
                 /\ tp_sl_hit (with_sl new_sl p) px
                    = match tp_sl_hit p px with
                      | Some (TagTP, v) => Some (TagTP, v)
                      | _ => None
                      end)).
Proof.
  unfold _update_sim_trailing.
  destruct (is_sim which) eqn:Hsim; cbn [negb orb]; [| eauto 10].
  destruct (TRAIL_ENABLE tc); cbn [negb]; [| eauto 10].
  assert (Hget : _get_pos st which = position_sim st).
  { unfold _get_pos. rewrite (is_sim_not_live _ Hsim). reflexivity. }
  rewrite Hget.
  destruct (position_sim st) as [p |] eqn:Hp; [| eauto 10].
  destruct (last_price st) as [px |] eqn:Hpx; [| eauto 10].
  set (cur := float_or0 (sl p)).
  destruct (Qeq_bool cur 0) eqn:Hz; [eauto 10 |].
  apply Qeq_bool_false in Hz.
  destruct (atr_wilder_14_returns candles) as (a & Ea). rewrite Ea.
  cbn [obind].
  destruct a as [atr_val |]; [| eauto 10].
  destruct (Qle_bool atr_val 0) eqn:Hatr; [eauto 10 |].
  apply Qle_bool_false in Hatr.
  destruct (Qle_bool (Qabs (entry p - cur)) 0) eqn:HR; [eauto 10 |].
  apply Qle_bool_false in HR.
  set (cand := trail_candidate tc (side p) (entry p) cur px atr_val).
  destruct (tighter (side p) cur cand) eqn:Ht1; cbn [negb]; [| eauto 10].
  set (tick := match rules with Some r => tickSize r | None => 0 end).
  destruct (trail_align_total (side p) cand px tick) as (n & En).
  rewrite En. cbn [obind].
  destruct (tighter (side p) cur n) eqn:Ht2; cbn [negb]; [| eauto 10].
  eexists. split; [reflexivity |].
  unfold _set_pos. rewrite (is_sim_not_live _ Hsim). cbn.
  split; [reflexivity |]. split; [exact Hpx |]. split; [reflexivity |].
  right. exists p, px, n.
  split; [reflexivity |]. split; [reflexivity |]. split; [reflexivity |].
  split; [reflexivity |]. split; [exact Hz |].
  split.
  { unfold tighter in Ht2. destruct (side p);
      apply Qlt_bool_true in Ht2; exact Ht2. }
  intros Htr Hstep Hpos.
  subst cand. unfold tighter in Ht1, Ht2.
  assert (Hsl : float_or0 (sl (with_sl n p)) = n) by reflexivity.
  unfold tp_sl_hit. rewrite Hsl.
  change (side (with_sl n p)) with (side p).
  change (tp (with_sl n p)) with (tp p).
  fold cur.
  destruct (side p); apply Qlt_bool_true in Ht1; apply Qlt_bool_true in Ht2.
  - destruct (trail_candidate_long tc (entry p) cur px atr_val
                Htr Hstep Hatr HR Ht1) as [Hmove Hlt].
    destruct (trail_align_long _ px tick Hpos Hlt) as (n' & En' & Hn').
    rewrite En in En'. injection En' as <-.
    cbn [sign_of]. split; [rewrite Qmult_1_r; exact Hmove |].
    split; [exact Hn' |].
    assert (E1 : Qle_bool px n = false) by (apply Qle_bool_false; exact Hn').
    assert (E2 : Qle_bool px cur = false) by (apply Qle_bool_false; lra).
    rewrite E1, E2, !andb_false_r.
    destruct (negb (Qeq_bool (float_or0 (tp p)) 0)
              && Qle_bool (float_or0 (tp p)) px)%bool; reflexivity.
  - destruct (trail_candidate_short tc (entry p) cur px atr_val
                Htr Hstep Hatr HR Ht1) as [Hmove Hlt].
    destruct (trail_align_short _ px tick Hpos Hlt) as (n' & En' & Hn').
    rewrite En in En'. injection En' as <-.
    cbn [sign_of].
    split; [eapply Qle_trans; [exact Hmove | lra] |].
    split; [exact Hn' |].
    assert (E1 : Qle_bool n px = false) by (apply Qle_bool_false; exact Hn').
    assert (E2 : Qle_bool cur px = false) by (apply Qle_bool_false; lra).
    rewrite E1, E2, !andb_false_r.
    destruct (negb (Qeq_bool (float_or0 (tp p)) 0)
              && Qle_bool px (float_or0 (tp p)))%bool; reflexivity.
Qed.

(** The example long (entry 100, stop 98): at 101 nothing moves, at 103 the
    stop goes to break-even, at 105 it trails 0.75 ATR behind the price. *)
Example trailing_examples :
  _update_sim_trailing default_trail_config "SIM" steady_candles
    (Some example_rules) (priced_symbol_state 101)
  = Returned (priced_symbol_state 101)
  /\ (exists n,
        (st' <~ _update_sim_trailing default_trail_config "SIM" steady_candles
                  (Some example_rules) (priced_symbol_state 103) ;;
         Returned (position_sim st'))
        = Returned (Some (with_sl n example_pos)) /\ n == 100)
  /\ (exists n,
        (st' <~ _update_sim_trailing default_trail_config "SIM" steady_candles
                  (Some example_rules) (priced_symbol_state 105) ;;
         Returned (position_sim st'))
        = Returned (Some (with_sl n example_pos)) /\ n == 104.25)
  /\ _update_sim_trailing default_trail_config "LIVE" steady_candles
       (Some example_rules) (priced_symbol_state 105)
     = Returned (priced_symbol_state 105).
Proof.
  split; [vm_compute; reflexivity |].
  split; [eexists; split; [vm_compute; reflexivity | vm_compute; reflexivity] |].
  split; [eexists; split; [vm_compute; reflexivity | vm_compute; reflexivity] |].
  vm_compute. reflexivity.
Qed.

(** ** Slots *)

Lemma pos_count_active_ext (syms : list string) (which : string)
    (s1 s2 : State) :
  SYMAP s1 = SYMAP s2 ->
  pos_count_active syms which s1 = pos_count_active syms which s2.
Proof.
  intros E. induction syms as [| sym rest IH]; [reflexivity |].
  cbn [pos_count_active]. rewrite E, IH. reflexivity.
Qed.

Lemma pos_count_active_bounds (syms : list string) (which : string)
    (s : State) (n : Z) :
  pos_count_active syms which s = Returned n ->
  (0 <= n <= Z.of_nat (length syms))%Z.
Proof.
  revert n. induction syms as [| sym rest IH]; intros n H.
  - injection H as <-. cbn. lia.
  - cbn [pos_count_active] in H.
    destruct (SYMAP s !! sym) as [st |]; [| discriminate].
    destruct (pos_count_active rest which s) as [m | e]; [| discriminate].
    cbn [obind] in H. specialize (IH m eq_refl).
    cbn [length]. destruct (_get_pos st which); injection H as <-; lia.
Qed.

Lemma pos_count_active_raises (syms : list string) (which : string)
    (s : State) (e : exn) :
  pos_count_active syms which s = Raised e ->
  e = KeyError /\ exists sym, sym ∈ syms /\ SYMAP s !! sym = None.
Proof.
  induction syms as [| sym rest IH]; intros H; [discriminate |].
  cbn [pos_count_active] in H.
  destruct (SYMAP s !! sym) as [st |] eqn:Est.
  - destruct (pos_count_active rest which s) as [m | e']; [discriminate |].
    cbn [obind] in H. injection H as ->.
    destruct (IH eq_refl) as (He & x & Hx & Hnone).
    split; [exact He |]. exists x. split; [right; exact Hx | exact Hnone].
  - injection H as <-. split; [reflexivity |].
    exists sym. split; [left | exact Est].
Qed.

Lemma pos_count_active_total (syms : list string) (which : string)
    (s : State) :
  (forall sym, sym ∈ syms -> is_Some (SYMAP s !! sym)) ->
  exists n, pos_count_active syms which s = Returned n.
Proof.
  intros Hall.
  destruct (pos_count_active syms which s) as [n | e] eqn:E; [eauto |].
  destruct (pos_count_active_raises _ _ _ _ E) as (_ & x & Hx & Hnone).
  destruct (Hall x Hx) as [st Hst]. congruence.
Qed.

Lemma size_add_inflight (sym : string) (g : gset string) :
  (size ({[sym]} ∪ g) <= 1 + size g)%nat.
Proof.
  rewrite size_union_alt, size_singleton.
  assert (Hsub : g ∖ {[sym]} ⊆ g)
    by (intros x Hx; apply elem_of_difference in Hx; tauto).
  pose proof (subseteq_size _ _ Hsub). lia.
Qed.

(** X15: the slot check of [place_order].  A refusal leaves the state as it
    is.  An admission changes nothing but the in-flight set, to which the
    symbol is added when a LIVE order is to be placed; it is granted only if
    (under one position per symbol) the symbol has neither a position on the
    displayed account nor an in-flight mark, and (with a slot limit) the
    open positions of the displayed account, plus the in-flight marks when
    that account is LIVE, are below the limit, so that positions and marks
    together stay within the limit after the admission.  With one position
    per symbol and a LIVE order to place, asking again for the same tracked
    symbol right after an admission is refused as blocked. *)
Theorem X15_admission_reserves_slot (oc : OrderConfig) (syms : list string)
    (sym : string) (s s' : State) (a : admission)
    (Hret : place_order_admission oc syms sym s = Returned (a, s')) :
  (a <> Granted -> s' = s)
  /\ (a = Granted ->
      s' = (if mode_has_live oc
            then with_OPEN_INFLIGHT ({[sym]} ∪ OPEN_INFLIGHT s) s else s)
      /\ (ONE_POS_PER_SYMBOL oc = true ->
          symbol_is_blocked sym (SHOW_ACCOUNT oc) s = false)
      /\ (MAX_CONCURRENT_POS oc <> 0%Z ->
          exists n,
            pos_count_active syms (SHOW_ACCOUNT oc) s = Returned n
            /\ (n < MAX_CONCURRENT_POS oc)%Z
            /\ (is_live (SHOW_ACCOUNT oc) = true ->
                (n + Z.of_nat (size (OPEN_INFLIGHT s)) < MAX_CONCURRENT_POS oc
                 /\ n + Z.of_nat (size (OPEN_INFLIGHT s'))
                    <= MAX_CONCURRENT_POS oc)%Z))
      /\ (ONE_POS_PER_SYMBOL oc = true -> mode_has_live oc = true ->
          is_Some (SYMAP s !! sym) ->
          place_order_admission oc syms sym s' = Returned (Blocked, s'))).
Proof.
  unfold place_order_admission in Hret.
  destruct (ONE_POS_PER_SYMBOL oc && symbol_is_blocked sym (SHOW_ACCOUNT oc) s)%bool
    eqn:Hblk.
  { injection Hret as <- <-. split; [reflexivity | discriminate]. }
  destruct (MAX_CONCURRENT_POS oc =? 0)%Z eqn:Hmax.
  - cbn [obind] in Hret.
    assert (Hs' : a = Granted
                  /\ s' = (if mode_has_live oc
                           then with_OPEN_INFLIGHT ({[sym]} ∪ OPEN_INFLIGHT s) s
                           else s)).
    { destruct (mode_has_live oc); injection Hret as <- <-; auto. }
    destruct Hs' as [-> Hs']. split; [congruence |]. intros _.
    split; [exact Hs' |]. split.
    { intros H1. rewrite H1 in Hblk. exact Hblk. }
    split.
    { intros Hne. apply Z.eqb_eq in Hmax. contradiction. }
    intros H1 Hlive [st Hst]. rewrite Hlive in Hs'. subst s'.
    unfold place_order_admission, symbol_is_blocked.
    cbn [SYMAP OPEN_INFLIGHT with_OPEN_INFLIGHT]. rewrite H1, Hst.
    rewrite (bool_decide_eq_true_2 (sym ∈ {[sym]} ∪ OPEN_INFLIGHT s))
      by (apply elem_of_union_l, elem_of_singleton; reflexivity).
    rewrite orb_true_r. reflexivity.
  - apply Z.eqb_neq in Hmax.
    unfold pos_count_including_inflight in Hret.
    destruct (pos_count_active syms (SHOW_ACCOUNT oc) s) as [n | e] eqn:Hcnt;
      [| discriminate].
    cbn [obind] in Hret.
    destruct (MAX_CONCURRENT_POS oc <=? _)%Z eqn:Hfull.
    { injection Hret as <- <-. split; [reflexivity | discriminate]. }
    apply Z.leb_gt in Hfull.
    assert (Hs' : a = Granted
                  /\ s' = (if mode_has_live oc
                           then with_OPEN_INFLIGHT ({[sym]} ∪ OPEN_INFLIGHT s) s
                           else s)).
    { destruct (mode_has_live oc); injection Hret as <- <-; auto. }
    destruct Hs' as [-> Hs']. split; [congruence |]. intros _.
    split; [exact Hs' |]. split.
    { intros H1. rewrite H1 in Hblk. exact Hblk. }
    split.
    { intros _. exists n. split; [reflexivity |].
      pose proof (pos_count_active_bounds _ _ _ _ Hcnt) as Hn.
      split.
      - destruct (is_live (SHOW_ACCOUNT oc)); lia.
      - intros Hlive. rewrite Hlive in Hfull. split; [exact Hfull |].
        subst s'. destruct (mode_has_live oc);
          cbn [OPEN_INFLIGHT with_OPEN_INFLIGHT].
        + pose proof (size_add_inflight sym (OPEN_INFLIGHT s)). lia.
        + lia. }
    intros H1 Hlive [st Hst]. rewrite Hlive in Hs'. subst s'.
    unfold place_order_admission, symbol_is_blocked.
    cbn [SYMAP OPEN_INFLIGHT with_OPEN_INFLIGHT]. rewrite H1, Hst.
    rewrite (bool_decide_eq_true_2 (sym ∈ {[sym]} ∪ OPEN_INFLIGHT s))
      by (apply elem_of_union_l, elem_of_singleton; reflexivity).
    rewrite orb_true_r. reflexivity.
Qed.

Lemma X15_witness :
  place_order_admission default_order_config ["BTCUSDT"] "BTCUSDT" flat_state
  = Returned (Granted, reserved_state)
  /\ place_order_admission default_order_config ["BTCUSDT"] "BTCUSDT"
       reserved_state = Returned (Blocked, reserved_state)
  /\ (0 + Z.of_nat (size (OPEN_INFLIGHT reserved_state)) <= 3)%Z.
Proof.
  assert (Hret : place_order_admission default_order_config ["BTCUSDT"]
                   "BTCUSDT" flat_state = Returned (Granted, reserved_state))
    by (vm_compute; reflexivity).
  split; [exact Hret |].
  destruct (X15_admission_reserves_slot default_order_config ["BTCUSDT"]
              "BTCUSDT" flat_state reserved_state Granted Hret)
    as [_ Hgr].
  destruct (Hgr eq_refl) as (_ & _ & Hmax & Hagain).
  split.
  - apply Hagain; [reflexivity | reflexivity |].
    exists (new_symbol_state "BTCUSDT"). vm_compute. reflexivity.
  - destruct (Hmax ltac:(discriminate)) as (n & Hn & _ & Hlive).
    assert (E : n = 0%Z) by (vm_compute in Hn; congruence).
    subst n. apply (Hlive eq_refl).
Defined.

Lemma pos_count_insert_absent (syms : list string) (w sym : string)
    (st' : SymbolState) (s s' : State) :
  SYMAP s' = <[sym := st']> (SYMAP s) -> sym ∉ syms ->
  pos_count_active syms w s' = pos_count_active syms w s.
Proof.
  intros E. induction syms as [| x rest IH]; intros Hnot; [reflexivity |].
  apply not_elem_of_cons in Hnot as [Hne Hrest].
  cbn [pos_count_active]. rewrite E, lookup_insert_ne by congruence.
  rewrite IH by exact Hrest. reflexivity.
Qed.

Lemma pos_count_insert_same (syms : list string) (w sym : string)
    (st st' : SymbolState) (s s' : State) :
  SYMAP s' = <[sym := st']> (SYMAP s) -> SYMAP s !! sym = Some st ->
  _get_pos st' w = _get_pos st w ->
  pos_count_active syms w s' = pos_count_active syms w s.
Proof.
  intros E Hst Hsame. induction syms as [| x rest IH]; [reflexivity |].
  cbn [pos_count_active]. rewrite E, IH.
  destruct (decide (x = sym)) as [-> | Hne].
  - rewrite lookup_insert_eq, Hst, Hsame. reflexivity.
  - rewrite lookup_insert_ne by congruence. reflexivity.
Qed.

Lemma pos_count_insert_cleared (syms : list string) (w sym : string)
    (st st' : SymbolState) (p : Position) (s s' : State) (n : Z) :
  SYMAP s' = <[sym := st']> (SYMAP s) -> SYMAP s !! sym = Some st ->
  _get_pos st w = Some p -> _get_pos st' w = None ->
  NoDup syms -> sym ∈ syms ->
  pos_count_active syms w s = Returned n ->
  pos_count_active syms w s' = Returned (n - 1)%Z.
Proof.
  intros E Hst Hp Hnone Hnd. revert n.
  induction Hnd as [| x rest Hx Hnd IH]; intros n Hin Hn.
  { apply elem_of_nil in Hin. contradiction. }
  cbn [pos_count_active] in Hn |- *.
  destruct (decide (x = sym)) as [-> | Hne].
  - rewrite Hst in Hn. rewrite E, lookup_insert_eq.
    rewrite (pos_count_insert_absent rest w sym st' s s' E Hx).
    destruct (pos_count_active rest w s) as [m | e]; [| discriminate].
    cbn [obind] in Hn |- *. rewrite Hp in Hn. rewrite Hnone.
    injection Hn as <-. f_equal. lia.
  - apply elem_of_cons in Hin as [Heq | Hin]; [congruence |].
    rewrite E, lookup_insert_ne by congruence.
    destruct (SYMAP s !! x) as [stx |]; [| discriminate].
    destruct (pos_count_active rest w s) as [m | e] eqn:Hm; [| discriminate].
    cbn [obind] in Hn. rewrite (IH m Hin eq_refl). cbn [obind].
    destruct (_get_pos stx w); injection Hn as <-; f_equal; lia.
Qed.

(** X16: a settlement frees exactly one slot.  When a close goes through to
    settlement for a symbol of the pool (the pool listing it once), the
    number of open positions of the settled account goes down by one and the
    count of the other account is unchanged; after a LIVE settlement the
    symbol is no longer blocked for LIVE, after a simulated one it is
    blocked for SIM exactly when it carries an in-flight mark. *)
Theorem X16_close_frees_one_slot (cfg : Config) (env : CloseEnv)
    (sym reason : string) (px : Q) (which : string) (skip_exchange : bool)
    (s : State) (st : SymbolState) (p : Position) (syms : list string) (n : Z)
    (Hst : SYMAP s !! sym = Some st)
    (Hp : _get_pos st which = Some p)
    (Hnow : (600 <= now_ms env - last_close which sym s)%Z)
    (Hsettles : initial_uid which sym p ∉ _TRAINED_POS_UIDS s
                \/ has_size p = true)
    (Hnd : NoDup syms) (Hin : sym ∈ syms)
    (Hn : pos_count_active syms which s = Returned n) :
  exists s',
    close_position_one cfg env sym reason px which skip_exchange s = Returned s'
    /\ pos_count_active syms which s' = Returned (n - 1)%Z
    /\ (forall other, is_live other = negb (is_live which) ->
          pos_count_active syms other s' = pos_count_active syms other s)
    /\ symbol_is_blocked sym which s'
       = (if is_live which then false
          else bool_decide (sym ∈ OPEN_INFLIGHT s)).
Proof.
  eexists. split; [apply (close_settles _ _ _ _ _ _ _ _ _ Hst p Hnow Hp Hsettles) |].
  destruct (admitted_frame env which sym p s) as (_ & _ & Em & Ei & _).
  set (s0 := admitted_state env which sym p s) in *.
  set (s' := settle cfg env sym reason px which skip_exchange st p
               (settle_uid env which sym p s) s0).
  assert (E : SYMAP s' = <[sym := _set_pos st which None]> (SYMAP s))
    by (subst s'; rewrite settle_SYMAP, Em; reflexivity).
  assert (Hnone : _get_pos (_set_pos st which None) which = None)
    by (unfold _get_pos, _set_pos; destruct (is_live which); reflexivity).
  split; [| split].
  - apply (pos_count_insert_cleared syms which sym st _ p s s' n
             E Hst Hp Hnone Hnd Hin Hn).
  - intros other Hother.
    apply (pos_count_insert_same syms other sym st _ s s' E Hst).
    unfold _get_pos, _set_pos. rewrite Hother.
    destruct (is_live which); reflexivity.
  - unfold symbol_is_blocked. rewrite E, lookup_insert_eq, Hnone.
    rewrite (bool_decide_eq_false_2 (is_Some None))
      by (intros [x Hx]; discriminate).
    cbn [orb]. subst s'. rewrite settle_OPEN_INFLIGHT, Ei.
    destruct (is_live which); [| reflexivity].
    apply bool_decide_eq_false_2. intros Hx.
    apply elem_of_difference in Hx as [_ Hx]. apply Hx.
    apply elem_of_singleton. reflexivity.
Qed.

Lemma X16_witness :
  (SYMAP live_inflight_state !! "BTCUSDT" = Some live_symbol_state
   /\ _get_pos live_symbol_state "LIVE" = Some example_live_pos
   /\ (600 <= now_ms (example_env 1700000000000)
              - last_close "LIVE" "BTCUSDT" live_inflight_state)%Z
   /\ has_size example_live_pos = true
   /\ NoDup ["BTCUSDT"] /\ "BTCUSDT" ∈ ["BTCUSDT"]
   /\ pos_count_active ["BTCUSDT"] "LIVE" live_inflight_state = Returned 1%Z)
  /\ exists s',
       close_position_one default_config (example_env 1700000000000)
         "BTCUSDT" "TP hit" 110 "LIVE" false live_inflight_state = Returned s'
       /\ pos_count_active ["BTCUSDT"] "LIVE" s' = Returned 0%Z
       /\ symbol_is_blocked "BTCUSDT" "LIVE" live_inflight_state = true
       /\ symbol_is_blocked "BTCUSDT" "LIVE" s' = false.
Proof.
  assert (Hst : SYMAP live_inflight_state !! "BTCUSDT" = Some live_symbol_state)
    by (vm_compute; reflexivity).
  assert (Hp : _get_pos live_symbol_state "LIVE" = Some example_live_pos)
    by reflexivity.
  assert (Hnow : (600 <= now_ms (example_env 1700000000000)
                         - last_close "LIVE" "BTCUSDT" live_inflight_state)%Z)
    by (vm_compute; discriminate).
  assert (Hsz : has_size example_live_pos = true) by reflexivity.
  assert (Hnd : NoDup ["BTCUSDT"])
    by (constructor; [apply not_elem_of_nil | constructor]).
  assert (Hin : "BTCUSDT" ∈ ["BTCUSDT"]) by (left).
  assert (Hn : pos_count_active ["BTCUSDT"] "LIVE" live_inflight_state
               = Returned 1%Z) by (vm_compute; reflexivity).
  split; [repeat split; assumption |].
  destruct (X16_close_frees_one_slot default_config
              (example_env 1700000000000) "BTCUSDT" "TP hit" 110 "LIVE" false
              live_inflight_state live_symbol_state example_live_pos
              ["BTCUSDT"] 1 Hst Hp Hnow (or_intror Hsz) Hnd Hin Hn)
    as (s' & Hc & Hcnt & _ & Hblk).
  exists s'. split; [exact Hc |]. split; [exact Hcnt |].
  split; [vm_compute; reflexivity | exact Hblk].
Defined.

(** ** Closing on both accounts *)

Lemma settle_last_close_other (cfg : Config) (env : CloseEnv)
    (sym reason : string) (px : Q) (which other : string)
    (skip_exchange : bool) (st : SymbolState) (p : Position) (s : State) :
  upper other <> upper which ->
  last_close other sym
    (settle cfg env sym reason px which skip_exchange st p
       (settle_uid env which sym p s) (admitted_state env which sym p s))
  = last_close other sym s.
Proof.
  intros Hne. unfold last_close. rewrite settle_LAST_CLOSE_TS.
  unfold admitted_state, stamp_close, close_key.
  cbn [_LAST_CLOSE_TS with_TRAINED with_LAST_CLOSE_TS].
  rewrite lookup_insert_ne by congruence. reflexivity.
Qed.

Lemma book_trade_fields (which : string) (net : Q) (row : Trade)
    (acc : Account) :
  total_pnl (book_trade which net row acc) = total_pnl acc + net
  /\ trades (book_trade which net row acc) = trades acc ++ [row]
  /\ balance (book_trade which net row acc)
     = (if is_sim which then balance acc + net else balance acc)
  /\ daily_pnl (book_trade which net row acc)
     = (if is_sim which then daily_pnl acc + net else daily_pnl acc)
  /\ daily_start_equity (book_trade which net row acc)
     = daily_start_equity acc.
Proof. repeat split; reflexivity. Qed.

(** X17: [close_position] in a mode that trades both accounts settles both
    positions of the symbol.  With a LIVE and a simulated position of
    non-zero size on a tracked symbol and neither account inside its own
    debounce window, one call returns with both positions cleared, one new
    row in each account's history, LIVE's total PnL raised by the LIVE net
    result (its balance untouched), and the simulated balance and total PnL
    raised by the simulated net result: the LIVE close neither debounces
    nor suppresses the simulated one. *)
Theorem X17_close_position_settles_both (oc : OrderConfig) (cfg : Config)
    (env_live env_sim : CloseEnv) (sym reason : string) (px : Q)
    (s : State) (st : SymbolState) (pl ps : Position)
    (Hmode_live : mode_has_live oc = true)
    (Hmode_sim : mode_has_sim oc = true)
    (Hst : SYMAP s !! sym = Some st)
    (Hpl : position_live st = Some pl)
    (Hps : position_sim st = Some ps)
    (Hsize_live : has_size pl = true)
    (Hsize_sim : has_size ps = true)
    (Hnow_live : (600 <= now_ms env_live - last_close "LIVE" sym s)%Z)
    (Hnow_sim : (600 <= now_ms env_sim - last_close "SIM" sym s)%Z) :
  exists s' st',
    close_position oc cfg env_live env_sim sym reason px s = Returned s'
    /\ SYMAP s' !! sym = Some st'
    /\ position_live st' = None /\ position_sim st' = None
    /\ total_pnl (ACCOUNT_LIVE s')
       = total_pnl (ACCOUNT_LIVE s) + net_pnl_of cfg "LIVE" false env_live pl px
    /\ balance (ACCOUNT_LIVE s') = balance (ACCOUNT_LIVE s)
    /\ total_pnl (ACCOUNT_SIM s')
       = total_pnl (ACCOUNT_SIM s) + net_pnl_of cfg "SIM" false env_sim ps px
    /\ balance (ACCOUNT_SIM s')
       = balance (ACCOUNT_SIM s) + net_pnl_of cfg "SIM" false env_sim ps px
    /\ length (trades (ACCOUNT_LIVE s')) = S (length (trades (ACCOUNT_LIVE s)))
    /\ length (trades (ACCOUNT_SIM s')) = S (length (trades (ACCOUNT_SIM s))).
Proof.
  unfold close_position. rewrite Hmode_live, Hmode_sim.
  assert (Hgl : _get_pos st "LIVE" = Some pl) by exact Hpl.
  rewrite (close_settles cfg env_live sym reason px "LIVE" false s st Hst pl
             Hnow_live Hgl (or_intror Hsize_live)).
  cbn [obind].
  destruct (admitted_frame env_live "LIVE" sym pl s)
    as (Eas & Eal & Em & _).
  set (s0 := admitted_state env_live "LIVE" sym pl s) in *.
  set (u1 := settle_uid env_live "LIVE" sym pl s).
  assert (Hlast : last_close "SIM" sym
                    (settle cfg env_live sym reason px "LIVE" false st pl u1 s0)
                  = last_close "SIM" sym s).
  { apply settle_last_close_other. discriminate. }
  assert (Hmap1 : SYMAP (settle cfg env_live sym reason px "LIVE" false st pl u1 s0)
                  = <[sym := _set_pos st "LIVE" None]> (SYMAP s))
    by (rewrite settle_SYMAP, Em; reflexivity).
  assert (Hal1 : ACCOUNT_LIVE (settle cfg env_live sym reason px "LIVE" false
                                 st pl u1 s0)
                 = book_trade "LIVE" (net_pnl_of cfg "LIVE" false env_live pl px)
                     (trade_row cfg "LIVE" sym reason false env_live pl px u1)
                     (ACCOUNT_LIVE s))
    by (rewrite settle_ACCOUNT_LIVE, Eal; reflexivity).
  assert (Has1 : ACCOUNT_SIM (settle cfg env_live sym reason px "LIVE" false
                                 st pl u1 s0) = ACCOUNT_SIM s)
    by (rewrite settle_ACCOUNT_SIM, Eas; reflexivity).
  set (s1 := settle cfg env_live sym reason px "LIVE" false st pl u1 s0) in *.
  set (st1 := _set_pos st "LIVE" None) in *.
  assert (Hst1 : SYMAP s1 !! sym = Some st1)
    by (rewrite Hmap1; apply lookup_insert_eq).
  assert (Hgs : _get_pos st1 "SIM" = Some ps) by exact Hps.
  assert (Hnow1 : (600 <= now_ms env_sim - last_close "SIM" sym s1)%Z)
    by (rewrite Hlast; exact Hnow_sim).
  rewrite (close_settles cfg env_sim sym reason px "SIM" false s1 st1 Hst1 ps
             Hnow1 Hgs (or_intror Hsize_sim)).
  destruct (admitted_frame env_sim "SIM" sym ps s1)
    as (Eas2 & Eal2 & Em2 & _).
  set (s2 := admitted_state env_sim "SIM" sym ps s1) in *.
  set (u2 := settle_uid env_sim "SIM" sym ps s1).
  eexists. exists (_set_pos st1 "SIM" None).
  split; [reflexivity |].
  split; [rewrite settle_SYMAP; apply lookup_insert_eq |].
  split; [reflexivity |]. split; [reflexivity |].
  rewrite settle_ACCOUNT_LIVE, settle_ACCOUNT_SIM.
  change (is_live "SIM") with false. cbv iota.
  rewrite Eal2, Eas2, Hal1, Has1.
  cbn [total_pnl balance trades book_trade].
  change (is_sim "LIVE") with false. change (is_sim "SIM") with true.
  cbv iota. rewrite !length_app. cbn [length].
  repeat split; try reflexivity; lia.
Qed.

Lemma X17_witness :
  (mode_has_live default_order_config = true
   /\ mode_has_sim default_order_config = true
   /\ SYMAP both_open_state !! "BTCUSDT" = Some both_symbol_state
   /\ has_size example_live_pos = true /\ has_size example_pos = true
   /\ (600 <= now_ms (example_env 1700000000000)
              - last_close "LIVE" "BTCUSDT" both_open_state)%Z
   /\ (600 <= now_ms (example_env 1700000000000)
              - last_close "SIM" "BTCUSDT" both_open_state)%Z)
  /\ exists s',
       close_position default_order_config default_config
         (example_env 1700000000000) (example_env 1700000000000)
         "BTCUSDT" "TP hit" 110 both_open_state = Returned s'
       /\ total_pnl (ACCOUNT_LIVE s') == 10
       /\ balance (ACCOUNT_LIVE s') == 10000
       /\ balance (ACCOUNT_SIM s') == 10009.92.
Proof.
  assert (Hst : SYMAP both_open_state !! "BTCUSDT" = Some both_symbol_state)
    by (vm_compute; reflexivity).
  assert (Hl : (600 <= now_ms (example_env 1700000000000)
                       - last_close "LIVE" "BTCUSDT" both_open_state)%Z)
    by (vm_compute; discriminate).
  assert (Hs : (600 <= now_ms (example_env 1700000000000)
                       - last_close "SIM" "BTCUSDT" both_open_state)%Z)
    by (vm_compute; discriminate).
  split; [repeat split; try reflexivity; assumption |].
  destruct (X17_close_position_settles_both default_order_config
              default_config (example_env 1700000000000)
              (example_env 1700000000000) "BTCUSDT" "TP hit" 110
              both_open_state both_symbol_state example_live_pos example_pos
              eq_refl eq_refl Hst eq_refl eq_refl eq_refl eq_refl Hl Hs)
    as (s' & st' & Hc & _ & _ & _ & Htl & Hbl & _ & Hbs & _).
  exists s'. split; [exact Hc |].
  rewrite Htl, Hbl, Hbs. repeat split; reflexivity.
Defined.

(** ** Backtest statistics *)

Lemma drawdown_fold_mono (l : list Q) (pk m : Q) :
  m <= snd (fold_left drawdown_step l (pk, m)).
Proof.
  revert pk m. induction l as [| x l IH]; intros pk m; [cbn; lra |].
  cbn [fold_left]. unfold drawdown_step at 2. cbn [fst snd].
  eapply Qle_trans; [| apply IH]. apply Q.le_max_l.
Qed.

Lemma drawdown_fold_upper (l : list Q) (pk m : Q) :
  Forall (fun x => 0 <= x) l -> m <= 1 ->
  snd (fold_left drawdown_step l (pk, m)) <= 1.
Proof.
  intros Hall. revert pk m. induction Hall as [| x l Hx _ IH]; intros pk m Hm;
    [exact Hm |].
  cbn [fold_left]. unfold drawdown_step at 2. cbn [fst snd]. apply IH.
  apply Q.max_lub; [exact Hm |].
  destruct (Qlt_bool 0 _) eqn:Hp; [| lra].
  apply Qlt_bool_true in Hp.
  apply Qle_shift_div_r; [exact Hp |]. lra.
Qed.

Lemma equity_from_length (cur : Q) (trades : list Trade) :
  length (equity_from cur trades) = length trades.
Proof.
  revert cur. induction trades as [| tr rest IH]; intros cur; [reflexivity |].
  cbn. rewrite IH. reflexivity.
Qed.

Lemma drawdown_no_loss (trades : list Trade) (cur pk m : Q) :
  pk == cur -> m == 0 -> 0 < pk ->
  Forall (fun tr => 0 <= t_pnl_cash tr) trades ->
  snd (fold_left drawdown_step (equity_from cur trades) (pk, m)) == 0.
Proof.
  intros Hpk Hm Hpos Hall. revert cur pk m Hpk Hm Hpos.
  induction Hall as [| tr rest Htr _ IH]; intros cur pk m Hpk Hm Hpos;
    [exact Hm |].
  cbn [equity_from fold_left]. unfold drawdown_step at 2. cbn [fst snd].
  set (x := cur + t_pnl_cash tr).
  assert (Hx : pk <= x) by (subst x; lra).
  destruct (Qlt_bool pk x) eqn:E.
  - apply IH; [reflexivity | | lra].
    assert (Hp : Qlt_bool 0 x = true) by (apply Qlt_bool_true; lra).
    rewrite Hp.
    assert (Hdd : (x - x) / x == 0) by (field; lra).
    rewrite Hdd, Hm. reflexivity.
  - apply Qlt_bool_false in E.
    assert (Heq : pk == x) by lra.
    apply IH; [exact Heq | | exact Hpos].
    assert (Hp : Qlt_bool 0 pk = true) by (apply Qlt_bool_true; exact Hpos).
    rewrite Hp.
    assert (Hdd : (pk - x) / pk == 0) by (field_simplify_eq; lra).
    rewrite Hdd, Hm. reflexivity.
Qed.

Lemma drawdown_some_loss (trades : list Trade) (cur pk m : Q) :
  0 < pk -> cur <= pk -> 0 <= m ->
  Exists (fun tr => t_pnl_cash tr < 0) trades ->
  0 < snd (fold_left drawdown_step (equity_from cur trades) (pk, m)).
Proof.
  intros Hpos Hcur Hm Hex. revert cur pk m Hpos Hcur Hm.
  induction Hex as [tr rest Htr | tr rest _ IH]; intros cur pk m Hpos Hcur Hm.
  - cbn [equity_from fold_left]. unfold drawdown_step at 2. cbn [fst snd].
    set (x := cur + t_pnl_cash tr).
    assert (Hx : x < pk) by (subst x; lra).
    assert (E : Qlt_bool pk x = false) by (apply Qlt_bool_false; lra).
    rewrite E.
    assert (Hp : Qlt_bool 0 pk = true) by (apply Qlt_bool_true; exact Hpos).
    rewrite Hp.
    eapply Qlt_le_trans; [| apply drawdown_fold_mono].
    eapply Qlt_le_trans; [| apply Q.le_max_r].
    apply Qlt_shift_div_l; [exact Hpos | lra].
  - cbn [equity_from fold_left]. unfold drawdown_step at 2. cbn [fst snd].
    set (x := cur + t_pnl_cash tr).
    apply IH.
    + destruct (Qlt_bool pk x) eqn:E; [apply Qlt_bool_true in E; lra | exact Hpos].
    + destruct (Qlt_bool pk x) eqn:E; [lra | apply Qlt_bool_false in E; exact E].
    + eapply Qle_trans; [exact Hm | apply Q.le_max_l].
Qed.

Lemma fold_plus_shift (l : list Q) (a : Q) :
  fold_left Qplus l a == a + qsum l.
Proof.
  unfold qsum. revert a. induction l as [| x l IH]; intros a; cbn [fold_left].
  - ring.
  - rewrite (IH (a + x)), (IH (0 + x)). ring.
Qed.

Lemma equity_last (trades : list Trade) (cur : Q) :
  exists v, last (cur :: equity_from cur trades) = Some v
            /\ v == cur + qsum (t_pnl_cash <$> trades).
Proof.
  revert cur. induction trades as [| tr rest IH]; intros cur.
  - exists cur. split; [reflexivity |]. unfold qsum. cbn. ring.
  - destruct (IH (cur + t_pnl_cash tr)) as (v & Hv & Ev).
    exists v. split; [exact Hv |].
    rewrite Ev. cbn [fmap list_fmap]. unfold qsum at 2. cbn [fold_left].
    rewrite fold_plus_shift. ring.
Qed.

(** X18: the equity curve and its drawdown.  For a positive starting
    equity, the curve has one point more than there are trades and ends at
    the starting equity plus the sum of the results; its maximum drawdown is
    never negative, is at most 1 when the equity never goes below zero, is 0
    when no trade lost money and is positive as soon as one trade did. *)
Theorem X18_equity_curve_drawdown (start_equity : Q) (trades : list Trade)
    (Hstart : 0 < start_equity) :
  let curve := _trade_list_to_equity_curve start_equity trades in
  length curve = S (length trades)
  /\ (exists v, last curve = Some v
                /\ v == start_equity + qsum (t_pnl_cash <$> trades))
  /\ 0 <= _max_drawdown curve
  /\ (Forall (fun x => 0 <= x) curve -> _max_drawdown curve <= 1)
  /\ (Forall (fun tr => 0 <= t_pnl_cash tr) trades -> _max_drawdown curve == 0)
  /\ (Exists (fun tr => t_pnl_cash tr < 0) trades -> 0 < _max_drawdown curve).
Proof.
  intros curve. subst curve. unfold _trade_list_to_equity_curve.
  split; [cbn [length]; rewrite equity_from_length; reflexivity |].
  split; [apply equity_last |].
  unfold _max_drawdown.
  split; [apply drawdown_fold_mono |].
  split; [intros Hall; apply drawdown_fold_upper; [exact Hall | lra] |].
  cbn [fold_left]. unfold drawdown_step at 2 4. cbn [fst snd].
  assert (E : Qlt_bool start_equity start_equity = false)
    by (apply Qlt_bool_false; lra).
  assert (Hp : Qlt_bool 0 start_equity = true)
    by (apply Qlt_bool_true; exact Hstart).
  rewrite E, Hp.
  assert (Hdd : (start_equity - start_equity) / start_equity == 0)
    by (field; lra).
  assert (Hm : Qmax 0 ((start_equity - start_equity) / start_equity) == 0)
    by (rewrite Hdd; reflexivity).
  split.
  - intros Hall. apply drawdown_no_loss; [reflexivity | exact Hm | exact Hstart | exact Hall].
  - intros Hex. apply drawdown_some_loss; [exact Hstart | lra | | exact Hex].
    rewrite Hm. lra.
Qed.

Lemma X18_witness :
  0 < 10000
  /\ _trade_list_to_equity_curve 10000 [result_row 50; result_row (-150)]
     = [10000; 10000 + 50; 10000 + 50 + -150]
  /\ 0 < _max_drawdown
           (_trade_list_to_equity_curve 10000 [result_row 50; result_row (-150)])
  /\ _max_drawdown
       (_trade_list_to_equity_curve 10000 [result_row 50; result_row (-150)])
     == 150 / 10050
  /\ _max_drawdown
       (_trade_list_to_equity_curve 10000 [result_row 50; result_row 20])
     == 0.
Proof.
  assert (Hs : 0 < 10000) by reflexivity.
  split; [exact Hs |]. split; [reflexivity |].
  destruct (X18_equity_curve_drawdown 10000
              [result_row 50; result_row (-150)] Hs)
    as (_ & _ & _ & _ & _ & Hloss).
  destruct (X18_equity_curve_drawdown 10000
              [result_row 50; result_row 20] Hs)
    as (_ & _ & _ & _ & Hwin & _).
  split; [apply Hloss; right; left; reflexivity |].
  split; [vm_compute; reflexivity |].
  apply Hwin. repeat constructor; cbn; discriminate.
Defined.

Lemma streak_step_loss (acc : Z * Z) (tr : Trade) :
  is_loss tr ->
  streak_step acc tr = (Z.max (fst acc) (snd acc + 1), (snd acc + 1)%Z).
Proof.
  intros H. unfold streak_step.
  apply Qle_bool_iff in H. rewrite H. reflexivity.
Qed.

Lemma streak_step_win (acc : Z * Z) (tr : Trade) :
  ~ is_loss tr -> streak_step acc tr = (fst acc, 0%Z).
Proof.
  intros H. unfold streak_step.
  destruct (Qle_bool (t_pnl_cash tr) 0) eqn:E; [| reflexivity].
  apply Qle_bool_iff in E. contradiction.
Qed.

Lemma is_loss_dec (tr : Trade) : {is_loss tr} + {~ is_loss tr}.
Proof.
  unfold is_loss. destruct (Qlt_le_dec 0 (t_pnl_cash tr)) as [H | H].
  - right. lra.
  - left. exact H.
Qed.

Lemma streak_fold_mono (t : list Trade) (mx cur : Z) :
  (mx <= fst (fold_left streak_step t (mx, cur)))%Z.
Proof.
  revert mx cur. induction t as [| tr t IH]; intros mx cur; [cbn; lia |].
  cbn [fold_left].
  destruct (is_loss_dec tr) as [H | H].
  - rewrite (streak_step_loss _ _ H). cbn [fst snd].
    etransitivity; [| apply IH]. lia.
  - rewrite (streak_step_win _ _ H). cbn [fst]. apply IH.
Qed.

Lemma streak_fold_inv (t : list Trade) (mx cur : Z) :
  (0 <= cur <= mx)%Z ->
  (0 <= snd (fold_left streak_step t (mx, cur))
   <= fst (fold_left streak_step t (mx, cur)))%Z.
Proof.
  revert mx cur. induction t as [| tr t IH]; intros mx cur Hc; [exact Hc |].
  cbn [fold_left].
  destruct (is_loss_dec tr) as [H | H].
  - rewrite (streak_step_loss _ _ H). cbn [fst snd]. apply IH. lia.
  - rewrite (streak_step_win _ _ H). cbn [fst]. apply IH. lia.
Qed.

Lemma streak_run_counted (l b : list Trade) (mx cur : Z) :
  Forall is_loss l -> (cur <= mx)%Z ->
  (cur + Z.of_nat (length l)
   <= fst (fold_left streak_step (l ++ b) (mx, cur)))%Z.
Proof.
  intros Hall. revert mx cur.
  induction Hall as [| tr l Htr _ IH]; intros mx cur Hc.
  - cbn [app length]. pose proof (streak_fold_mono b mx cur). lia.
  - cbn [app fold_left length]. rewrite (streak_step_loss _ _ Htr).
    cbn [fst snd].
    specialize (IH (Z.max mx (cur + 1)) (cur + 1)%Z ltac:(lia)). lia.
Qed.

Lemma streak_run_exists (t : list Trade) (mx cur : Z) :
  let r := fst (fold_left streak_step t (mx, cur)) in
  r = mx
  \/ (exists a l b, t = a ++ l ++ b /\ Forall is_loss l
                    /\ Z.of_nat (length l) = r)
  \/ (exists l b, t = l ++ b /\ Forall is_loss l
                  /\ (cur + Z.of_nat (length l))%Z = r).
Proof.
  revert mx cur. induction t as [| tr t IH]; intros mx cur; [left; reflexivity |].
  cbn [fold_left].
  destruct (is_loss_dec tr) as [H | H].
  - rewrite (streak_step_loss _ _ H). cbn [fst snd].
    destruct (IH (Z.max mx (cur + 1)) (cur + 1)%Z)
      as [E | [(a & l & b & -> & Hl & E) | (l & b & -> & Hl & E)]].
    + cbv zeta. rewrite E.
      destruct (Z.max_spec mx (cur + 1)) as [[_ ->] | [_ ->]].
      * right. right. exists [tr], t. split; [reflexivity |].
        split; [constructor; [exact H | constructor] |]. cbn. lia.
      * left. reflexivity.
    + right. left. exists (tr :: a), l, b.
      split; [reflexivity |]. split; [exact Hl | exact E].
    + right. right. exists (tr :: l), b.
      split; [reflexivity |]. split; [constructor; assumption |].
      cbn [length]. cbv zeta. rewrite <- E. lia.
  - rewrite (streak_step_win _ _ H). cbn [fst].
    destruct (IH mx 0%Z)
      as [E | [(a & l & b & -> & Hl & E) | (l & b & -> & Hl & E)]].
    + left. exact E.
    + right. left. exists (tr :: a), l, b.
      split; [reflexivity |]. split; [exact Hl | exact E].
    + right. left. exists [tr], l, b.
      split; [reflexivity |]. split; [exact Hl |]. cbv zeta. rewrite <- E. lia.
Qed.

(** X19: [_loss_streak_stats] is the length of the longest run of
    consecutive trades with a result of zero or below: every such run in the
    history is at most that long, and one run of exactly that length exists;
    in particular the statistic lies between 0 and the number of trades.
    [_fee_ratio] is 0 for every history, because the fee total it divides is
    never added to. *)
Theorem X19_longest_losing_run (trades : list Trade) :
  (forall a l b, trades = a ++ l ++ b -> Forall is_loss l ->
     (Z.of_nat (length l) <= _loss_streak_stats trades)%Z)
  /\ (exists a l b, trades = a ++ l ++ b /\ Forall is_loss l
                    /\ Z.of_nat (length l) = _loss_streak_stats trades)
  /\ (0 <= _loss_streak_stats trades <= Z.of_nat (length trades))%Z
  /\ _fee_ratio trades == 0.
Proof.
  assert (Hex : exists a l b, trades = a ++ l ++ b /\ Forall is_loss l
                  /\ Z.of_nat (length l) = _loss_streak_stats trades).
  { unfold _loss_streak_stats.
    destruct (streak_run_exists trades 0 0)
      as [E | [H | (l & b & -> & Hl & E)]].
    - exists [], [], trades. split; [reflexivity |].
      split; [constructor |]. cbv zeta in E. rewrite E. reflexivity.
    - exact H.
    - exists [], l, b. split; [reflexivity |]. split; [exact Hl |].
      cbv zeta in E. rewrite <- E. lia. }
  split.
  { intros a l b -> Hl. unfold _loss_streak_stats.
    rewrite fold_left_app.
    pose proof (streak_fold_inv a 0 0 ltac:(lia)) as Hinv.
    destruct (fold_left streak_step a (0%Z, 0%Z)) as [mx cur].
    cbn [fst snd] in Hinv.
    pose proof (streak_run_counted l b mx cur Hl ltac:(lia)). lia. }
  split; [exact Hex |].
  split.
  { destruct Hex as (a & l & b & E & _ & <-).
    apply (f_equal length) in E. rewrite !length_app in E. lia. }
  unfold _fee_ratio.
  destruct (Qle_bool _ 0) eqn:E; [reflexivity |].
  apply Qle_bool_false in E.
  set (g := fold_left _ trades 0) in *.
  assert (Hz : 0 / g == 0) by (field; lra).
  rewrite Hz.
  destruct (Qmin_cases 1 0) as [[H1 _] | [_ Emin]]; [lra |].
  rewrite Emin. reflexivity.
Qed.

(** Win, loss, loss, break-even, win: the longest run has three trades. *)
Example loss_streak_example :
  _loss_streak_stats
    [result_row 5; result_row (-1); result_row (-2); result_row 0; result_row 3]
  = 3%Z.
Proof. reflexivity. Qed.

(** ** Restoring once *)

(** X20: [restore_sim_state] runs once per process and only touches the
    simulated side.  After a call the done flag is set and a second call
    changes nothing; the LIVE account, the model, the in-flight set and the
    snapshot file are as before, every symbol keeps its LIVE position, and
    a symbol the snapshot does not mention keeps its whole state (so a
    simulated position already open on it stays).  Without a snapshot file,
    or when the flag was already set, accounts and symbols are unchanged. *)
Theorem X20_restore_runs_once (s : State) :
  let r := restore_sim_state s in
  _SIM_STATE_DONE r = true
  /\ restore_sim_state r = r
  /\ ACCOUNT_LIVE r = ACCOUNT_LIVE s
  /\ ML r = ML s /\ OPEN_INFLIGHT r = OPEN_INFLIGHT s
  /\ sim_state_file r = sim_state_file s
  /\ (forall sym,
        SYMAP r !! sym ≫= position_live = SYMAP s !! sym ≫= position_live)
  /\ (forall sym data,
        sim_state_file s = Some data -> snap_positions data !! sym = None ->
        SYMAP r !! sym = SYMAP s !! sym)
  /\ (sim_state_file s = None \/ _SIM_STATE_DONE s = true ->
      ACCOUNT_SIM r = ACCOUNT_SIM s /\ SYMAP r = SYMAP s).
Proof.
  intros r. subst r.
  destruct (_SIM_STATE_DONE s) eqn:Hdone.
  { assert (E : restore_sim_state s = s)
      by (unfold restore_sim_state; rewrite Hdone; reflexivity).
    rewrite !E. repeat split; try reflexivity. exact Hdone. }
  assert (Hagain : forall r, _SIM_STATE_DONE r = true -> restore_sim_state r = r)
    by (intros r Hr; unfold restore_sim_state; rewrite Hr; reflexivity).
  destruct (sim_state_file s) as [data |] eqn:Hfile.
  - assert (E : exists a',
               restore_sim_state s
               = with_SIM_STATE_DONE true
                   (with_SYMAP (restore_positions (snap_positions data) (SYMAP s))
                      (with_ACCOUNT_SIM a' s))).
    { unfold restore_sim_state. rewrite Hdone, Hfile. eexists. reflexivity. }
    destruct E as (a' & E). rewrite !E.
    split; [reflexivity |]. split; [apply Hagain; reflexivity |].
    split; [reflexivity |]. split; [reflexivity |]. split; [reflexivity |].
    split; [exact Hfile |].
    cbn [SYMAP with_SIM_STATE_DONE with_SYMAP with_ACCOUNT_SIM ACCOUNT_SIM].
    split.
    { intros sym. rewrite restore_positions_lookup.
      destruct (snap_positions data !! sym); [| reflexivity].
      destruct (SYMAP s !! sym); reflexivity. }
    split.
    { intros sym data' [= <-] Hnone.
      rewrite restore_positions_lookup, Hnone. reflexivity. }
    intros [H | H]; discriminate.
  - assert (E : restore_sim_state s = with_SIM_STATE_DONE true s)
      by (unfold restore_sim_state; rewrite Hdone, Hfile; reflexivity).
    rewrite !E.
    split; [reflexivity |]. split; [apply Hagain; reflexivity |].
    repeat split; try reflexivity. exact Hfile.
Qed.

(** ** Indicator ranges *)

Lemma rsi_fold_nonneg (l : list Q) (g lo : Q) :
  0 <= g -> 0 <= lo ->
  0 <= fst (fold_left rsi_step l (g, lo))
  /\ 0 <= snd (fold_left rsi_step l (g, lo)).
Proof.
  revert g lo. induction l as [| d l IH]; intros g lo Hg Hlo; [auto |].
  cbn [fold_left]. unfold rsi_step at 2 4. cbn [fst snd].
  destruct (Qle_bool 0 d) eqn:E.
  - apply Qle_bool_iff in E. apply IH; lra.
  - apply Qle_bool_false in E. apply IH; lra.
Qed.

Lemma rsi_fold_no_gain (l : list Q) (g lo : Q) :
  Forall (fun d => d <= 0) l -> g == 0 ->
  fst (fold_left rsi_step l (g, lo)) == 0.
Proof.
  intros Hall. revert g lo. induction Hall as [| d l Hd _ IH]; intros g lo Hg;
    [exact Hg |].
  cbn [fold_left]. unfold rsi_step at 2. cbn [fst snd].
  destruct (Qle_bool 0 d) eqn:E.
  - apply Qle_bool_iff in E. apply IH. lra.
  - apply IH. exact Hg.
Qed.

Lemma inject_nat_pos (n : nat) : (0 < n)%nat -> 0 < inject_Z (Z.of_nat n).
Proof.
  intros H. change 0 with (inject_Z 0). rewrite <- Zlt_Qlt. lia.
Qed.

(** X21: ranges of the indicators.  [rsi_calc] with a positive look-back
    gives no value when there are fewer closes than the look-back plus one
    and otherwise returns a value in [[0, 100)], which is 0 when no close of
    the window is above its predecessor; with a look-back of zero and at
    least one close it divides by zero.  [ema] returns the price itself when
    there is no previous value and otherwise, for a length of at least 1, a
    value between the previous value and the price. *)
Theorem X21_indicator_ranges (closes : list Q) (n : nat) (Hn : (0 < n)%nat) :
  ((length closes < n + 1)%nat -> rsi_calc closes n = Returned None)
  /\ ((n + 1 <= length closes)%nat ->
      exists r, rsi_calc closes n = Returned (Some r)
                /\ 0 <= r /\ r < 100
                /\ (Forall (fun d => d <= 0) (last_diffs closes n) -> r == 0))
  /\ (closes <> [] -> rsi_calc closes 0 = Raised ZeroDivisionError)
  /\ (forall price len, ema None price len = Returned price)
  /\ (forall pv price len, (1 <= len)%Z ->
        exists e, ema (Some pv) price len = Returned e
                  /\ Qmin pv price <= e /\ e <= Qmax pv price).
Proof.
  split.
  { intros H. unfold rsi_calc. apply Nat.ltb_lt in H. rewrite H. reflexivity. }
  split.
  { intros H. unfold rsi_calc. apply Nat.ltb_ge in H. rewrite H.
    destruct (rsi_fold_nonneg (last_diffs closes n) 0 0 ltac:(lra) ltac:(lra))
      as [Hg Hl].
    set (gl := fold_left rsi_step (last_diffs closes n) (0, 0)) in *.
    pose proof (inject_nat_pos n Hn) as Hpos.
    set (k := inject_Z (Z.of_nat n)) in *.
    rewrite (py_div_nonzero (fst gl) k) by lra. cbn [obind].
    assert (Hal : exists al,
              (if Qlt_bool 0 (snd gl) then py_div (snd gl) k
               else Returned 0.000000001) = Returned al /\ 0 < al).
    { destruct (Qlt_bool 0 (snd gl)) eqn:E.
      - apply Qlt_bool_true in E. rewrite py_div_nonzero by lra.
        eexists. split; [reflexivity |]. apply Qlt_shift_div_l; lra.
      - eexists. split; [reflexivity | reflexivity]. }
    destruct Hal as (al & -> & Hal). cbn [obind].
    rewrite py_div_nonzero by lra. cbn [obind].
    assert (Hrs : 0 <= fst gl / k / al).
    { apply Qle_shift_div_l; [exact Hal |].
      apply Qle_shift_div_l; [exact Hpos |]. lra. }
    set (rs := fst gl / k / al) in *.
    rewrite py_div_nonzero by lra. cbn [obind].
    eexists. split; [reflexivity |].
    assert (Hd1 : 100 / (1 + rs) <= 100)
      by (apply Qle_shift_div_r; [lra | nra]).
    assert (Hd2 : 0 < 100 / (1 + rs))
      by (apply Qlt_shift_div_l; lra).
    split; [lra |]. split; [lra |].
    intros Hall.
    assert (Hg0 : fst gl == 0)
      by (apply rsi_fold_no_gain; [exact Hall | reflexivity]).
    assert (Hrs0 : rs == 0).
    { subst rs. rewrite Hg0. field. split; lra. }
    rewrite Hrs0. field. }
  split.
  { intros Hne. unfold rsi_calc.
    destruct closes as [| c cs]; [contradiction |]. reflexivity. }
  split; [reflexivity |].
  intros pv price len Hlen. unfold ema.
  assert (Hk : 0 < inject_Z (len + 1))
    by (change 0 with (inject_Z 0); rewrite <- Zlt_Qlt; lia).
  rewrite py_div_nonzero by lra. cbn [obind].
  eexists. split; [reflexivity |].
  assert (Hk1 : 0 < 2 / inject_Z (len + 1))
    by (apply Qlt_shift_div_l; lra).
  assert (Hk2 : 2 / inject_Z (len + 1) <= 1).
  { apply Qle_shift_div_r; [exact Hk |].
    rewrite Qmult_1_l. change 2 with (inject_Z 2). rewrite <- Zle_Qle. lia. }
  set (k := 2 / inject_Z (len + 1)) in *.
  destruct (Qmin_cases pv price) as [[H1 E1] | [H1 E1]];
    destruct (Qmax_split pv price) as [[H2 E2] | [H2 E2]];
    rewrite E1, E2; split; nra.
Qed.

Lemma X21_witness :
  (0 < 2)%nat
  /\ rsi_calc [4; 2] 2 = Returned None
  /\ (exists r, rsi_calc [5; 4; 2; 1] 2 = Returned (Some r) /\ r == 0)
  /\ (exists r, rsi_calc [1; 2; 3; 2] 2 = Returned (Some r) /\ r == 50)
  /\ (exists e, ema (Some 100) 110 9 = Returned e /\ e == 102).
Proof.
  assert (Hn : (0 < 2)%nat) by lia.
  split; [exact Hn |].
  destruct (X21_indicator_ranges [4; 2] 2 Hn) as (Hnone & _).
  destruct (X21_indicator_ranges [5; 4; 2; 1] 2 Hn) as (_ & Hsome & _).
  destruct (X21_indicator_ranges [1; 2; 3; 2] 2 Hn)
    as (_ & Hmid & _ & _ & Hema).
  split; [apply Hnone; cbn; lia |].
  split.
  - destruct (Hsome ltac:(cbn; lia)) as (r & Hr & _ & _ & Hz).
    exists r. split; [exact Hr |]. apply Hz.
    repeat constructor; vm_compute; discriminate.
  - split.
    + destruct (Hmid ltac:(cbn; lia)) as (r & Hr & _).
      exists r. split; [exact Hr |].
      vm_compute in Hr. injection Hr as <-. reflexivity.
    + destruct (Hema 100 110 9%Z ltac:(lia)) as (e & He & _).
      exists e. split; [exact He |].
      vm_compute in He. injection He as <-. reflexivity.
Defined.

(** ** Reconciliation *)

Lemma differs_false (p : Position) (sd : Side) (q e : Q) :
  differs p sd q e = false ->
  side p = sd /\ Qabs (qty p - q) <= 0.000000001
  /\ Qabs (entry p - e) <= 0.000000001.
Proof.
  unfold differs. intros H.
  apply orb_false_iff in H as [H H3]. apply orb_false_iff in H as [H1 H2].
  apply negb_false_iff in H1.
  apply Qlt_bool_false in H2. apply Qlt_bool_false in H3.
  split; [| split; assumption].
  destruct (side p), sd; (reflexivity || discriminate).
Qed.

Lemma Qabs_self_zero (x : Q) : Qabs (x - x) <= 0.000000001.
Proof.
  assert (E : x - x == 0) by ring. rewrite E. cbn. discriminate.
Qed.

Lemma adopt_exchange_position_spec (senv : SyncEnv) (sym : string)
    (st : SymbolState) (sd : Side) (q e : Q) (s : State) :
  exists p0,
    SYMAP (adopt_exchange_position senv sym st sd q e s)
    = <[sym := _set_pos st "LIVE" (Some p0)]> (SYMAP s)
    /\ side p0 = sd /\ qty p0 = q /\ entry p0 = e
    /\ sl p0 = None /\ tp p0 = None /\ pos_uid p0 = Some (sync_uid senv)
    /\ OPEN_INFLIGHT (adopt_exchange_position senv sym st sd q e s)
       = OPEN_INFLIGHT s
    /\ ACCOUNT_LIVE (adopt_exchange_position senv sym st sd q e s)
       = ACCOUNT_LIVE s
    /\ ACCOUNT_SIM (adopt_exchange_position senv sym st sd q e s)
       = ACCOUNT_SIM s.
Proof.
  unfold adopt_exchange_position.
  destruct (bool_decide (is_Some (open_feats (ML s) !! ("LIVE", sym)))).
  - eexists. split; [reflexivity |]. repeat split; reflexivity.
  - destruct (match features_now st with
              | Some f => Some f
              | None => sync_fallback senv
              end) as [f |].
    + eexists. split; [reflexivity |]. repeat split; reflexivity.
    + eexists. split; [reflexivity |]. repeat split; reflexivity.
Qed.

(** X22: one reconciliation step makes the local LIVE book agree with the
    exchange.  For a tracked symbol: when the exchange reports a non-zero
    amount, the step returns with a local LIVE position of the reported
    side whose quantity and entry are within 1e-9 of the reported ones, the
    symbol's in-flight mark released, and the simulated position, both
    accounts and every other symbol untouched; a local position that
    already agreed is kept as it is, otherwise the new position is the bare
    exchange one (no stop, no target) under the fresh uid.  When the
    exchange reports nothing or a zero amount, a symbol without local LIVE
    position is left alone (its in-flight mark too), and one with a local
    position is closed through [close_position_one] without contacting the
    exchange, at the mark price when that is positive and at the entry
    otherwise. *)
Theorem X22_reconcile_adopts_exchange (cfg : Config) (senv : SyncEnv)
    (sym : string) (exch : option ExchPos) (s : State) (st : SymbolState)
    (Hst : SYMAP s !! sym = Some st) :
  (forall ex, exch = Some ex -> ~ x_amt ex == 0 ->
     let sd := if Qlt_bool 0 (x_amt ex) then LONG else SHORT in
     exists s' st' p',
       reconcile_symbol cfg senv sym exch s = Returned s'
       /\ SYMAP s' !! sym = Some st'
       /\ position_live st' = Some p'
       /\ side p' = sd
       /\ Qabs (qty p' - Qabs (x_amt ex)) <= 0.000000001
       /\ Qabs (entry p' - x_entry ex) <= 0.000000001
       /\ (sym ∉ OPEN_INFLIGHT s')
       /\ position_sim st' = position_sim st
       /\ ACCOUNT_LIVE s' = ACCOUNT_LIVE s /\ ACCOUNT_SIM s' = ACCOUNT_SIM s
       /\ (forall other, other <> sym -> SYMAP s' !! other = SYMAP s !! other)
       /\ match position_live st with
          | Some p =>
              if differs p sd (Qabs (x_amt ex)) (x_entry ex)
              then sl p' = None /\ tp p' = None
                   /\ pos_uid p' = Some (sync_uid senv)
              else p' = p
          | None =>
              sl p' = None /\ tp p' = None /\ pos_uid p' = Some (sync_uid senv)
          end)
  /\ (exch = None \/ (exists ex, exch = Some ex /\ x_amt ex == 0) ->
      let lp := float_or0 (last_price st) in
      let mark :=
        match exch with
        | Some ex => if Qeq_bool (x_mark ex) 0 then lp else x_mark ex
        | None => lp
        end in
      match position_live st with
      | None => reconcile_symbol cfg senv sym exch s = Returned s
      | Some p =>
          let px := if Qlt_bool 0 mark then mark else entry p in
          reconcile_symbol cfg senv sym exch s
          = close_position_one cfg (sync_close senv) sym
              "Exchange TP/SL filled" px "LIVE" true s
          /\ exit_price "LIVE" true (sync_close senv) px = px
      end).
Proof.
  split.
  - intros ex -> Hamt sd. unfold reconcile_symbol. rewrite Hst.
    unfold default. cbn [from_option]. unfold id.
    assert (Habs : Qle_bool (Qabs (x_amt ex)) 0 = false).
    { apply Qle_bool_false.
      destruct (Qlt_le_dec 0 (Qabs (x_amt ex))) as [H | H]; [exact H |].
      apply Qabs_nonpos_iff in H. contradiction. }
    rewrite Habs. fold sd.
    set (q := Qabs (x_amt ex)). set (e := x_entry ex).
    assert (Hout : forall g : gset string, sym ∉ g ∖ {[sym]}).
    { intros g Hx. apply elem_of_difference in Hx as [_ Hx]. apply Hx.
      apply elem_of_singleton. reflexivity. }
    assert (Hchanged :
      exists st' p',
        SYMAP (adopt_exchange_position senv sym st sd q e s) !! sym = Some st'
        /\ position_live st' = Some p'
        /\ side p' = sd
        /\ Qabs (qty p' - q) <= 0.000000001
        /\ Qabs (entry p' - e) <= 0.000000001
        /\ position_sim st' = position_sim st
        /\ (forall other, other <> sym ->
              SYMAP (adopt_exchange_position senv sym st sd q e s) !! other
              = SYMAP s !! other)
        /\ sl p' = None /\ tp p' = None /\ pos_uid p' = Some (sync_uid senv)).
    { destruct (adopt_exchange_position_spec senv sym st sd q e s)
        as (p0 & Em & H1 & H2 & H3 & H4 & H5 & H6 & _).
      exists (_set_pos st "LIVE" (Some p0)), p0.
      rewrite Em, H2, H3.
      split; [apply lookup_insert_eq |]. split; [reflexivity |].
      split; [exact H1 |]. split; [apply Qabs_self_zero |].
      split; [apply Qabs_self_zero |]. split; [reflexivity |].
      split; [| auto].
      intros other Hne. apply lookup_insert_ne. congruence. }
    destruct (adopt_exchange_position_spec senv sym st sd q e s)
      as (_ & _ & _ & _ & _ & _ & _ & _ & Ei & Eal & Eas).
    destruct (position_live st) as [p |] eqn:Hp.
    + destruct (differs p sd q e) eqn:Hd.
      * destruct Hchanged
          as (st' & p' & H1 & H2 & H3 & H4 & H5 & H6 & H7 & H8).
        eexists _, st', p'. split; [reflexivity |].
        cbn [SYMAP OPEN_INFLIGHT ACCOUNT_LIVE ACCOUNT_SIM with_OPEN_INFLIGHT].
        auto 15.
      * destruct (differs_false p sd q e Hd) as (D1 & D2 & D3).
        eexists _, st, p. split; [reflexivity |].
        cbn [SYMAP OPEN_INFLIGHT ACCOUNT_LIVE ACCOUNT_SIM with_OPEN_INFLIGHT].
        split; [exact Hst |]. split; [exact Hp |].
        split; [exact D1 |]. split; [exact D2 |]. split; [exact D3 |].
        split; [apply Hout |]. repeat split; reflexivity.
    + destruct Hchanged
        as (st' & p' & H1 & H2 & H3 & H4 & H5 & H6 & H7 & H8).
      eexists _, st', p'. split; [reflexivity |].
      cbn [SYMAP OPEN_INFLIGHT ACCOUNT_LIVE ACCOUNT_SIM with_OPEN_INFLIGHT].
      auto 15.
  - intros Hflat. cbv zeta. unfold reconcile_symbol. rewrite Hst.
    destruct exch as [ex |]; unfold default; cbn [from_option]; unfold id.
    + destruct Hflat as [H | (ex' & [= <-] & E)]; [discriminate |].
      assert (Hz : Qle_bool (Qabs (x_amt ex)) 0 = true)
        by (apply Qle_bool_iff, Qabs_nonpos_iff; exact E).
      rewrite Hz.
      destruct (position_live st) as [p |]; [| reflexivity].
      split; reflexivity.
    + cbn [x_amt x_mark].
      assert (Hz : Qle_bool (Qabs 0) 0 = true) by reflexivity.
      rewrite Hz.
      destruct (position_live st) as [p |]; [| reflexivity].
      destruct (Qeq_bool (float_or0 (last_price st)) 0); split; reflexivity.
Qed.
